(** * Tutor assignment app: the matching and batch-workflow core

    A shallow embedding of the JavaScript of the assignment board
    (similarity scorer, capacity-aware matcher, drag-and-drop assignment
    state) and of the commit sequence of the guided workflow, with the
    properties the specification states about them. *)

From Stdlib Require Import ZArith List String Ascii Bool Lia Permutation Sorted.
From Stdlib Require Import PrimFloat SpecFloat FloatOps Uint63.
Import ListNotations.

Open Scope string_scope.
Open Scope Z_scope.

(* ================================================================== *)
(** * JavaScript values and built-ins used by the source *)
(* ================================================================== *)

Module Js.

(** ** Numbers *)

(** A JS number that the code only ever uses as an integer, or [NaN]
    (what [parseInt] gives on a string with no digits, and what
    [undefined++] stores). *)
Inductive num : Type :=
| Num (z : Z)
| NaN.

Definition num_eqb (a b : num) : bool :=
  match a, b with
  | Num x, Num y => x =? y
  | _, _ => false
  end.

(** [a - b] *)
Definition num_sub (a b : num) : num :=
  match a, b with
  | Num x, Num y => Num (x - y)
  | _, _ => NaN
  end.

(** [a > 0]; every comparison with [NaN] is false. *)
Definition num_pos (a : num) : bool :=
  match a with
  | Num x => 0 <? x
  | NaN => false
  end.

(** IEEE 754 doubles are Rocq's primitive floats. *)
Definition of_length (n : nat) : float :=
  PrimFloat.of_uint63 (Uint63.of_Z (Z.of_nat n)).

(** The integer [n] as a double (exact below 2^53). *)
Definition of_Z (n : Z) : float :=
  match n with
  | Z0 => PrimFloat.zero
  | Zpos _ => PrimFloat.of_uint63 (Uint63.of_Z n)
  | Zneg _ => PrimFloat.opp (PrimFloat.of_uint63 (Uint63.of_Z (- n)))
  end.

(** [Math.round(x)]: the integer nearest to [x], ties towards +infinity;
    zeros, infinities and NaN are returned as they are. *)
Definition Math_round (x : float) : float :=
  match Prim2SF x with
  | S754_finite s m e =>
      if 0 <=? e then x
      else
        let n := if s then Z.neg m else Z.pos m in
        let r := (2 * n + 2 ^ (- e)) / 2 ^ (1 - e) in
        if (r =? 0) && s then PrimFloat.opp PrimFloat.zero else of_Z r
  | _ => x
  end.

(** [Math.floor(x)] of a finite double, as an integer. *)
Definition floor_Z (x : float) : Z :=
  match Prim2SF x with
  | S754_finite s m e =>
      let n := if s then Z.neg m else Z.pos m in
      if 0 <=? e then n * 2 ^ e else n / 2 ^ (- e)
  | _ => 0
  end.

(** ** Strings: code units below 256 *)

Definition code (c : ascii) : nat := nat_of_ascii c.

(** [String.prototype.toLowerCase] on one code unit. *)
Definition lower_char (c : ascii) : ascii :=
  let n := code c in
  if ((65 <=? n) && (n <=? 90))%nat || ((192 <=? n) && (n <=? 222) && negb (n =? 215))%nat
  then ascii_of_nat (n + 32) else c.

Fixpoint toLowerCase (s : string) : string :=
  match s with
  | EmptyString => EmptyString
  | String c r => String (lower_char c) (toLowerCase r)
  end.

(** The regular-expression class [\w]. *)
Definition is_word_char (c : ascii) : bool :=
  let n := code c in
  (((48 <=? n) && (n <=? 57)) || ((65 <=? n) && (n <=? 90))
   || ((97 <=? n) && (n <=? 122)) || (n =? 95))%nat.

(** The regular-expression class [\s]. *)
Definition is_space_char (c : ascii) : bool :=
  let n := code c in
  (((9 <=? n) && (n <=? 13)) || (n =? 32) || (n =? 160))%nat.

(** [s.replace(/[^\w\s]/g, ' ')] *)
Fixpoint replace_punctuation (s : string) : string :=
  match s with
  | EmptyString => EmptyString
  | String c r =>
      String (if is_word_char c || is_space_char c then c else " "%char)
             (replace_punctuation r)
  end.

(** [s.split(/\s+/)]: the pieces between maximal runs of white space; a
    string that starts or ends with white space yields an empty first or
    last piece, and the empty string yields one empty piece. *)
Fixpoint split_from (cur : string) (in_gap : bool) (s : string) : list string :=
  match s with
  | EmptyString => [cur]
  | String c r =>
      if is_space_char c
      then (if in_gap then split_from EmptyString true r
            else cur :: split_from EmptyString true r)
      else split_from (cur ++ String c EmptyString) false r
  end.

Definition split_spaces (s : string) : list string :=
  split_from EmptyString false s.

(** [s.startsWith(p)] *)
Fixpoint startsWith (p s : string) : bool :=
  match p, s with
  | EmptyString, _ => true
  | String a p', String b s' => Ascii.eqb a b && startsWith p' s'
  | String _ _, EmptyString => false
  end.

(** [s.includes(p)] *)
Fixpoint includes (p s : string) : bool :=
  startsWith p s ||
  match s with
  | EmptyString => false
  | String _ s' => includes p s'
  end.

Fixpoint drop (n : nat) (s : string) : string :=
  match n, s with
  | O, _ => s
  | S n', String _ s' => drop n' s'
  | S _, EmptyString => EmptyString
  end.

(** [s.replace(p, '')] with a string pattern: the first occurrence of [p]
    is removed. *)
Fixpoint remove_first (p s : string) : string :=
  if startsWith p s then drop (String.length p) s
  else match s with
       | EmptyString => EmptyString
       | String c s' => String c (remove_first p s')
       end.

(** ** [parseInt(s)] with no radix

    White space is skipped, then a sign, then the prefix [0x] selects
    radix 16; the digits that follow are read up to the first character
    that is not a digit (exactly, which is what JS does below 2^53). *)

Definition digit_of (radix : Z) (c : ascii) : option Z :=
  let n := Z.of_nat (code c) in
  let d := if (48 <=? n) && (n <=? 57) then n - 48
           else if (97 <=? n) && (n <=? 122) then n - 87
           else if (65 <=? n) && (n <=? 90) then n - 55
           else 99 in
  if d <? radix then Some d else None.

Fixpoint digits (radix : Z) (acc : option Z) (s : string) : option Z :=
  match s with
  | EmptyString => acc
  | String c r =>
      match digit_of radix c with
      | Some d => digits radix (Some (radix * match acc with Some a => a | None => 0 end + d)) r
      | None => acc
      end
  end.

Fixpoint trim_start (s : string) : string :=
  match s with
  | String c r => if is_space_char c then trim_start r else s
  | EmptyString => EmptyString
  end.

Definition parseInt (s : string) : num :=
  let s := trim_start s in
  let '(neg, s) :=
    match s with
    | String "-"%char r => (true, r)
    | String "+"%char r => (false, r)
    | _ => (false, s)
    end in
  let '(radix, s) :=
    if startsWith "0x" s || startsWith "0X" s then (16, drop 2 s) else (10, s) in
  match digits radix None s with
  | Some v => Num (if neg then - v else v)
  | None => NaN
  end.

(** ** Arrays *)

Section Arrays.
Context {A : Type}.

(** [Array.prototype.sort(cmp)]: a stable sort; [after a b] says that
    [cmp(a, b) > 0], that is [b] is placed before [a].  For a comparator
    that is consistent on the values sorted this is the order of every
    engine.  For one that is not (one that returns [NaN] for some pairs,
    or whose "equal" is not transitive) the standard leaves the order to
    the engine: the result is then a permutation of the argument, but the
    order of this definition need not be the engine's. *)
Fixpoint insert_sorted (after : A -> A -> bool) (x : A) (l : list A) : list A :=
  match l with
  | [] => [x]
  | y :: l' => if after x y then y :: insert_sorted after x l' else x :: l
  end.

Definition sort (after : A -> A -> bool) (l : list A) : list A :=
  fold_right (insert_sorted after) [] l.

(** [l.splice(i, 0, x)] on a copy of [l], for [0 <= i]. *)
Definition splice_in (i : nat) (x : A) (l : list A) : list A :=
  firstn i l ++ x :: skipn i l.

(** [l.indexOf(x)] / [l.findIndex(p)], for an element that is there. *)
Fixpoint findIndex (p : A -> bool) (l : list A) : option nat :=
  match l with
  | [] => None
  | y :: l' => if p y then Some O else option_map S (findIndex p l')
  end.
End Arrays.

(** ** Plain objects used as maps from strings

    The entries are kept in the order [Object.entries] enumerates them
    (insertion order: the keys of the source are e-mail addresses, never
    array indices and never names of properties of [Object.prototype]).
    An object has no two entries with one key. *)

Definition obj (V : Type) : Type := list (string * V).

Section Objects.
Context {V : Type}.

(** [o[k]], [None] for [undefined] *)
Fixpoint get (o : obj V) (k : string) : option V :=
  match o with
  | [] => None
  | (k', v) :: o' => if String.eqb k' k then Some v else get o' k
  end.

(** [o[k] = v] *)
Fixpoint set (o : obj V) (k : string) (v : V) : obj V :=
  match o with
  | [] => [(k, v)]
  | (k', v') :: o' =>
      if String.eqb k' k then (k', v) :: o' else (k', v') :: set o' k v
  end.

Definition keys (o : obj V) : list string := map fst o.
End Objects.

End Js.

(* ================================================================== *)
(** * Records of the persistence layer *)
(* ================================================================== *)

(** A field that may be missing is an [option]: [None] stands for
    [undefined], [null] and every other falsy or non-string value. *)

Module Student.
Record t : Type := mk {
  row_index : Z;
  status : option string;
  class_year : option string;
  medical_interests : option string;
  research_activities : option string;
  extracurricular_activities : option string
}.
End Student.

Module Nrt.
Record t : Type := mk {
  row_index : Z;
  name : string;
  email : string;
  status : string;
  medical_interests : option string;
  interested_in_research : option string;
  interests_outside_medicine : option string
}.
End Nrt.

(** [x || ''] *)
Definition or_empty (x : option string) : string :=
  match x with
  | Some s => s
  | None => ""
  end.

(* ================================================================== *)
(** * Text similarity scorer *)
(* ================================================================== *)

Module Scorer.

Definition stopWords : list string :=
  [ "and"; "the"; "of"; "to"; "a"; "an"; "in"; "on"; "at"; "for"; "with"; "by";
    "from"; "as"; "is"; "are"; "was"; "were"; "be"; "been"; "being"; "have"; "has"; "had";
    "do"; "does"; "did"; "will"; "would"; "could"; "should"; "may"; "might"; "must";
    "can"; "this"; "that"; "these"; "those"; "i"; "you"; "he"; "she"; "it"; "we"; "they";
    "me"; "him"; "her"; "us"; "them"; "my"; "your"; "his"; "her"; "its"; "our"; "their";
    "what"; "which"; "who"; "whom"; "whose"; "where"; "when"; "why"; "how";
    "all"; "each"; "every"; "both"; "few"; "more"; "most"; "other"; "some"; "such";
    "no"; "nor"; "not"; "only"; "own"; "same"; "so"; "than"; "too"; "very";
    "interested"; "interest"; "interests"; "interested in"; "about"; "into"; "through";
    "during"; "before"; "after"; "above"; "below"; "up"; "down"; "out"; "off"; "over"; "under";
    "again"; "further"; "then"; "once"; "here"; "there"; "when"; "where"; "why"; "how";
    "all"; "any"; "both"; "each"; "few"; "more"; "most"; "other"; "some"; "such";
    "no"; "nor"; "not"; "only"; "own"; "same"; "so"; "than"; "too"; "very";
    "s"; "t"; "can"; "will"; "just"; "don"; "should"; "now" ].

(** [list.includes(w)] and [set.has(w)] on strings *)
Definition has (l : list string) (w : string) : bool :=
  existsb (String.eqb w) l.

Definition extractWords (text : string) : list string :=
  if String.eqb text "" then []
  else
    filter (fun word => (2 <? String.length word)%nat && negb (has stopWords word))
           (Js.split_spaces (Js.replace_punctuation (Js.toLowerCase text))).

Record matching : Type := mkMatching {
  medical : list string;
  research : list string;
  hobbies : list string
}.

Record similarity : Type := mkSimilarity {
  score : float;
  medicalScore : float;
  researchScore : float;
  hobbyScore : float;
  matchingKeywords : matching
}.

(** [new Set([...a, ...b]).size] *)
Definition union_size (a b : list string) : nat :=
  List.length (nodup string_dec (a ++ b)).

(** [total > 0 ? (matches.length / total) * 100 : 0] *)
Definition category_score (matches : list string) (total : nat) : float :=
  if (0 <? total)%nat
  then PrimFloat.mul (PrimFloat.div (Js.of_length (List.length matches)) (Js.of_length total))
                     (Js.of_Z 100)
  else PrimFloat.zero.

#[local] Set Warnings "-inexact-float".
Definition weight_04 : float := 0.4%float.
Definition weight_02 : float := 0.2%float.
#[local] Set Warnings "inexact-float".

Definition calculateSimilarity (student : Student.t) (nrt : Nrt.t) : similarity :=
  let studentMedical := extractWords (or_empty (Student.medical_interests student)) in
  let nrtMedical := extractWords (or_empty (Nrt.medical_interests nrt)) in
  let studentResearch := extractWords (or_empty (Student.research_activities student)) in
  let nrtResearch := extractWords (or_empty (Nrt.interested_in_research nrt)) in
  let studentHobbies := extractWords (or_empty (Student.extracurricular_activities student)) in
  let nrtHobbies := extractWords (or_empty (Nrt.interests_outside_medicine nrt)) in
  let medicalMatches := filter (has nrtMedical) studentMedical in
  let researchMatches := filter (has nrtResearch) studentResearch in
  let hobbyMatches := filter (has nrtHobbies) studentHobbies in
  let totalMedicalWords := union_size studentMedical nrtMedical in
  let totalResearchWords := union_size studentResearch nrtResearch in
  let totalHobbyWords := union_size studentHobbies nrtHobbies in
  let medicalScore := category_score medicalMatches totalMedicalWords in
  let researchScore := category_score researchMatches totalResearchWords in
  let hobbyScore := category_score hobbyMatches totalHobbyWords in
  let totalScore :=
    PrimFloat.add (PrimFloat.add (PrimFloat.mul medicalScore weight_04)
                                 (PrimFloat.mul researchScore weight_04))
                  (PrimFloat.mul hobbyScore weight_02) in
  {| score := Js.Math_round totalScore;
     medicalScore := Js.Math_round medicalScore;
     researchScore := Js.Math_round researchScore;
     hobbyScore := Js.Math_round hobbyScore;
     matchingKeywords := {| medical := medicalMatches;
                            research := researchMatches;
                            hobbies := hobbyMatches |} |}.

(** The two profiles with the texts of each paired category exchanged:
    the student's side gets the tutor's texts and the tutor's side the
    student's. *)
Definition swapped_student (s : Student.t) (n : Nrt.t) : Student.t :=
  Student.mk (Student.row_index s) (Student.status s) (Student.class_year s)
             (Nrt.medical_interests n) (Nrt.interested_in_research n)
             (Nrt.interests_outside_medicine n).

Definition swapped_nrt (s : Student.t) (n : Nrt.t) : Nrt.t :=
  Nrt.mk (Nrt.row_index n) (Nrt.name n) (Nrt.email n) (Nrt.status n)
         (Student.medical_interests s) (Student.research_activities s)
         (Student.extracurricular_activities s).

End Scorer.

(* ================================================================== *)
(** * Capacity-aware matcher *)
(* ================================================================== *)

Module Matcher.

(** An entry of the [scores] array. *)
Record scored : Type := mkScored {
  sc_student : Student.t;
  sc_nrt : Nrt.t;
  sc_similarity : Scorer.similarity;
  remainingCapacity : Z
}.

(** An entry of the returned array. *)
Record suggestion : Type := mkSuggestion {
  student : Student.t;
  nrt : Nrt.t;
  similarity : Scorer.similarity
}.

(** [(currentAssignments[email] || []).length] *)
Definition currentCount (currentAssignments : Js.obj (list Student.t)) (email : string) : Z :=
  match Js.get currentAssignments email with
  | Some l => Z.of_nat (List.length l)
  | None => 0
  end.

Definition isAvailable (currentAssignments : Js.obj (list Student.t)) (n : Nrt.t) : bool :=
  let isActive := String.eqb (Nrt.status n) "active" in
  let isAccepting :=
    negb (String.eqb (Nrt.status n) "leaving, but keeping students")
    && negb (String.eqb (Nrt.status n) "active, but does not want additional students")
    && negb (String.eqb (Nrt.status n) "pending approval") in
  if negb isActive || negb isAccepting then false
  else currentCount currentAssignments (Nrt.email n) <? 3.

(** The state of the greedy walk: [assignments], [assignedStudents] and
    [nrtCounts]. *)
Record walk : Type := mkWalk {
  assignments : list suggestion;
  assignedStudents : list Z;
  nrtCounts : Js.obj Js.num
}.

(** [nrtCounts[email] >= 3] *)
Definition at_least_3 (c : option Js.num) : bool :=
  match c with
  | Some (Js.Num z) => 3 <=? z
  | _ => false
  end.

(** [nrtCounts[email]++] *)
Definition increment (c : option Js.num) : Js.num :=
  match c with
  | Some (Js.Num z) => Js.Num (z + 1)
  | _ => Js.NaN
  end.

(** One call of the callback of [scores.forEach]. *)
Definition walk_step (w : walk) (p : scored) : walk :=
  let row := Student.row_index (sc_student p) in
  let email := Nrt.email (sc_nrt p) in
  if existsb (Z.eqb row) (assignedStudents w) then w
  else if at_least_3 (Js.get (nrtCounts w) email) then w
  else
    {| assignments :=
         assignments w ++ [ {| student := sc_student p; nrt := sc_nrt p;
                               similarity := sc_similarity p |} ];
       assignedStudents := row :: assignedStudents w;
       nrtCounts := Js.set (nrtCounts w) email (increment (Js.get (nrtCounts w) email)) |}.

(** [new Map(students.map((s, idx) => [s.row_index, idx])).get(row)]: a
    later student with the same row index overwrites an earlier one. *)
Fixpoint studentOrder_from (idx : Z) (students : list Student.t) (row : Z) : option Z :=
  match students with
  | [] => None
  | s :: rest =>
      match studentOrder_from (idx + 1) rest row with
      | Some j => Some j
      | None => if Student.row_index s =? row then Some idx else None
      end
  end.

Definition studentOrder (students : list Student.t) (row : Z) : Js.num :=
  match studentOrder_from 0 students row with
  | Some i => Js.Num i
  | None => Js.NaN
  end.

(** [b.similarity.score - a.similarity.score > 0] *)
Definition lower_score (a b : scored) : bool :=
  PrimFloat.ltb PrimFloat.zero
    (PrimFloat.sub (Scorer.score (sc_similarity b)) (Scorer.score (sc_similarity a))).

(** [aIdx - bIdx > 0] *)
Definition later_student (students : list Student.t) (a b : suggestion) : bool :=
  Js.num_pos (Js.num_sub (studentOrder students (Student.row_index (student a)))
                         (studentOrder students (Student.row_index (student b)))).

Definition all_pairs (students : list Student.t) (availableNrts : list Nrt.t)
    (currentAssignments : Js.obj (list Student.t)) : list scored :=
  flat_map (fun s =>
    map (fun n =>
      {| sc_student := s; sc_nrt := n;
         sc_similarity := Scorer.calculateSimilarity s n;
         remainingCapacity := 3 - currentCount currentAssignments (Nrt.email n) |})
      availableNrts) students.

Definition initial_counts (availableNrts : list Nrt.t)
    (currentAssignments : Js.obj (list Student.t)) : Js.obj Js.num :=
  fold_left (fun counts n =>
               Js.set counts (Nrt.email n)
                      (Js.Num (currentCount currentAssignments (Nrt.email n))))
            availableNrts [].

Definition generateOptimalAssignments (students : list Student.t) (nrts : list Nrt.t)
    (currentAssignments : Js.obj (list Student.t)) : list suggestion :=
  let availableNrts := filter (isAvailable currentAssignments) nrts in
  if (List.length availableNrts =? 0)%nat || (List.length students =? 0)%nat then []
  else
    let scores := Js.sort lower_score (all_pairs students availableNrts currentAssignments) in
    let start := {| assignments := []; assignedStudents := [];
                    nrtCounts := initial_counts availableNrts currentAssignments |} in
    let final := fold_left walk_step scores start in
    Js.sort (later_student students) (assignments final).

(** The number of entries of a suggestion list for one tutor. *)
Definition entries_for (email : string) (l : list suggestion) : Z :=
  Z.of_nat (List.length (filter (fun a => String.eqb (Nrt.email (nrt a)) email) l)).

Definition suggested_rows (l : list suggestion) : list Z :=
  map (fun a => Student.row_index (student a)) l.

End Matcher.

(* ================================================================== *)
(** * Assignment state of the drag-and-drop board *)
(* ================================================================== *)

Module Board.

(** The identifier of a draggable or droppable element: a student's row
    index (a number) or a string (['unassigned'] or the e-mail of an NRT). *)
Inductive id : Type :=
| IdNum (n : Z)
| IdStr (s : string).

(** The [event] of [onDragEnd]: [active.id] and, when the card was
    dropped over something, [over.id]. *)
Record event : Type := mkEvent {
  active : id;
  over : option id
}.

(** The component state that the handlers read and write. *)
Record state : Type := mkState {
  students : list Student.t;
  nrts : list Nrt.t;
  allNrts : list Nrt.t;
  assignments : Js.obj (list Student.t);
  currentAssignments : Js.obj (list Student.t);
  tentativeAssignments : list Matcher.suggestion;
  tentativePanelOpen : bool;
  activeId : option id;
  overId : option id;
  dropPosition : option float;
  unassignedZoneRef : bool
}.

Definition with_students (st : state) (l : list Student.t) : state :=
  mkState l (nrts st) (allNrts st) (assignments st) (currentAssignments st)
          (tentativeAssignments st) (tentativePanelOpen st)
          (activeId st) (overId st) (dropPosition st) (unassignedZoneRef st).

Definition with_assignments (st : state) (o : Js.obj (list Student.t)) : state :=
  mkState (students st) (nrts st) (allNrts st) o (currentAssignments st)
          (tentativeAssignments st) (tentativePanelOpen st)
          (activeId st) (overId st) (dropPosition st) (unassignedZoneRef st).

Definition with_currentAssignments (st : state) (o : Js.obj (list Student.t)) : state :=
  mkState (students st) (nrts st) (allNrts st) (assignments st) o
          (tentativeAssignments st) (tentativePanelOpen st)
          (activeId st) (overId st) (dropPosition st) (unassignedZoneRef st).

Definition with_tentative (st : state) (l : list Matcher.suggestion) (panel : bool) : state :=
  mkState (students st) (nrts st) (allNrts st) (assignments st) (currentAssignments st)
          l panel
          (activeId st) (overId st) (dropPosition st) (unassignedZoneRef st).

(** [setActiveId(null); setOverId(null); setDropPosition(null)] *)
Definition drag_cleared (st : state) : state :=
  mkState (students st) (nrts st) (allNrts st) (assignments st) (currentAssignments st)
          (tentativeAssignments st) (tentativePanelOpen st)
          None None None (unassignedZoneRef st).

(** [s.row_index === i] *)
Definition is_row (i : id) (s : Student.t) : bool :=
  match i with
  | IdNum n => Student.row_index s =? n
  | IdStr _ => false
  end.

(** [i === 'unassigned'] *)
Definition is_unassigned (i : id) : bool :=
  match i with
  | IdStr s => String.eqb s "unassigned"
  | IdNum _ => false
  end.

(** [l.filter((s) => s.row_index !== i)] *)
Definition without (i : id) (l : list Student.t) : list Student.t :=
  filter (fun s => negb (is_row i s)) l.

(** [x || d] on a string field *)
Definition or_default (x : option string) (d : string) : string :=
  match x with
  | Some s => if String.eqb s "" then d else s
  | None => d
  end.

(** [statusPriority[s] || 2] *)
Definition statusPriority (s : string) : Z :=
  if String.eqb s "Applying Next Cycle" then 1
  else if String.eqb s "Not Applying" then 2
  else if String.eqb s "Currently Applying" then 3
  else 2.

(** [s.class_year ? parseInt(s.class_year) : 9999] *)
Definition year_of (s : Student.t) : Js.num :=
  match Student.class_year s with
  | Some y => if String.eqb y "" then Js.Num 9999 else Js.parseInt y
  | None => Js.Num 9999
  end.

(** The comparator of [sortStudentsByStatusAndClassYear]. *)
Definition compare_students (a b : Student.t) : Js.num :=
  let aStatus := or_default (Student.status a) "Not Applying" in
  let bStatus := or_default (Student.status b) "Not Applying" in
  let aPriority := statusPriority aStatus in
  let bPriority := statusPriority bStatus in
  if negb (aPriority =? bPriority) then Js.Num (aPriority - bPriority)
  else if String.eqb aStatus "Not Applying" && String.eqb bStatus "Not Applying"
       then Js.num_sub (year_of a) (year_of b)
       else Js.Num 0.

Definition sortStudentsByStatusAndClassYear (l : list Student.t) : list Student.t :=
  Js.sort (fun a b => Js.num_pos (compare_students a b)) l.

(** [Math.min(Math.floor(q), len)] for a quotient [q] that is not negative. *)
Definition floor_min (q : float) (len : nat) : nat :=
  match Prim2SF q with
  | S754_infinity _ => len
  | _ => Z.to_nat (Z.min (Js.floor_Z q) (Z.of_nat len))
  end.

(** The position at which a card dropped on the unassigned zone is put
    back ([insertIndex]). *)
Definition insertIndex (st : state) (over_id : id) (sortedCurrent : list Student.t) : nat :=
  let len := List.length sortedCurrent in
  if negb (is_unassigned over_id) && existsb (is_row over_id) sortedCurrent
  then match Js.findIndex (is_row over_id) sortedCurrent with
       | Some i => i
       | None => len
       end
  else if is_unassigned over_id && unassignedZoneRef st then
    match dropPosition st with
    | Some y =>
        let adjustedY := PrimFloat.sub (PrimFloat.sub y (Js.of_Z 60)) (Js.of_Z 16) in
        if PrimFloat.ltb PrimFloat.zero adjustedY
        then floor_min (PrimFloat.div adjustedY (Js.of_Z 80)) len
        else O
    | None => len
    end
  else len.

(** The first entry of an assignment object, in the order of
    [Object.entries], with a student whose row index is [i]: its key, its
    array and the student found. *)
Fixpoint find_bucket (i : id) (o : Js.obj (list Student.t))
  : option (string * list Student.t * Student.t) :=
  match o with
  | [] => None
  | (email, l) :: o' =>
      match find (is_row i) l with
      | Some s => Some (email, l, s)
      | None => find_bucket i o'
      end
  end.

(** What a handler leaves behind: the next state with the text of the
    [alert] shown, if any; or the state at the point where a [TypeError]
    escaped the handler. *)
Inductive outcome : Type :=
| Done (st : state) (alert : option string)
| TypeError (st : state).

Definition state_of (o : outcome) : state :=
  match o with
  | Done st _ => st
  | TypeError st => st
  end.

Definition alert_of (o : outcome) : option string :=
  match o with
  | Done _ a => a
  | TypeError _ => None
  end.

(** The first half of [handleDragEnd]: the card is dropped on the
    unassigned zone or on one of its student cards. *)
Definition dropOnUnassigned (st : state) (a over_id : id) : outcome :=
  let put_back (found : Student.t) :=
    let sortedCurrent := sortStudentsByStatusAndClassYear (students st) in
    Js.splice_in (insertIndex st over_id sortedCurrent) found sortedCurrent in
  match find_bucket a (assignments st) with
  | Some (email, assignedStudents, foundStudent) =>
      Done (with_students
              (with_assignments (drag_cleared st)
                 (Js.set (assignments st) email (without a assignedStudents)))
              (put_back foundStudent)) None
  | None =>
      match find_bucket a (currentAssignments st) with
      | Some (email, currentStudents, foundStudent) =>
          Done (with_students
                  (with_currentAssignments (drag_cleared st)
                     (Js.set (currentAssignments st) email (without a currentStudents)))
                  (put_back foundStudent)) None
      | None => Done (drag_cleared st) None
      end
  end.

(** The student that is dragged and [sourceType]. *)
Definition find_source (st : state) (a : id) : option (Student.t * string) :=
  match find (is_row a) (students st) with
  | Some s => Some (s, "unassigned")
  | None =>
      match find_bucket a (assignments st) with
      | Some (email, _, s) => Some (s, email)
      | None =>
          match find_bucket a (currentAssignments st) with
          | Some (email, _, s) => Some (s, "current_" ++ email)
          | None => None
          end
      end
  end.

(** [o[email]?.length || 0] *)
Definition bucket_size (o : Js.obj (list Student.t)) (email : string) : Z :=
  match Js.get o email with
  | Some l => Z.of_nat (List.length l)
  | None => 0
  end.

(** [o[email]?.find(s => s.row_index === a)] is found *)
Definition in_bucket (o : Js.obj (list Student.t)) (email : string) (a : id) : bool :=
  match Js.get o email with
  | Some l => existsb (is_row a) l
  | None => false
  end.

Definition totalAfter (st : state) (sourceType nrtEmail : string) (a : id) : Z :=
  bucket_size (currentAssignments st) nrtEmail
  + bucket_size (assignments st) nrtEmail
  + (if String.eqb sourceType "unassigned" || negb (in_bucket (assignments st) nrtEmail a)
     then 1 else 0).

Definition not_accepting (n : Nrt.t) : bool :=
  negb (String.eqb (Nrt.status n) "active")
  || String.eqb (Nrt.status n) "leaving, but keeping students"
  || String.eqb (Nrt.status n) "active, but does not want additional students"
  || String.eqb (Nrt.status n) "pending approval".

Definition alert_not_accepting : string := "This NRT is not accepting new students".
Definition alert_capacity : string := "This NRT already has 3 students (maximum capacity)".

(** [Object.keys(o).forEach(email => { if (email !== nrtEmail) o[email] =
    o[email].filter(s => s.row_index !== a) })] *)
Definition without_elsewhere (a : id) (nrtEmail : string) (o : Js.obj (list Student.t))
  : Js.obj (list Student.t) :=
  map (fun kv => if String.eqb (fst kv) nrtEmail then kv
                 else (fst kv, without a (snd kv))) o.

(** The end of [handleDragEnd]: "Add to new assignment". *)
Definition add_new (a : id) (nrtEmail : string) (student : Student.t)
    (o : Js.obj (list Student.t)) : Js.obj (list Student.t) :=
  let o1 := match Js.get o nrtEmail with
            | Some _ => o
            | None => Js.set o nrtEmail []
            end in
  match Js.get o1 nrtEmail with
  | Some l => if existsb (is_row a) l then o1 else Js.set o1 nrtEmail (l ++ [student])%list
  | None => o1
  end.

(** "Remove from source": the unassigned students and the two assignment
    objects after it, or nothing when [.filter] is called on [undefined]. *)
Definition remove_from_source (st : state) (a : id) (sourceType : string)
  : option (list Student.t * Js.obj (list Student.t) * Js.obj (list Student.t)) :=
  if String.eqb sourceType "unassigned"
  then Some (without a (students st), assignments st, currentAssignments st)
  else if Js.startsWith "current_" sourceType
  then
    let sourceEmail := Js.remove_first "current_" sourceType in
    match Js.get (currentAssignments st) sourceEmail with
    | Some l => Some (students st, assignments st,
                      Js.set (currentAssignments st) sourceEmail (without a l))
    | None => None
    end
  else
    match Js.get (assignments st) sourceType with
    | Some l => Some (students st,
                      Js.set (assignments st) sourceType (without a l),
                      currentAssignments st)
    | None => None
    end.

(** The second half of [handleDragEnd]: the card is dropped on an NRT. *)
Definition dropOnTutor (st : state) (a over_id : id) : outcome :=
  match find_source st a with
  | None => Done (drag_cleared st) None
  | Some (student, sourceType) =>
      match over_id with
      | IdNum _ => Done (drag_cleared st) None
      | IdStr nrtEmail =>
          match find (fun n => String.eqb (Nrt.email n) nrtEmail) (nrts st) with
          | None => Done (drag_cleared st) None
          | Some nrt =>
              if not_accepting nrt then Done (drag_cleared st) (Some alert_not_accepting)
              else if 3 <? totalAfter st sourceType nrtEmail a
              then Done (drag_cleared st) (Some alert_capacity)
              else
                match remove_from_source st a sourceType with
                | None => TypeError (drag_cleared st)
                | Some (students1, assignments1, current1) =>
                    (* Remove from any other assignments, add to new assignment *)
                    let assignments2 := without_elsewhere a nrtEmail assignments1 in
                    let current2 := without_elsewhere a nrtEmail current1 in
                    let assignments3 := add_new a nrtEmail student assignments2 in
                    Done (with_students
                            (with_currentAssignments
                               (with_assignments (drag_cleared st) assignments3) current2)
                            students1) None
                end
          end
      end
  end.

Definition handleDragEnd (st : state) (ev : event) : outcome :=
  match over ev with
  | Some over_id =>
      if is_unassigned over_id || existsb (is_row over_id) (students st)
      then dropOnUnassigned st (active ev) over_id
      else dropOnTutor st (active ev) over_id
  | None => Done (drag_cleared st) None
  end.

Definition handleSuggestAssignments (st : state) : state :=
  with_tentative st
    (Matcher.generateOptimalAssignments (students st) (allNrts st) (currentAssignments st))
    true.

(** [a.student.row_index !== b.student.row_index || a.nrt.email !== b.nrt.email] *)
Definition other_pair (b a : Matcher.suggestion) : bool :=
  negb (Student.row_index (Matcher.student a) =? Student.row_index (Matcher.student b))
  || negb (String.eqb (Nrt.email (Matcher.nrt a)) (Nrt.email (Matcher.nrt b))).

Definition handleAcceptAssignment (st : state) (assignment : Matcher.suggestion) : state :=
  let email := Nrt.email (Matcher.nrt assignment) in
  let row := Student.row_index (Matcher.student assignment) in
  let bucket := match Js.get (assignments st) email with
                | Some l => l
                | None => []
                end in
  with_tentative
    (with_students
       (with_assignments st (Js.set (assignments st) email (bucket ++ [Matcher.student assignment])%list))
       (filter (fun s => negb (Student.row_index s =? row)) (students st)))
    (filter (other_pair assignment) (tentativeAssignments st))
    (tentativePanelOpen st).

Definition handleRejectAssignment (st : state) (assignment : Matcher.suggestion) : state :=
  with_tentative st
    (filter (other_pair assignment) (tentativeAssignments st))
    (tentativePanelOpen st).

(** ** Where a student is *)

(** How often row index [r] occurs in an array of students, and in all
    the arrays of an assignment object. *)
Definition occ (r : Z) (l : list Student.t) : nat :=
  List.length (filter (fun s => Student.row_index s =? r) l).

Fixpoint occ_obj (r : Z) (o : Js.obj (list Student.t)) : nat :=
  match o with
  | [] => O
  | (_, l) :: o' => (occ r l + occ_obj r o')%nat
  end.

(** The number of places (unassigned pool, new-assignment buckets,
    current-assignment buckets) in which row index [r] is. *)
Definition occurrences (st : state) (r : Z) : nat :=
  (occ r (students st) + occ_obj r (assignments st) + occ_obj r (currentAssignments st))%nat.

(** The two assignment objects are objects (no key twice) and every
    student of the roster is in exactly one place, once. *)
Definition well_located (roster : list Z) (st : state) : Prop :=
  NoDup (Js.keys (assignments st)) /\
  NoDup (Js.keys (currentAssignments st)) /\
  forall r, In r roster -> occurrences st r = 1%nat.

(** The buckets of two states are the same. *)
Definition same_buckets (st st' : state) : Prop :=
  students st' = students st /\
  assignments st' = assignments st /\
  currentAssignments st' = currentAssignments st.

End Board.

(* ================================================================== *)
(** * Commit sequence of the guided workflow *)
(* ================================================================== *)

Module Commit.

(** An entry of [updatedNRTs]. *)
Record status_update : Type := mkUpdate {
  row_index : Z;
  status : string
}.

(** [workflowData]; a list that is missing is the empty list, and the two
    assignment objects are given by their [Object.entries]. *)
Record workflowData : Type := mkData {
  deletedStudents : list Student.t;
  newStudents : list Student.t;
  deletedNRTs : list Nrt.t;
  updatedNRTs : list status_update;
  newNRTs : list Nrt.t;
  rtAssignments : Js.obj string;
  nrtAssignments : Js.obj string
}.

(** The requests of [services/api] that the commit issues. *)
Inductive call : Type :=
| StudentsDelete (row : Z)
| StudentsBulkAdd (l : list Student.t)
| NrtsDelete (row : Z)
| NrtsGetAll
| NrtsUpdate (row : Z) (data : Nrt.t)
| NrtsBulkAdd (l : list Nrt.t)
| AssignRT (row : Js.num) (email : string)
| AssignNRT (row : Js.num) (email : string)
| SyncToSheets (force : bool).

(** A rejected request: [err.response?.status] and
    [err.response?.data?.error]. *)
Record error : Type := mkError {
  http_status : option Z;
  message : option string
}.

(** The answer to a request; [data] is read for [NrtsGetAll] only. *)
Inductive response : Type :=
| Resolved (data : list Nrt.t)
| Rejected (e : error).

Inductive result (A : Type) : Type :=
| Ok (a : A)
| Throw (e : error).
Arguments Ok {A} a.
Arguments Throw {A} e.

Section Collaborator.
(** The persistence collaborator: any state, any way of answering. *)
Variable backend : Type.
Variable serve : backend -> call -> backend * response.

(** The backend and the requests issued so far, oldest first. *)
Definition world : Type := (backend * list call)%type.

(** A computation that issues requests and may throw. *)
Definition M (A : Type) : Type := world -> result A * world.

Definition ret {A : Type} (a : A) : M A := fun w => (Ok a, w).

Definition bind {A B : Type} (m : M A) (k : A -> M B) : M B :=
  fun w =>
    match m w with
    | (Ok a, w') => k a w'
    | (Throw e, w') => (Throw e, w')
    end.

Definition throw {A : Type} (e : error) : M A := fun w => (Throw e, w).

(** [try { m } catch (err) { handler(err) }] *)
Definition try_catch {A : Type} (m : M A) (handler : error -> M A) : M A :=
  fun w =>
    match m w with
    | (Ok a, w') => (Ok a, w')
    | (Throw e, w') => handler e w'
    end.

(** [await api.request(...)] *)
Definition await (c : call) : M (list Nrt.t) :=
  fun w =>
    let '(b, trace) := w in
    let '(b', r) := serve b c in
    match r with
    | Resolved data => (Ok data, (b', trace ++ [c])%list)
    | Rejected e => (Throw e, (b', trace ++ [c])%list)
    end.

Notation "m ;; k" := (bind m (fun _ => k)) (at level 61, right associativity).

(** [for (const x of l) { body(x) }] *)
Fixpoint for_of {X : Type} (l : list X) (body : X -> M unit) : M unit :=
  match l with
  | [] => ret tt
  | x :: l' => body x ;; for_of l' body
  end.

Definition done (m : M (list Nrt.t)) : M unit := m ;; ret tt.

Definition when (b : bool) (m : M unit) : M unit :=
  if b then m else ret tt.

(** Steps 1 to 5, the same in [processWorkflow] and [handleApplyChanges]. *)
Definition apply_changes (d : workflowData) : M unit :=
  (* 1. Delete students *)
  for_of (deletedStudents d) (fun student =>
    done (await (StudentsDelete (Student.row_index student)))) ;;
  (* 2. Add new students *)
  when (0 <? List.length (newStudents d))%nat
    (done (await (StudentsBulkAdd (newStudents d)))) ;;
  (* 3. Delete NRTs *)
  for_of (deletedNRTs d) (fun nrt =>
    done (await (NrtsDelete (Nrt.row_index nrt)))) ;;
  (* 4. Update NRT statuses *)
  for_of (updatedNRTs d) (fun update =>
    bind (await NrtsGetAll) (fun nrts =>
      match find (fun n => Nrt.row_index n =? row_index update) nrts with
      | Some nrt =>
          if String.eqb (status update) "DELETE"
          then done (await (NrtsDelete (row_index update)))
          else done (await (NrtsUpdate (row_index update)
                       (Nrt.mk (Nrt.row_index nrt) (Nrt.name nrt) (Nrt.email nrt)
                               (status update) (Nrt.medical_interests nrt)
                               (Nrt.interested_in_research nrt)
                               (Nrt.interests_outside_medicine nrt))))
      | None => ret tt
      end)) ;;
  (* 5. Add new NRTs *)
  when (0 <? List.length (newNRTs d))%nat
    (done (await (NrtsBulkAdd (newNRTs d)))).

(** [deletedStudentRowIndices.has(rowIndex)] *)
Definition was_deleted (d : workflowData) (rowIndex : Js.num) : bool :=
  existsb (fun s => Js.num_eqb (Js.Num (Student.row_index s)) rowIndex) (deletedStudents d).

(** [err.response?.status === 404 &&
    err.response?.data?.error?.includes('not found')] *)
Definition is_not_found (e : error) : bool :=
  match http_status e, message e with
  | Some s, Some m => (s =? 404) && Js.includes "not found" m
  | _, _ => false
  end.

(** Steps 6 and 7: one loop over the entries of an assignment object. *)
Definition assign_all (d : workflowData) (assign : Js.num -> string -> call)
    (entries : Js.obj string) : M unit :=
  for_of entries (fun entry =>
    let rowIndex := Js.parseInt (fst entry) in
    if was_deleted d rowIndex then ret tt
    else try_catch (done (await (assign rowIndex (snd entry))))
                   (fun err => if is_not_found err then ret tt else throw err)).

Definition hasChanges (d : workflowData) : bool :=
  ((0 <? List.length (deletedStudents d)) || (0 <? List.length (newStudents d))
   || (0 <? List.length (deletedNRTs d)) || (0 <? List.length (updatedNRTs d))
   || (0 <? List.length (newNRTs d)) || (0 <? List.length (rtAssignments d))
   || (0 <? List.length (nrtAssignments d)))%nat.

(** The export to the spreadsheet, whose failure is only logged. *)
Definition export_to_sheets : M unit :=
  try_catch (done (await (SyncToSheets false))) (fun _ => ret tt).

(** The body of the [try] block of [processWorkflow]. *)
Definition workflow_body (d : workflowData) : M unit :=
  apply_changes d ;;
  assign_all d AssignRT (rtAssignments d) ;;
  assign_all d AssignNRT (nrtAssignments d) ;;
  when (hasChanges d) export_to_sheets.

(** What the user sees and what the collaborator received. *)
Record report : Type := mkReport {
  finished : bool;
  shown_error : option string;
  requests : list call;
  backend_after : backend
}.

(** [err.response?.data?.error || fallback] *)
Definition error_text (e : error) (fallback : string) : string :=
  match message e with
  | Some m => if String.eqb m "" then fallback else m
  | None => fallback
  end.

Definition run (m : M unit) (fallback : string) (b : backend) : report :=
  match m (b, []) with
  | (Ok _, (b', trace)) =>
      {| finished := true; shown_error := None; requests := trace; backend_after := b' |}
  | (Throw e, (b', trace)) =>
      {| finished := false; shown_error := Some (error_text e fallback);
         requests := trace; backend_after := b' |}
  end.

(** [processWorkflow] of the final confirmation step; [finished] says
    that [onFinish] was called. *)
Definition processWorkflow (d : workflowData) (b : backend) : report :=
  run (workflow_body d) "Error processing workflow" b.

(** [hasChanges] of the review step, which has no assignments. *)
Definition hasStagedChanges (d : workflowData) : bool :=
  ((0 <? List.length (deletedStudents d)) || (0 <? List.length (newStudents d))
   || (0 <? List.length (deletedNRTs d)) || (0 <? List.length (updatedNRTs d))
   || (0 <? List.length (newNRTs d)))%nat.

(** [handleApplyChanges] of the review step; [onFinish] says whether
    that callback was given; [finished] says that [onFinish] or [onNext]
    was called. *)
Definition handleApplyChanges (onFinish : bool) (d : workflowData) (b : backend) : report :=
  if negb (hasStagedChanges d)
  then {| finished := true; shown_error := None; requests := []; backend_after := b |}
  else run (apply_changes d ;; when onFinish export_to_sheets) "Error applying changes" b.

(** The assignment requests among the requests issued, by row index. *)
Definition assigned_row (c : call) : option Js.num :=
  match c with
  | AssignRT row _ => Some row
  | AssignNRT row _ => Some row
  | _ => None
  end.

(** The requests to delete a student among the requests issued. *)
Definition is_delete_of (row : Z) (c : call) : bool :=
  match c with
  | StudentsDelete r => r =? row
  | _ => false
  end.
(** The backend after the per-student delete requests for [l], when every
    one of them is resolved. *)
Fixpoint delete_all (b : backend) (l : list Student.t) : option backend :=
  match l with
  | [] => Some b
  | s :: l' =>
      match serve b (StudentsDelete (Student.row_index s)) with
      | (b', Resolved _) => delete_all b' l'
      | (_, Rejected _) => None
      end
  end.

Definition delete_requests (l : list Student.t) : list call :=
  map (fun s => StudentsDelete (Student.row_index s)) l.

(** The assignment requests for the student of row index [row] among the
    requests issued. *)
Definition assignment_requests_for (row : Z) (trace : list call) : list call :=
  filter (fun c => match assigned_row c with
                   | Some r => Js.num_eqb r (Js.Num row)
                   | None => false
                   end) trace.
End Collaborator.

End Commit.


(* ================================================================== *)
(** * What a suggestion list owes to its inputs *)
(* ================================================================== *)

Module MatcherSpec.
Import Matcher.

(** The entry that the greedy walk makes of a scored pair. *)
Definition suggestion_of (p : scored) : suggestion :=
  {| student := sc_student p; nrt := sc_nrt p; similarity := sc_similarity p |}.

(** A suggestion pairs a student of the input with an NRT of the input
    that is active and has fewer than 3 current students, and carries the
    similarity of the two. *)
Definition from_inputs (students : list Student.t) (nrts : list Nrt.t)
    (currentAssignments : Js.obj (list Student.t)) (a : suggestion) : Prop :=
  In (student a) students /\
  In (nrt a) nrts /\
  Nrt.status (nrt a) = "active" /\
  currentCount currentAssignments (Nrt.email (nrt a)) < 3 /\
  similarity a = Scorer.calculateSimilarity (student a) (nrt a).

(** The index in the input of the student of a suggestion (of the last
    student with that row index), or -1. *)
Definition position (students : list Student.t) (a : suggestion) : Z :=
  match studentOrder_from 0 students (Student.row_index (student a)) with
  | Some i => i
  | None => -1
  end.

End MatcherSpec.

(* ================================================================== *)
(** * More built-ins: numbers as property keys, trimming *)
(* ================================================================== *)

Module JsKeys.

(** The character of a decimal digit. *)
Definition digit_char (d : Z) : ascii := ascii_of_nat (48 + Z.to_nat d).
Arguments digit_char : simpl never.

(** The decimal digits of a positive number; [fuel] bounds their count. *)
Fixpoint digits_of (fuel : nat) (n : Z) : string :=
  match fuel with
  | O => EmptyString
  | S fuel' =>
      let last := String (digit_char (n mod 10)) EmptyString in
      if n <? 10 then last else digits_of fuel' (n / 10) ++ last
  end.

(** [String(n)] for an integer [n] below 10^21 in absolute value (beyond
    that JS switches to the exponent notation). *)
Definition toString (n : Z) : string :=
  match n with
  | Z0 => "0"
  | Zpos _ => digits_of (S (Z.to_nat (Z.log2 n))) n
  | Zneg _ => "-" ++ digits_of (S (Z.to_nat (Z.log2 (- n)))) (- n)
  end.

(** The array index that a property key is, if it is one: the canonical
    decimal form of an integer from 0 to 2^32 - 2. *)
Definition array_index (k : string) : option Z :=
  match Js.digits 10 None k with
  | Some v => if String.eqb (toString v) k && (v <=? 4294967294) then Some v else None
  | None => None
  end.

Section Put.
Context {V : Type}.

(** A new array-index key goes before the first key that is a larger
    array index or no array index. *)
Fixpoint insert_index (i : Z) (k : string) (v : V) (o : Js.obj V) : Js.obj V :=
  match o with
  | [] => [(k, v)]
  | (k', v') :: o' =>
      match array_index k' with
      | Some j => if i <? j then (k, v) :: o else (k', v') :: insert_index i k v o'
      | None => (k, v) :: o
      end
  end.

(** [o[k] = v] for any key: an existing key keeps its place; a new key
    that is an array index is put in ascending order among the array
    indices, which come first; any other new key is put last.  This is the
    order in which [Object.keys] and [Object.entries] enumerate. *)
Definition put (o : Js.obj V) (k : string) (v : V) : Js.obj V :=
  match Js.get o k with
  | Some _ => Js.set o k v
  | None =>
      match array_index k with
      | Some i => insert_index i k v o
      | None => (o ++ [(k, v)])%list
      end
  end.
End Put.

(** [s.trim()] *)
Fixpoint trim_end (s : string) : string :=
  match s with
  | EmptyString => EmptyString
  | String c r =>
      match trim_end r with
      | EmptyString => if Js.is_space_char c then EmptyString else String c EmptyString
      | r' => String c r'
      end
  end.

Definition trim (s : string) : string := trim_end (Js.trim_start s).

(** [s.trim().toLowerCase()] *)
Definition normalized (s : string) : string := Js.toLowerCase (trim s).

End JsKeys.

(* ================================================================== *)
(** * When the order of a sorted array is defined *)
(* ================================================================== *)

Module JsSort.

(** The value that a comparator returned is negative ([Lt]), zero ([Eq])
    or positive ([Gt]); [NaN] is none of them. *)
Definition is_sign (s : comparison) (v : Js.num) : bool :=
  match v, s with
  | Js.Num z, Lt => z <? 0
  | Js.Num z, Eq => z =? 0
  | Js.Num z, Gt => 0 <? z
  | Js.NaN, _ => false
  end.

(** [comparator] is a consistent comparator for the values of [l], as
    the language asks of the argument of [Array.prototype.sort] (otherwise
    the order of the result is left to the engine): for all [a], [b] and
    [c] of [l], [comparator(a, b)] is a number and not [NaN]; "equal"
    (zero) is reflexive, symmetric and transitive; "before" (negative) is
    transitive and "after" (positive) is transitive. *)
Definition consistent {A : Type} (comparator : A -> A -> Js.num) (l : list A) : bool :=
  forallb (fun a =>
    is_sign Eq (comparator a a)
    && forallb (fun b =>
         (is_sign Lt (comparator a b) || is_sign Eq (comparator a b)
          || is_sign Gt (comparator a b))
         && implb (is_sign Eq (comparator a b)) (is_sign Eq (comparator b a))
         && forallb (fun c =>
              forallb (fun s =>
                 implb (is_sign s (comparator a b) && is_sign s (comparator b c))
                       (is_sign s (comparator a c)))
                [Lt; Eq; Gt]) l) l) l.

End JsSort.

(* ================================================================== *)
(** * The rest of the NRT assignment step: loading, filter, hand-over *)
(* ================================================================== *)

Module Session.
Import Board.

(** As in the board, the keys of the assignment objects are the e-mail
    addresses of the tutors, and reading a key that was never written
    gives [undefined]: no e-mail address is the name of a property that
    every object inherits. *)

(** A student as the persistence layer returns it: the fields of
    [Student.t] and the two assignments (a tutor name, or nothing). *)
Record persisted : Type := mkPersisted {
  record : Student.t;
  rt_assignment : option string;
  nrt_assignment : option string
}.

(** [!s.nrt_assignment] *)
Definition is_blank (x : option string) : bool :=
  match x with
  | Some s => String.eqb s ""
  | None => true
  end.

(** [s.nrt_assignment && s.nrt_assignment.trim().toLowerCase() ===
    nrt.name.trim().toLowerCase()] *)
Definition names (assignment : option string) (tutor_name : string) : bool :=
  match assignment with
  | Some a => negb (String.eqb a "")
              && String.eqb (JsKeys.normalized a) (JsKeys.normalized tutor_name)
  | None => false
  end.

(** The filter of [filterNrts]. *)
Definition is_shown (onlyActive : bool) (n : Nrt.t) : bool :=
  if onlyActive
  then String.eqb (Nrt.status n) "active"
       && negb (String.eqb (Nrt.status n) "leaving, but keeping students")
       && negb (String.eqb (Nrt.status n) "active, but does not want additional students")
       && negb (String.eqb (Nrt.status n) "pending approval")
  else true.

(** [filterNrts(nrtsList, onlyActive)]: the value given to [setNrts]. *)
Definition filterNrts (nrtsList : list Nrt.t) (onlyActive : bool) : list Nrt.t :=
  if onlyActive then filter (is_shown true) nrtsList else nrtsList.

(** The board after [loadData] and the [filterNrts] that follows it, for
    the students and NRTs that the two [getAll] requests returned. *)
Definition loadData (students : list persisted) (nrts : list Nrt.t) (showOnlyActive : bool)
  : state :=
  {| students := map record (filter (fun s => is_blank (nrt_assignment s)) students);
     nrts := filterNrts nrts showOnlyActive;
     allNrts := nrts;
     assignments :=
       fold_left (fun init n => JsKeys.put init (Nrt.email n) []) nrts [];
     currentAssignments :=
       fold_left (fun init n =>
                    JsKeys.put init (Nrt.email n)
                      (map record (filter (fun s => names (nrt_assignment s) (Nrt.name n))
                                          students)))
                 nrts [];
     tentativeAssignments := [];
     tentativePanelOpen := false;
     activeId := None;
     overId := None;
     dropPosition := None;
     unassignedZoneRef := true |}.

(** The student has no tutor, or the tutor recorded for the student is
    named as one of the NRTs. *)
Definition is_placed (nrts : list Nrt.t) (s : persisted) : bool :=
  is_blank (nrt_assignment s)
  || existsb (fun n => names (nrt_assignment s) (Nrt.name n)) nrts.

Definition row_of (s : persisted) : Z := Student.row_index (record s).

(** The board after the switch "Show only active NRTs" is set and the
    effect that follows it has run ([if (allNrts.length > 0)
    filterNrts(allNrts, showOnlyActive, ...)]). *)
Definition handleToggleFilter (st : state) (newValue : bool) : state :=
  mkState (students st)
          (if (0 <? List.length (allNrts st))%nat
           then filterNrts (allNrts st) newValue else nrts st)
          (allNrts st)
          (assignments st) (currentAssignments st)
          (tentativeAssignments st) (tentativePanelOpen st)
          (activeId st) (overId st) (dropPosition st) (unassignedZoneRef st).

(** ** What the user can do, and when

    The suggestions are shown in [TentativeAssignmentsPanel], a modal
    [Dialog] of the UI library.  While it is open the board behind it
    receives no event: no card is dropped, the filter is not switched and
    the button "Suggest Assignments" is not pressed; the buttons of its
    entries are the only callers of [handleAcceptAssignment] and
    [handleRejectAssignment], each with the entry of the list shown in
    which the button is.  The panel is opened by
    [handleSuggestAssignments] only, whose button is disabled while no
    student is unassigned. *)
Inductive action : Type :=
| Drop (ev : event)                 (* [onDragEnd] of the board *)
| ToggleFilter (newValue : bool)    (* the switch "Show only active NRTs" *)
| Suggest                           (* the button "Suggest Assignments" *)
| Accept (index : nat)              (* "Accept" in the entry at this position *)
| Reject (index : nat)              (* "Reject" in the entry at this position *)
| ClosePanel.                       (* [onClose] of the panel *)

(** The state after an action, or nothing when the user cannot do it in
    this state. *)
Definition act (st : state) (a : action) : option state :=
  match a with
  | Drop ev =>
      if tentativePanelOpen st then None else Some (state_of (handleDragEnd st ev))
  | ToggleFilter newValue =>
      if tentativePanelOpen st then None else Some (handleToggleFilter st newValue)
  | Suggest =>
      if tentativePanelOpen st || (List.length (students st) =? 0)%nat then None
      else Some (handleSuggestAssignments st)
  | Accept index =>
      if tentativePanelOpen st
      then option_map (handleAcceptAssignment st) (nth_error (tentativeAssignments st) index)
      else None
  | Reject index =>
      if tentativePanelOpen st
      then option_map (handleRejectAssignment st) (nth_error (tentativeAssignments st) index)
      else None
  | ClosePanel =>
      if tentativePanelOpen st
      then Some (with_tentative st (tentativeAssignments st) false)
      else None
  end.

(** The state after a sequence of actions, each one possible in the state
    that the ones before it left. *)
Fixpoint after (st : state) (actions : list action) : option state :=
  match actions with
  | [] => Some st
  | a :: rest =>
      match act st a with
      | Some st' => after st' rest
      | None => None
      end
  end.

(** [handleNext]: the object [nrtAssignments] given to [onDataUpdate],
    with one property per student of a new-assignment bucket, keyed by
    the row index. *)
Definition handleNext (st : state) : Js.obj string :=
  fold_left (fun nrtAssignments nrtEmail =>
               fold_left (fun nrtAssignments student =>
                            JsKeys.put nrtAssignments
                                       (JsKeys.toString (Student.row_index student))
                                       nrtEmail)
                         (match Js.get (assignments st) nrtEmail with
                          | Some bucket => bucket
                          | None => []
                          end)
                         nrtAssignments)
            (Js.keys (assignments st)) [].

(** [handleDataUpdate({ nrtAssignments })] of the workflow. *)
Definition with_nrtAssignments (d : Commit.workflowData) (o : Js.obj string)
  : Commit.workflowData :=
  Commit.mkData (Commit.deletedStudents d) (Commit.newStudents d) (Commit.deletedNRTs d)
                (Commit.updatedNRTs d) (Commit.newNRTs d) (Commit.rtAssignments d) o.

(** The entries handed over are new assignments of the board. *)
Definition new_assignment (st : state) (entry : string * string) : Prop :=
  exists r, fst entry = JsKeys.toString r
            /\ in_bucket (assignments st) (snd entry) (IdNum r) = true.

(** A request that is not an NRT assignment, or is one for a student of
    the new-assignment bucket of that tutor. *)
Definition commits_new (st : state) (c : Commit.call) : Prop :=
  match c with
  | Commit.AssignNRT row email =>
      exists r, row = Js.Num r /\ in_bucket (assignments st) email (IdNum r) = true
  | _ => True
  end.

(** The NRT assignment requests for the student of row index [r]. *)
Definition nrt_requests_for (r : Z) (trace : list Commit.call) : list Commit.call :=
  filter (fun c => match c with
                   | Commit.AssignNRT (Js.Num r') _ => r' =? r
                   | _ => false
                   end) trace.

(** The row indices that are array indices when they are property keys. *)
Definition index_rows (st : state) : Prop :=
  Forall (fun entry =>
            Forall (fun s => 0 <= Student.row_index s <= 4294967294) (snd entry))
         (assignments st).

(** The keys of an assignment object whose array holds the student, in
    the order of [Object.entries]. *)
Definition holders (o : Js.obj (list Student.t)) (a : id) : list string :=
  map fst (filter (fun entry => existsb (is_row a) (snd entry)) o).

(** Every suggestion of the list accepted, one after the other. *)
Definition accept_all (st : state) (l : list Matcher.suggestion) : state :=
  fold_left handleAcceptAssignment l st.

(** The students of a tutor: current and new assignments together. *)
Definition total (st : state) (email : string) : Z :=
  bucket_size (currentAssignments st) email + bucket_size (assignments st) email.

(** The property names that every object inherits: looked up in an
    object literal they give a function, not [undefined]. *)
Definition inherited : list string :=
  [ "constructor"; "hasOwnProperty"; "isPrototypeOf"; "propertyIsEnumerable";
    "toLocaleString"; "toString"; "valueOf"; "__proto__";
    "__defineGetter__"; "__defineSetter__"; "__lookupGetter__"; "__lookupSetter__" ].

(** The status of the student is not such a name, so that
    [statusPriority[status] || 2] is 1, 2 or 3. *)
Definition plain_status (s : Student.t) : Prop :=
  ~ In (or_default (Student.status s) "Not Applying") inherited.

(** The rank of a student in [sortStudentsByStatusAndClassYear]. *)
Definition priority (s : Student.t) : Z :=
  statusPriority (or_default (Student.status s) "Not Applying").

(** The class year that the sort compares, when it is a number. *)
Definition year (s : Student.t) : Z :=
  match year_of s with
  | Js.Num y => y
  | Js.NaN => 0
  end.

(** The order of the sort: by rank, and among the students who are not
    applying by class year. *)
Definition before_or_equal (a b : Student.t) : Prop :=
  priority a < priority b
  \/ (priority a = priority b /\ (priority a = 2 -> year a <= year b)).

(** The status is missing or one of the three that the sort knows, and
    the class year is missing or starts with a number. *)
Definition sortable (s : Student.t) : Prop :=
  (let status := or_default (Student.status s) "Not Applying" in
   status = "Applying Next Cycle" \/ status = "Not Applying" \/ status = "Currently Applying")
  /\ year_of s <> Js.NaN.

End Session.

(* ================================================================== *)
(** * The commit sequence, step by step *)
(* ================================================================== *)

Module CommitSpec.
Import Commit.

(** The requests that step [k] of [processWorkflow] can issue (the steps
    are numbered as in the comments of the source). *)
Definition in_step (k : nat) (c : call) : bool :=
  match k, c with
  | 1%nat, StudentsDelete _ => true
  | 2%nat, StudentsBulkAdd _ => true
  | 3%nat, NrtsDelete _ => true
  | 4%nat, NrtsGetAll => true
  | 4%nat, NrtsUpdate _ _ => true
  | 4%nat, NrtsDelete _ => true
  | 5%nat, NrtsBulkAdd _ => true
  | 6%nat, AssignRT _ _ => true
  | 7%nat, AssignNRT _ _ => true
  | 8%nat, SyncToSheets false => true
  | _, _ => false
  end.

(** What a request owes to the staged batch. *)
Definition staged (d : workflowData) (c : call) : Prop :=
  match c with
  | StudentsDelete row =>
      exists s, In s (deletedStudents d) /\ row = Student.row_index s
  | StudentsBulkAdd l => l = newStudents d /\ l <> []
  | NrtsDelete row =>
      (exists n, In n (deletedNRTs d) /\ row = Nrt.row_index n)
      \/ (exists u, In u (updatedNRTs d) /\ row = row_index u /\ status u = "DELETE")
  | NrtsGetAll => updatedNRTs d <> []
  | NrtsUpdate row data =>
      exists u, In u (updatedNRTs d) /\ row = row_index u /\ status u <> "DELETE"
                /\ Nrt.row_index data = row /\ Nrt.status data = status u
  | NrtsBulkAdd l => l = newNRTs d /\ l <> []
  | AssignRT row email =>
      exists key, In (key, email) (rtAssignments d) /\ row = Js.parseInt key
  | AssignNRT row email =>
      exists key, In (key, email) (nrtAssignments d) /\ row = Js.parseInt key
  | SyncToSheets force => force = false /\ hasChanges d = true
  end.

(** What the review step may request: the staged changes of steps 1 to
    5, and the export when the finishing callback was given. *)
Definition reviewed (onFinish : bool) (d : workflowData) (c : call) : Prop :=
  match c with
  | AssignRT _ _ | AssignNRT _ _ => False
  | SyncToSheets force => onFinish = true /\ force = false
  | _ => staged d c
  end.

Definition is_assignment (c : call) : bool :=
  match c with
  | AssignRT _ _ | AssignNRT _ _ => true
  | _ => false
  end.

Definition is_export (c : call) : bool :=
  match c with
  | SyncToSheets _ => true
  | _ => false
  end.

Definition no_export : call -> Prop := fun c => is_export c = false.

(** The rejections that end the commit: not of the export, and of an
    assignment only if the answer is not 404 "not found". *)
Definition fatal (c : call) (e : error) : Prop :=
  is_export c = false /\ (is_assignment c = true -> is_not_found e = false).

(** The assignment requests that are due for the entries of an assignment
    object: one per entry whose student is not staged for deletion, in the
    order of the entries. *)
Definition due (d : workflowData) (assign : Js.num -> string -> call)
    (entries : Js.obj string) : list call :=
  map (fun entry => assign (Js.parseInt (fst entry)) (snd entry))
      (filter (fun entry => negb (was_deleted d (Js.parseInt (fst entry)))) entries).

(** The requests of step 4 for one status update: the read of all NRTs
    and then at most one request, the deletion of that row (for the
    status DELETE) or the update of that row, as it was read, with the
    staged status. *)
Definition update_group (u : status_update) (g : list call) : Prop :=
  g = [NrtsGetAll]
  \/ (status u = "DELETE" /\ g = [NrtsGetAll; NrtsDelete (row_index u)])
  \/ (status u <> "DELETE"
      /\ exists data, g = [NrtsGetAll; NrtsUpdate (row_index u) data]
                      /\ Nrt.row_index data = row_index u
                      /\ Nrt.status data = status u).

(** The requests of a commit that goes through its eight steps, in their
    order, given the requests of step 4 for each status update. *)
Definition planned (d : workflowData) (groups : list (list call)) : list call :=
  (map (fun s => StudentsDelete (Student.row_index s)) (deletedStudents d)
   ++ (if (0 <? List.length (newStudents d))%nat then [StudentsBulkAdd (newStudents d)] else [])
   ++ map (fun n => NrtsDelete (Nrt.row_index n)) (deletedNRTs d)
   ++ List.concat groups
   ++ (if (0 <? List.length (newNRTs d))%nat then [NrtsBulkAdd (newNRTs d)] else [])
   ++ due d AssignRT (rtAssignments d)
   ++ due d AssignNRT (nrtAssignments d)
   ++ (if hasChanges d then [SyncToSheets false] else []))%list.

(** The requests of steps 1, 2, 3 and 5, which do not depend on what
    the collaborator answers. *)
Definition staged_requests (d : workflowData) : list call :=
  (map (fun s => StudentsDelete (Student.row_index s)) (deletedStudents d)
   ++ (if (0 <? List.length (newStudents d))%nat then [StudentsBulkAdd (newStudents d)] else [])
   ++ map (fun n => NrtsDelete (Nrt.row_index n)) (deletedNRTs d)
   ++ (if (0 <? List.length (newNRTs d))%nat then [NrtsBulkAdd (newNRTs d)] else []))%list.

(** The student deletions and the two bulk additions. *)
Definition is_change (c : call) : bool :=
  match c with
  | StudentsDelete _ | StudentsBulkAdd _ | NrtsBulkAdd _ => true
  | _ => false
  end.

Definition changes (d : workflowData) : list call :=
  (map (fun s => StudentsDelete (Student.row_index s)) (deletedStudents d)
   ++ (if (0 <? List.length (newStudents d))%nat then [StudentsBulkAdd (newStudents d)] else [])
   ++ (if (0 <? List.length (newNRTs d))%nat then [NrtsBulkAdd (newNRTs d)] else []))%list.

(** A collaborator that rejects no request but the export, and an
    assignment only with the answer 404 "not found". *)
Definition tolerated {backend : Type} (serve : backend -> call -> backend * response)
  : Prop :=
  forall b c b' e, serve b c = (b', Rejected e) ->
    match c with
    | SyncToSheets _ => True
    | AssignRT _ _ | AssignNRT _ _ => is_not_found e = true
    | _ => False
    end.

End CommitSpec.

(* ================================================================== *)
(** * The workflows that call the commit *)
(* ================================================================== *)

Module Workflows.
Import Commit.

(** [handleDataUpdate({ rtAssignments })] and [handleDataUpdate({
    nrtAssignments })]: [{ ...prev, ...stepData }]. *)
Definition with_rtAssignments (d : workflowData) (o : Js.obj string) : workflowData :=
  mkData (deletedStudents d) (newStudents d) (deletedNRTs d)
         (updatedNRTs d) (newNRTs d) o (nrtAssignments d).

Section Collaborator.
Variable backend : Type.
Variable serve : backend -> call -> backend * response.

(** The guided workflow of [Workflow.js] from its review step on.  The
    review step is rendered without [onFinish]: its button runs
    [handleApplyChanges], which ends with [onNext].  The two assignment
    steps then hand over [rtAssignments] and [nrtAssignments], and the
    button of the confirmation step runs [processWorkflow] on the same
    [workflowData].  The result is the report of the review step and, if
    that step went on, the report of the confirmation step. *)
Definition review_then_confirm (d : workflowData) (rt nrt : Js.obj string) (b : backend)
  : report backend * option (report backend) :=
  let review := handleApplyChanges backend serve false d b in
  (review,
   if finished backend review
   then Some (processWorkflow backend serve
                (Session.with_nrtAssignments (with_rtAssignments d rt) nrt)
                (backend_after backend review))
   else None).

(** The workflow of [ReassignNRTWorkflow]: its [workflowData] holds the
    NRT assignments only. *)
Definition reassign_nrts (nrt : Js.obj string) (b : backend) : report backend :=
  processWorkflow backend serve (mkData [] [] [] [] [] [] nrt) b.
End Collaborator.

End Workflows.

(* ================================================================== *)
(** * The board of the RT assignment step *)
(* ================================================================== *)

Module RtBoard.
Import Board.

(** A resident tutor, of whom the step reads the name and the e-mail. *)
Record rt : Type := mkRt {
  name : string;
  email : string
}.

(** The state of the step.  The refs [studentsRef], [assignmentsRef] and
    [currentAssignmentsRef] are set to the state after every render, so
    that a handler reads the state through them; [unassignedZoneRef] says
    whether the zone is mounted. *)
Record state : Type := mkState {
  students : list Student.t;
  rts : list rt;
  assignments : Js.obj (list Student.t);
  currentAssignments : Js.obj (list Student.t);
  activeId : option id;
  overId : option id;
  dropPosition : option float;
  unassignedZoneRef : bool
}.

(** The state after the updates of a handler: [setActiveId(null)],
    [setOverId(null)], [setDropPosition(null)] and the three buckets. *)
Definition dropped (st : state) (students' : list Student.t)
    (assignments' currentAssignments' : Js.obj (list Student.t)) : state :=
  mkState students' (rts st) assignments' currentAssignments'
          None None None (unassignedZoneRef st).

Definition unchanged (st : state) : state :=
  dropped st (students st) (assignments st) (currentAssignments st).

(** [insertIndex], as in the NRT step. *)
Definition insertIndex (st : state) (over_id : id) (sortedCurrent : list Student.t) : nat :=
  let len := List.length sortedCurrent in
  if negb (is_unassigned over_id) && existsb (is_row over_id) sortedCurrent
  then match Js.findIndex (is_row over_id) sortedCurrent with
       | Some i => i
       | None => len
       end
  else if is_unassigned over_id && unassignedZoneRef st then
    match dropPosition st with
    | Some y =>
        let adjustedY := PrimFloat.sub (PrimFloat.sub y (Js.of_Z 60)) (Js.of_Z 16) in
        if PrimFloat.ltb PrimFloat.zero adjustedY
        then floor_min (PrimFloat.div adjustedY (Js.of_Z 80)) len
        else O
    | None => len
    end
  else len.

(** The first half of [handleDragEnd]: the card is dropped on the
    unassigned zone or on one of its student cards. *)
Definition dropOnUnassigned (st : state) (a over_id : id) : state :=
  let put_back (found : Student.t) :=
    let sortedCurrent := sortStudentsByStatusAndClassYear (students st) in
    Js.splice_in (insertIndex st over_id sortedCurrent) found sortedCurrent in
  match find_bucket a (assignments st) with
  | Some (email, assignedStudents, foundStudent) =>
      dropped st (put_back foundStudent)
              (Js.set (assignments st) email (without a assignedStudents))
              (currentAssignments st)
  | None =>
      match find_bucket a (currentAssignments st) with
      | Some (email, currentStudents, foundStudent) =>
          dropped st (put_back foundStudent)
                  (assignments st)
                  (Js.set (currentAssignments st) email (without a currentStudents))
      | None => unchanged st
      end
  end.

(** The end of [handleDragEnd]: the two functional updates that take the
    student out of the buckets of the other RTs and add it to the new
    assignments of the target; they are applied to the buckets as the
    removal from the source left them. *)
Definition settle (st : state) (a : id) (rtEmail : string) (foundStudent : Student.t)
    (students1 : list Student.t) (assignments1 current1 : Js.obj (list Student.t)) : state :=
  dropped st students1
          (add_new a rtEmail foundStudent (without_elsewhere a rtEmail assignments1))
          (without_elsewhere a rtEmail current1).

(** The second half of [handleDragEnd]: the card is dropped on an RT.
    The student is looked for among the unassigned students, then in the
    new assignments, then in the current assignments, and taken out of
    the place where it is found. *)
Definition dropOnTutor (st : state) (a over_id : id) : state :=
  match over_id with
  | IdNum _ => unchanged st
  | IdStr rtEmail =>
      match find (fun r => String.eqb (email r) rtEmail) (rts st) with
      | None => unchanged st
      | Some _ =>
          match find (is_row a) (students st) with
          | Some foundStudent =>
              settle st a rtEmail foundStudent
                   (without a (students st)) (assignments st) (currentAssignments st)
          | None =>
              match find_bucket a (assignments st) with
              | Some (email, assignedStudents, foundStudent) =>
                  settle st a rtEmail foundStudent (students st)
                       (Js.set (assignments st) email (without a assignedStudents))
                       (currentAssignments st)
              | None =>
                  match find_bucket a (currentAssignments st) with
                  | Some (email, currentStudents, foundStudent) =>
                      settle st a rtEmail foundStudent (students st) (assignments st)
                           (Js.set (currentAssignments st) email (without a currentStudents))
                  | None => unchanged st
                  end
              end
          end
      end
  end.

Definition handleDragEnd (st : state) (ev : event) : state :=
  match over ev with
  | Some over_id =>
      if is_unassigned over_id || existsb (is_row over_id) (students st)
      then dropOnUnassigned st (active ev) over_id
      else dropOnTutor st (active ev) over_id
  | None => unchanged st
  end.

(** The number of places in which row index [r] is. *)
Definition occurrences (st : state) (r : Z) : nat :=
  (occ r (students st) + occ_obj r (assignments st) + occ_obj r (currentAssignments st))%nat.

(** The two assignment objects have no key twice and every student of
    the roster is in exactly one place, once. *)
Definition well_located (roster : list Z) (st : state) : Prop :=
  NoDup (Js.keys (assignments st)) /\
  NoDup (Js.keys (currentAssignments st)) /\
  forall r, In r roster -> occurrences st r = 1%nat.

End RtBoard.

(* ================================================================== *)
(** * The step that updates the status of the NRTs *)
(* ================================================================== *)

Module StatusStep.

(** The state of the step: the NRTs as loaded and the object
    [nrtStatuses], keyed by row index. *)
Record state : Type := mkState {
  nrts : list Nrt.t;
  nrtStatuses : Js.obj string
}.

(** The state after [loadNRTs], for the NRTs that the request returned:
    [statuses[nrt.row_index] = nrt.status || 'active']. *)
Definition loadNRTs (data : list Nrt.t) : state :=
  {| nrts := data;
     nrtStatuses :=
       fold_left (fun statuses nrt =>
                    JsKeys.put statuses (JsKeys.toString (Nrt.row_index nrt))
                               (Board.or_default (Some (Nrt.status nrt)) "active"))
                 data [] |}.

(** [setNrtStatuses({ ...nrtStatuses, [rowIndex]: status })] *)
Definition handleStatusChange (st : state) (rowIndex : Z) (status : string) : state :=
  {| nrts := nrts st;
     nrtStatuses := JsKeys.put (nrtStatuses st) (JsKeys.toString rowIndex) status |}.

(** An entry of [updatedNRTs] as the step builds it; the status is
    [undefined] for a row index that [nrtStatuses] does not have. *)
Record staged : Type := mkStaged {
  row_index : Z;
  status : option string
}.

(** The list [updatedNRTs] that [handleNext] gives to [onDataUpdate]. *)
Definition handleNext (st : state) : list staged :=
  map (fun nrt =>
         {| row_index := Nrt.row_index nrt;
            status := Js.get (nrtStatuses st) (JsKeys.toString (Nrt.row_index nrt)) |})
      (filter (fun nrt =>
                 let currentStatus :=
                   Board.or_default
                     (Js.get (nrtStatuses st) (JsKeys.toString (Nrt.row_index nrt)))
                     "active" in
                 negb (String.eqb currentStatus (Nrt.status nrt))
                 && negb (String.eqb currentStatus "DELETE"))
              (nrts st)).

(** The choices of the user, in the order in which they were made. *)
Definition after_choices (st : state) (choices : list (Z * string)) : state :=
  fold_left (fun st choice => handleStatusChange st (fst choice) (snd choice)) choices st.

(** The status chosen last for a row index, if one was chosen. *)
Fixpoint last_choice (choices : list (Z * string)) (row : Z) : option string :=
  match choices with
  | [] => None
  | choice :: rest =>
      match last_choice rest row with
      | Some status => Some status
      | None => if fst choice =? row then Some (snd choice) else None
      end
  end.

(** The status that the step shows for an NRT: the one chosen last, or
    the loaded one, ['active'] when that is missing. *)
Definition shown (choices : list (Z * string)) (nrt : Nrt.t) : string :=
  match last_choice choices (Nrt.row_index nrt) with
  | Some status => status
  | None => Board.or_default (Some (Nrt.status nrt)) "active"
  end.

(** The NRT is staged: the status shown ([|| 'active'] again) is not the
    loaded status and is not ['DELETE']. *)
Definition differs (choices : list (Z * string)) (nrt : Nrt.t) : bool :=
  let currentStatus := Board.or_default (Some (shown choices nrt)) "active" in
  negb (String.eqb currentStatus (Nrt.status nrt))
  && negb (String.eqb currentStatus "DELETE").

End StatusStep.

(* ================================================================== *)
(** * The shape of an extracted word *)
(* ================================================================== *)

Module ScorerSpec.

(** A lower-case letter, a digit or the underscore. *)
Definition is_plain_char (c : ascii) : bool :=
  let n := Js.code c in
  (((48 <=? n) && (n <=? 57)) || ((97 <=? n) && (n <=? 122)) || (n =? 95))%nat.

Fixpoint all_chars (p : ascii -> bool) (s : string) : bool :=
  match s with
  | EmptyString => true
  | String c r => p c && all_chars p r
  end.

(** A word of at least three plain characters that is no stop word. *)
Definition keyword (w : string) : Prop :=
  (3 <= String.length w)%nat
  /\ Scorer.has Scorer.stopWords w = false
  /\ all_chars is_plain_char w = true.

End ScorerSpec.

(* ================================================================== *)
(** * The steps that stage deletions *)
(* ================================================================== *)

Module DeleteSteps.

(** ** The step that marks NRTs for deletion *)

(** [deletedNRTs.find(d => d.row_index === nrt.row_index)] is found. *)
Definition is_marked (deletedNRTs : list Nrt.t) (nrt : Nrt.t) : bool :=
  existsb (fun d => Nrt.row_index d =? Nrt.row_index nrt) deletedNRTs.

(** [handleDelete(nrt)]; [confirmed] is the answer to [window.confirm]. *)
Definition handleDelete (confirmed : bool) (deletedNRTs : list Nrt.t) (nrt : Nrt.t)
  : list Nrt.t :=
  if confirmed
  then if negb (is_marked deletedNRTs nrt) then (deletedNRTs ++ [nrt])%list else deletedNRTs
  else deletedNRTs.

(** [handleRestore(nrt)] *)
Definition handleRestore (deletedNRTs : list Nrt.t) (nrt : Nrt.t) : list Nrt.t :=
  filter (fun d => negb (Nrt.row_index d =? Nrt.row_index nrt)) deletedNRTs.

(** [availableNrts] *)
Definition availableNrts (nrts deletedNRTs : list Nrt.t) : list Nrt.t :=
  filter (fun nrt => negb (is_marked deletedNRTs nrt)) nrts.

(** The clicks of the user. *)
Inductive action : Type :=
| Delete (confirmed : bool) (nrt : Nrt.t)
| Restore (nrt : Nrt.t).

Definition act (deletedNRTs : list Nrt.t) (a : action) : list Nrt.t :=
  match a with
  | Delete confirmed nrt => handleDelete confirmed deletedNRTs nrt
  | Restore nrt => handleRestore deletedNRTs nrt
  end.

Definition after (deletedNRTs : list Nrt.t) (actions : list action) : list Nrt.t :=
  fold_left act actions deletedNRTs.

(** ** The step that selects students for deletion *)

(** The [Set] of selected row indices, in the order of insertion. *)
Definition has (selectedStudents : list Z) (rowIndex : Z) : bool :=
  existsb (Z.eqb rowIndex) selectedStudents.

(** [handleToggle(rowIndex)] *)
Definition handleToggle (selectedStudents : list Z) (rowIndex : Z) : list Z :=
  if has selectedStudents rowIndex
  then filter (fun r => negb (r =? rowIndex)) selectedStudents
  else (selectedStudents ++ [rowIndex])%list.

(** The list [deletedStudents] of [handleNext]; an entry is [undefined]
    when no student has the row index. *)
Definition handleNext (students : list Student.t) (selectedStudents : list Z)
  : list (option Student.t) :=
  map (fun rowIndex => find (fun s => Student.row_index s =? rowIndex) students)
      selectedStudents.

(** The selection after the check boxes of [toggles] were clicked, one
    after the other, on the step as it is mounted. *)
Definition selection (toggles : list Z) : list Z :=
  fold_left handleToggle toggles [].

End DeleteSteps.

(* ================================================================== *)
(** * Concrete profiles and boards *)
(* ================================================================== *)

Module Scenario.

(** A student of whom only the row index and the medical interests are
    given. *)
Definition student_with (row : Z) (medical : string) : Student.t :=
  Student.mk row None None (Some medical) None None.

(** A tutor of whom only the e-mail, the status and the medical interests
    are given. *)
Definition tutor_with (row : Z) (name email status medical : string) : Nrt.t :=
  Nrt.mk row name email status (Some medical) None None.

(** The end-to-end scenario of the specification. *)
Definition policy_student : Student.t := student_with 1 "global health policy".
Definition policy_tutor (row : Z) : Nrt.t :=
  tutor_with row "Dr. A" "a@x.com" "active" "global health and policy work".

(** A student who names one word twice, and a tutor who names it once. *)
Definition repeating_student : Student.t := student_with 1 "cardiology cardiology".
Definition plain_tutor : Nrt.t := tutor_with 1 "Dr. B" "b@x.com" "active" "cardiology".

(** ** Batches and backends *)

Definition student_1 : Student.t := student_with 1 "cardiology".
Definition student_2 : Student.t := student_with 2 "oncology".

(** Two staged student deletions and nothing else. *)
Definition two_deletions : Commit.workflowData :=
  Commit.mkData [student_1; student_2] [] [] [] [] [] [].

Definition server_error : Commit.error :=
  Commit.mkError (Some 500) (Some "Internal server error").

(** A backend without state that rejects the deletion of student 1 and
    resolves every other request. *)
Definition rejects_first_delete (b : unit) (c : Commit.call) : unit * Commit.response :=
  match c with
  | Commit.StudentsDelete 1 => (b, Commit.Rejected server_error)
  | _ => (b, Commit.Resolved [])
  end.

(** A backend without state that resolves every request. *)
Definition resolves_all (b : unit) (c : Commit.call) : unit * Commit.response :=
  (b, Commit.Resolved []).

(** Student 1 is deleted, and has a staged RT and a staged NRT
    assignment; student 2 has a staged RT assignment. *)
Definition delete_and_assign : Commit.workflowData :=
  Commit.mkData [student_1] [] [] [] []
                [("1", "rt@x.com"); ("2", "rt@x.com")]
                [("1", "a@x.com")].

(** ** Boards *)

Definition student_3 : Student.t := student_with 3 "surgery".
Definition student_4 : Student.t := student_with 4 "pediatrics".

Definition tutor_a : Nrt.t := tutor_with 1 "Dr. A" "a@x.com" "active" "cardiology".
Definition tutor_b : Nrt.t := tutor_with 2 "Dr. B" "b@x.com" "active" "oncology".
Definition tutor_leaving : Nrt.t :=
  tutor_with 3 "Dr. L" "l@x.com" "leaving, but keeping students" "surgery".

(** A board at rest: nothing is dragged and no suggestion is shown. *)
Definition board (students : list Student.t) (nrts : list Nrt.t)
    (assignments currentAssignments : Js.obj (list Student.t)) : Board.state :=
  Board.mkState students nrts nrts assignments currentAssignments [] false
                None None None true.

(** Tutor A has no current students and was given students 1, 2 and 3 in
    this session; student 4 is unassigned. *)
Definition full_board : Board.state :=
  board [student_4] [tutor_a]
        [("a@x.com", [student_1; student_2; student_3])]
        [("a@x.com", [])].

(** Tutor A has the current students 1, 2 and 3. *)
Definition current_board : Board.state :=
  board [] [tutor_a]
        [("a@x.com", [])]
        [("a@x.com", [student_1; student_2; student_3])].

(** The same for a tutor who is leaving but keeps the students. *)
Definition leaving_board : Board.state :=
  board [] [tutor_leaving]
        [("l@x.com", [])]
        [("l@x.com", [student_1; student_2; student_3])].

(** Student 1 is unassigned. *)
Definition fresh_board : Board.state :=
  board [student_1] [tutor_a; tutor_b]
        [("a@x.com", []); ("b@x.com", [])]
        [("a@x.com", []); ("b@x.com", [])].

(** The card of a student is dropped on the card of tutor A. *)
Definition drop_on_a (row : Z) : Board.event :=
  Board.mkEvent (Board.IdNum row) (Some (Board.IdStr "a@x.com")).

Definition drop_on_leaving (row : Z) : Board.event :=
  Board.mkEvent (Board.IdNum row) (Some (Board.IdStr "l@x.com")).

End Scenario.
(* ================================================================== *)
(** * More concrete inputs: a session from loading to commit *)
(* ================================================================== *)

Module Samples.
Import Scenario.

(** ** Students as they are loaded *)

(** Student 1 has no tutor yet; student 2 is recorded with tutor A, in
    another spelling of the name; student 3 is recorded with a tutor who
    is not among the NRTs. *)
Definition unassigned_1 : Session.persisted := Session.mkPersisted student_1 None None.
Definition with_tutor_a_2 : Session.persisted :=
  Session.mkPersisted student_2 None (Some "  dr. a ").
Definition with_unknown_3 : Session.persisted :=
  Session.mkPersisted student_3 None (Some "Dr. Z").

Definition loaded_students : list Session.persisted :=
  [unassigned_1; with_tutor_a_2; with_unknown_3].

Definition loaded_tutors : list Nrt.t := [tutor_a; tutor_b; tutor_leaving].



(** ** Students with a status and a class year *)

Definition applicant (row : Z) (status class_year : string) : Student.t :=
  Student.mk row (Some status) (Some class_year) None None None.

Definition class_list : list Student.t :=
  [ applicant 1 "Currently Applying" "2025";
    applicant 2 "Not Applying" "2027";
    Student.mk 3 None None None None None;
    applicant 4 "Applying Next Cycle" "2026";
    applicant 5 "Not Applying" "2026" ].

(** A student whose status the sort does not know and whose class year
    is no number, between two applicants. *)
Definition mixed_list : list Student.t :=
  [ applicant 1 "Currently Applying" "2025";
    applicant 2 "Gap Year" "unknown";
    Student.mk 3 (Some "Gap Year") None None None None;
    applicant 4 "Applying Next Cycle" "2026" ].

(** ** Boards *)

(** Students 3 and 1 were given to tutor A, in that order, and student 2
    to tutor B. *)
Definition shuffled_board : Board.state :=
  board [] [tutor_a; tutor_b]
        [("a@x.com", [student_3; student_1]); ("b@x.com", [student_2])]
        [("a@x.com", []); ("b@x.com", [])].

(** Four unassigned students and tutor A alone. *)
Definition crowded_board : Board.state :=
  board [student_1; student_2; student_3; student_4] [tutor_a]
        [("a@x.com", [])]
        [("a@x.com", [])].

(** ** Batches and backends *)

Definition student_not_found : Commit.error :=
  Commit.mkError (Some 404) (Some "Student not found").

(** A backend without state that answers 404 "not found" to every
    assignment of student 2 and resolves every other request. *)
Definition misses_student_2 (b : unit) (c : Commit.call) : unit * Commit.response :=
  match c with
  | Commit.AssignRT row _ | Commit.AssignNRT row _ =>
      if Js.num_eqb row (Js.Num 2)
      then (b, Commit.Rejected student_not_found)
      else (b, Commit.Resolved [])
  | _ => (b, Commit.Resolved [])
  end.

(** RT assignments are staged for students 2 and 3 and an NRT assignment
    for student 2. *)
Definition three_assignments : Commit.workflowData :=
  Commit.mkData [] [] [] [] []
                [("2", "rt@x.com"); ("3", "rt@x.com")]
                [("2", "a@x.com")].

(** Student 1 is staged for deletion, student 2 and tutor B for
    addition. *)
Definition staged_changes : Commit.workflowData :=
  Commit.mkData [student_1] [student_2] [] [] [tutor_b] [] [].

(** ** The RT board *)

Definition rt_r : RtBoard.rt := RtBoard.mkRt "Dr. R" "r@x.com".
Definition rt_q : RtBoard.rt := RtBoard.mkRt "Dr. Q" "q@x.com".

(** Student 1 is unassigned, student 2 was given to RT Q in this
    session, and student 3 is a current student of RT R. *)
Definition rt_board : RtBoard.state :=
  RtBoard.mkState [student_1] [rt_r; rt_q]
                  [("r@x.com", []); ("q@x.com", [student_2])]
                  [("r@x.com", [student_3]); ("q@x.com", [])]
                  None None None true.

(** RT R was given students 1, 2 and 3 in this session; student 4 is
    unassigned. *)
Definition full_rt_board : RtBoard.state :=
  RtBoard.mkState [student_4] [rt_r]
                  [("r@x.com", [student_1; student_2; student_3])]
                  [("r@x.com", [])]
                  None None None true.

(** ** The status step *)

(** A tutor whose status is missing. *)
Definition tutor_without_status : Nrt.t := tutor_with 2 "Dr. M" "m@x.com" "" "neurology".

Definition status_list : list Nrt.t := [tutor_a; tutor_without_status; tutor_leaving].

(** The status of tutor 1 is changed and changed back; tutor 3 is set
    to 'active'. *)
Definition status_choices : list (Z * string) :=
  [(1, "leaving, but keeping students"); (1, "active"); (3, "active")].

(** ** The deletion steps *)

(** The boxes of students 1, 2, 1 and 3 are clicked. *)
Definition clicks : list Z := [1; 2; 1; 3].

(** Tutor A is marked twice, tutor B is not confirmed, the leaving
    tutor is marked, and tutor A is restored. *)
Definition marks : list DeleteSteps.action :=
  [ DeleteSteps.Delete true tutor_a; DeleteSteps.Delete true tutor_a;
    DeleteSteps.Delete false tutor_b; DeleteSteps.Delete true tutor_leaving;
    DeleteSteps.Restore tutor_a ].

End Samples.
(* ================================================================== *)
(** * Facts about the built-ins *)
(* ================================================================== *)

Module JsFacts.

Section SortFacts.
Context {A : Type}.
Variable after : A -> A -> bool.

Lemma insert_sorted_perm (x : A) (l : list A) :
  Permutation (Js.insert_sorted after x l) (x :: l).
Proof.
  induction l as [| y l IH]; simpl.
  - apply Permutation_refl.
  - destruct (after x y).
    + apply Permutation_trans with (y :: x :: l).
      * apply perm_skip. exact IH.
      * apply perm_swap.
    + apply Permutation_refl.
Qed.

Lemma sort_perm (l : list A) : Permutation (Js.sort after l) l.
Proof.
  induction l as [| x l IH]; simpl.
  - apply perm_nil.
  - apply Permutation_trans with (x :: Js.sort after l).
    + apply insert_sorted_perm.
    + apply perm_skip. exact IH.
Qed.

Lemma perm_filter_length (f : A -> bool) (l l' : list A) :
  Permutation l l' -> List.length (filter f l) = List.length (filter f l').
Proof.
  induction 1 as [| x l l' _ IH | x y l | l l' l'' _ IH1 _ IH2]; simpl.
  - reflexivity.
  - destruct (f x); simpl; congruence.
  - destruct (f x), (f y); reflexivity.
  - congruence.
Qed.

Lemma sort_filter_length (f : A -> bool) (l : list A) :
  List.length (filter f (Js.sort after l)) = List.length (filter f l).
Proof. apply perm_filter_length, sort_perm. Qed.

Lemma splice_in_perm (i : nat) (x : A) (l : list A) :
  Permutation (Js.splice_in i x l) (x :: l).
Proof.
  unfold Js.splice_in.
  apply Permutation_sym.
  apply Permutation_trans with (x :: firstn i l ++ skipn i l).
  - rewrite firstn_skipn. apply Permutation_refl.
  - apply Permutation_middle.
Qed.
End SortFacts.

Section ObjectFacts.
Context {V : Type}.

Lemma get_set (o : Js.obj V) (k k' : string) (v : V) :
  Js.get (Js.set o k v) k' = if String.eqb k k' then Some v else Js.get o k'.
Proof.
  induction o as [| [k0 v0] o IH]; simpl.
  - reflexivity.
  - destruct (String.eqb k0 k) eqn:E0; simpl.
    + apply String.eqb_eq in E0. subst k0.
      destruct (String.eqb k k'); reflexivity.
    + rewrite IH.
      destruct (String.eqb k k') eqn:E1; [| reflexivity].
      apply String.eqb_eq in E1. subst k'. rewrite E0. reflexivity.
Qed.

Lemma get_set_same (o : Js.obj V) (k : string) (v : V) :
  Js.get (Js.set o k v) k = Some v.
Proof. rewrite get_set, String.eqb_refl. reflexivity. Qed.

Lemma get_set_other (o : Js.obj V) (k k' : string) (v : V) :
  k <> k' -> Js.get (Js.set o k v) k' = Js.get o k'.
Proof.
  intros Hne. rewrite get_set.
  destruct (String.eqb k k') eqn:E; [| reflexivity].
  apply String.eqb_eq in E. contradiction.
Qed.

Lemma get_none_keys (o : Js.obj V) (k : string) :
  Js.get o k = None <-> ~ In k (Js.keys o).
Proof.
  induction o as [| [k0 v0] o IH]; simpl.
  - tauto.
  - destruct (String.eqb k0 k) eqn:E.
    + apply String.eqb_eq in E. split; [discriminate | intros H; exfalso; auto].
    + apply String.eqb_neq in E. rewrite IH. tauto.
Qed.

Lemma keys_set_in (o : Js.obj V) (k : string) (v : V) :
  In k (Js.keys o) -> Js.keys (Js.set o k v) = Js.keys o.
Proof.
  induction o as [| [k0 v0] o IH]; simpl.
  - tauto.
  - intros Hin. destruct (String.eqb k0 k) eqn:E; simpl.
    + reflexivity.
    + apply String.eqb_neq in E. f_equal. apply IH. tauto.
Qed.

Lemma keys_set_new (o : Js.obj V) (k : string) (v : V) :
  ~ In k (Js.keys o) -> Js.keys (Js.set o k v) = (Js.keys o ++ [k])%list.
Proof.
  induction o as [| [k0 v0] o IH]; simpl.
  - reflexivity.
  - intros Hnin. destruct (String.eqb k0 k) eqn:E; simpl.
    + apply String.eqb_eq in E. tauto.
    + f_equal. apply IH. tauto.
Qed.

Lemma keys_set_nodup (o : Js.obj V) (k : string) (v : V) :
  NoDup (Js.keys o) -> NoDup (Js.keys (Js.set o k v)).
Proof.
  intros Hnd.
  destruct (in_dec string_dec k (Js.keys o)) as [Hin | Hnin].
  - rewrite keys_set_in by assumption. assumption.
  - rewrite keys_set_new by assumption.
    apply (Permutation_NoDup (l := k :: Js.keys o)).
    + apply Permutation_cons_append.
    + constructor; assumption.
Qed.
End ObjectFacts.

End JsFacts.

(* ================================================================== *)
(** * The matcher respects students and capacity *)
(* ================================================================== *)

Module MatcherFacts.
Import Matcher.

Lemma entries_for_nonneg (e : string) (l : list suggestion) : 0 <= entries_for e l.
Proof. unfold entries_for. lia. Qed.

Lemma entries_for_snoc (e : string) (l : list suggestion) (x : suggestion) :
  entries_for e (l ++ [x]) =
  entries_for e l + (if String.eqb (Nrt.email (nrt x)) e then 1 else 0).
Proof.
  unfold entries_for. rewrite filter_app, length_app. simpl.
  destruct (String.eqb (Nrt.email (nrt x)) e); simpl; lia.
Qed.

Lemma suggested_rows_snoc (l : list suggestion) (x : suggestion) :
  suggested_rows (l ++ [x]) = (suggested_rows l ++ [Student.row_index (student x)])%list.
Proof. unfold suggested_rows. rewrite map_app. reflexivity. Qed.

Lemma existsb_eqb_false (r : Z) (l : list Z) :
  existsb (Z.eqb r) l = false -> ~ In r l.
Proof.
  intros H Hin.
  assert (existsb (Z.eqb r) l = true) as Ht.
  { apply existsb_exists. exists r. split; [assumption | apply Z.eqb_refl]. }
  congruence.
Qed.

Section Walk.
Variable currentAssignments : Js.obj (list Student.t).
(** The e-mails of the available tutors. *)
Variable available : list string.

(** What the greedy walk keeps true. *)
Record invariant (w : walk) : Prop := mkInvariant {
  rows_distinct : NoDup (suggested_rows (assignments w));
  rows_recorded : forall r, In r (suggested_rows (assignments w)) -> In r (assignedStudents w);
  counts_exact : forall e, In e available ->
    exists c, Js.get (nrtCounts w) e = Some (Js.Num c)
              /\ c = currentCount currentAssignments e + entries_for e (assignments w)
              /\ c <= 3;
  others_empty : forall e, ~ In e available -> entries_for e (assignments w) = 0
}.

Lemma walk_step_invariant (w : walk) (p : scored) :
  invariant w -> In (Nrt.email (sc_nrt p)) available -> invariant (walk_step w p).
Proof.
  intros [Hnd Hrec Hcnt Hoth] Hav.
  unfold walk_step.
  destruct (existsb (Z.eqb (Student.row_index (sc_student p))) (assignedStudents w)) eqn:Hseen.
  { constructor; assumption. }
  destruct (Hcnt _ Hav) as (c & Hget & Hc & Hle).
  rewrite Hget. simpl.
  destruct (3 <=? c) eqn:Hfull.
  { constructor; assumption. }
  apply Z.leb_gt in Hfull.
  apply existsb_eqb_false in Hseen.
  constructor; simpl.
  - rewrite suggested_rows_snoc.
    apply (Permutation_NoDup (l := Student.row_index (sc_student p) :: suggested_rows (assignments w))).
    + apply Permutation_cons_append.
    + constructor; [| assumption]. intros Hin. apply Hseen, Hrec, Hin.
  - intros r. rewrite suggested_rows_snoc, in_app_iff. simpl.
    intros [Hin | [Heq | []]]; [right; apply Hrec, Hin | left; exact Heq].
  - intros e He. rewrite JsFacts.get_set, entries_for_snoc. simpl.
    destruct (String.eqb (Nrt.email (sc_nrt p)) e) eqn:Ee.
    + apply String.eqb_eq in Ee. subst e.
      exists (c + 1). split; [reflexivity |]. lia.
    + destruct (Hcnt _ He) as (c' & Hget' & Hc' & Hle').
      exists c'. split; [assumption |]. lia.
  - intros e He. rewrite entries_for_snoc. simpl.
    destruct (String.eqb (Nrt.email (sc_nrt p)) e) eqn:Ee.
    + apply String.eqb_eq in Ee. subst e. contradiction.
    + rewrite (Hoth _ He). reflexivity.
Qed.

Lemma walk_invariant (l : list scored) (w : walk) :
  invariant w ->
  Forall (fun p => In (Nrt.email (sc_nrt p)) available) l ->
  invariant (fold_left walk_step l w).
Proof.
  revert w. induction l as [| p l IH]; intros w Hw Hall; simpl.
  - exact Hw.
  - inversion Hall as [| ? ? Hp Hl]; subst.
    apply IH; [apply walk_step_invariant |]; assumption.
Qed.
End Walk.

Lemma isAvailable_count (cur : Js.obj (list Student.t)) (n : Nrt.t) :
  isAvailable cur n = true -> currentCount cur (Nrt.email n) < 3.
Proof.
  unfold isAvailable.
  destruct (negb _ || negb _); [discriminate |].
  apply Z.ltb_lt.
Qed.

(** After the [forEach] that fills [nrtCounts], every tutor of the list
    has its current count and nobody else has an entry. *)
Lemma initial_counts_get (cur : Js.obj (list Student.t)) (l : list Nrt.t) (e : string) :
  Js.get (initial_counts l cur) e =
  if in_dec string_dec e (map Nrt.email l) then Some (Js.Num (currentCount cur e)) else None.
Proof.
  unfold initial_counts.
  assert (forall acc,
    Js.get (fold_left (fun counts n =>
              Js.set counts (Nrt.email n) (Js.Num (currentCount cur (Nrt.email n)))) l acc) e =
    if in_dec string_dec e (map Nrt.email l) then Some (Js.Num (currentCount cur e))
    else Js.get acc e) as H.
  { induction l as [| n l IH]; intros acc; simpl.
    - reflexivity.
    - rewrite IH.
      destruct (in_dec string_dec e (map Nrt.email l)) as [Hin | Hnin];
        destruct (string_dec (Nrt.email n) e) as [Heq | Hne]; try reflexivity.
      + rewrite JsFacts.get_set. subst e. rewrite String.eqb_refl. reflexivity.
      + rewrite JsFacts.get_set_other by assumption. reflexivity. }
  rewrite H. destruct (in_dec string_dec e (map Nrt.email l)); reflexivity.
Qed.

Lemma all_pairs_emails (students : list Student.t) (l : list Nrt.t)
    (cur : Js.obj (list Student.t)) :
  Forall (fun p => In (Nrt.email (sc_nrt p)) (map Nrt.email l)) (all_pairs students l cur).
Proof.
  apply Forall_forall. intros p Hp.
  unfold all_pairs in Hp. apply in_flat_map in Hp. destruct Hp as (s & _ & Hp).
  apply in_map_iff in Hp. destruct Hp as (n & Hn & Hin). subst p. simpl.
  apply in_map. exact Hin.
Qed.

Lemma start_invariant (cur : Js.obj (list Student.t)) (l : list Nrt.t) :
  Forall (fun n => isAvailable cur n = true) l ->
  invariant cur (map Nrt.email l)
    {| assignments := []; assignedStudents := []; nrtCounts := initial_counts l cur |}.
Proof.
  intros Hav. constructor; simpl.
  - constructor.
  - intros r [].
  - intros e He. exists (currentCount cur e). rewrite initial_counts_get.
    destruct (in_dec string_dec e (map Nrt.email l)); [| contradiction].
    split; [reflexivity |]. unfold entries_for. simpl.
    apply in_map_iff in He. destruct He as (n & Hn & Hin). subst e.
    rewrite Forall_forall in Hav. specialize (Hav _ Hin).
    apply isAvailable_count in Hav. lia.
  - reflexivity.
Qed.

(** The walk over all pairs of students and available tutors, in any
    order of the pairs, ends in a state that satisfies the invariant. *)
Lemma generated_invariant (students : list Student.t) (nrts : list Nrt.t)
    (cur : Js.obj (list Student.t)) :
  let availableNrts := filter (isAvailable cur) nrts in
  invariant cur (map Nrt.email availableNrts)
    (fold_left walk_step (Js.sort lower_score (all_pairs students availableNrts cur))
       {| assignments := []; assignedStudents := [];
          nrtCounts := initial_counts availableNrts cur |}).
Proof.
  intros availableNrts.
  apply walk_invariant.
  - apply start_invariant. apply Forall_forall. intros n Hn.
    apply filter_In in Hn. tauto.
  - apply Forall_forall. intros p Hp.
    pose proof (all_pairs_emails students availableNrts cur) as Hall.
    rewrite Forall_forall in Hall. apply Hall.
    apply (Permutation_in _ (JsFacts.sort_perm lower_score _)). exact Hp.
Qed.

(** C2. For every list of students, every list of NRTs and every object
    of current assignments, the list returned by
    [generateOptimalAssignments] has no two entries with the same student
    (row index), and for every tutor e-mail the number of entries for it is
    at most 3 minus the tutor's current assignment count (at most none when
    that count is already 3 or more); a tutor that gets an entry ends with
    at most 3 students in all. *)
Theorem suggestions_distinct_and_within_capacity
    (students : list Student.t) (nrts : list Nrt.t) (cur : Js.obj (list Student.t)) :
  let suggested := generateOptimalAssignments students nrts cur in
  NoDup (suggested_rows suggested) /\
  forall email,
    entries_for email suggested <= Z.max 0 (3 - currentCount cur email) /\
    (0 < entries_for email suggested ->
     currentCount cur email + entries_for email suggested <= 3).
Proof.
  intros suggested. subst suggested. unfold generateOptimalAssignments.
  destruct ((List.length (filter (isAvailable cur) nrts) =? 0)%nat
            || (List.length students =? 0)%nat).
  { split; [constructor |]. intros email. unfold entries_for. simpl. lia. }
  destruct (generated_invariant students nrts cur) as [Hnd _ Hcnt Hoth].
  set (final := fold_left walk_step _ _) in *.
  split.
  - apply (Permutation_NoDup (l := suggested_rows (assignments final))); [| exact Hnd].
    unfold suggested_rows. apply Permutation_map, Permutation_sym, JsFacts.sort_perm.
  - intros email.
    assert (entries_for email (Js.sort (later_student students) (assignments final))
            = entries_for email (assignments final)) as Hsame.
    { unfold entries_for. rewrite JsFacts.sort_filter_length. reflexivity. }
    rewrite Hsame.
    destruct (in_dec string_dec email (map Nrt.email (filter (isAvailable cur) nrts)))
      as [Hin | Hnin].
    + destruct (Hcnt _ Hin) as (c & _ & Hc & Hle).
      pose proof (entries_for_nonneg email (assignments final)). lia.
    + rewrite (Hoth _ Hnin). lia.
Qed.

End MatcherFacts.

(* ================================================================== *)
(** * The scorer on concrete profiles *)
(* ================================================================== *)

Module ScorerFacts.
Import Scorer Scenario.

(** ** Counting terms

    The match list of a category is the student's word list filtered by
    the tutor's; the divisor is the number of distinct words of both. *)

Lemma has_In (l : list string) (w : string) : has l w = true <-> In w l.
Proof.
  unfold has. rewrite existsb_exists. split.
  - intros (x & Hin & Heq). apply String.eqb_eq in Heq. subst x. exact Hin.
  - intros Hin. exists w. split; [exact Hin | apply String.eqb_refl].
Qed.

Lemma union_size_comm (a b : list string) : union_size a b = union_size b a.
Proof.
  unfold union_size. apply Permutation_length.
  apply NoDup_Permutation; try apply NoDup_nodup.
  intros w. rewrite !nodup_In, !in_app_iff. tauto.
Qed.

(** When neither side repeats a word, both match lists are the
    intersection. *)
Lemma matches_symmetric (a b : list string) :
  NoDup a -> NoDup b ->
  List.length (filter (has b) a) = List.length (filter (has a) b).
Proof.
  intros Ha Hb. apply Permutation_length.
  apply NoDup_Permutation; try (apply NoDup_filter; assumption).
  intros w. rewrite !filter_In, !has_In. tauto.
Qed.

(** When the student's side repeats no word, the matches are at most as
    many as the distinct words of both sides. *)
Lemma matches_at_most_union (a b : list string) :
  NoDup a -> (List.length (filter (has b) a) <= union_size a b)%nat.
Proof.
  intros Ha. unfold union_size.
  apply NoDup_incl_length; [apply NoDup_filter, Ha |].
  intros w Hw. apply filter_In in Hw. apply nodup_In, in_app_iff. tauto.
Qed.

(** Without repeated words in the six fields, exchanging the two sides
    gives the same four scores. *)
Lemma symmetric_without_repeated_words (s : Student.t) (n : Nrt.t) :
  NoDup (extractWords (or_empty (Student.medical_interests s))) ->
  NoDup (extractWords (or_empty (Nrt.medical_interests n))) ->
  NoDup (extractWords (or_empty (Student.research_activities s))) ->
  NoDup (extractWords (or_empty (Nrt.interested_in_research n))) ->
  NoDup (extractWords (or_empty (Student.extracurricular_activities s))) ->
  NoDup (extractWords (or_empty (Nrt.interests_outside_medicine n))) ->
  let sim := calculateSimilarity s n in
  let sim' := calculateSimilarity (swapped_student s n) (swapped_nrt s n) in
  score sim' = score sim /\ medicalScore sim' = medicalScore sim /\
  researchScore sim' = researchScore sim /\ hobbyScore sim' = hobbyScore sim.
Proof.
  intros H1 H2 H3 H4 H5 H6. unfold calculateSimilarity, category_score. simpl.
  rewrite (matches_symmetric _ _ H2 H1), (matches_symmetric _ _ H4 H3),
          (matches_symmetric _ _ H6 H5).
  rewrite (union_size_comm (extractWords (or_empty (Nrt.medical_interests n)))),
          (union_size_comm (extractWords (or_empty (Nrt.interested_in_research n)))),
          (union_size_comm (extractWords (or_empty (Nrt.interests_outside_medicine n)))).
  repeat split.
Qed.

(** C3. On a student whose medical interests are "cardiology
    cardiology" and a tutor whose medical interests are "cardiology", the
    terms of the union are one and the matches are counted twice: the
    medical score is 200, above 100, and the overall score is 80. *)
Theorem repeated_word_scores_above_100 :
  let sim := calculateSimilarity repeating_student plain_tutor in
  medical (matchingKeywords sim) = ["cardiology"; "cardiology"] /\
  medicalScore sim = 200%float /\
  PrimFloat.leb (medicalScore sim) 100%float = false /\
  score sim = 80%float.
Proof. vm_compute. repeat split. Qed.

(** C9. Exchanging the two sides changes the scores: the student who
    repeats "cardiology" scores 200 (overall 80) against the tutor who
    names it once, and 100 (overall 40) when the two texts change sides. *)
Theorem swapping_sides_changes_score :
  let sim := calculateSimilarity repeating_student plain_tutor in
  let sim' := calculateSimilarity (swapped_student repeating_student plain_tutor)
                                  (swapped_nrt repeating_student plain_tutor) in
  medicalScore sim = 200%float /\ medicalScore sim' = 100%float /\
  score sim = 80%float /\ score sim' = 40%float /\
  PrimFloat.eqb (medicalScore sim) (medicalScore sim') = false /\
  PrimFloat.eqb (score sim) (score sim') = false.
Proof. vm_compute. repeat split. Qed.

(** C8 (as stated). The scenario does not give a pair with medical score
    100 and overall score 100. *)
Lemma scenario_scores_are_not_100 :
  ~ (exists pair,
       Matcher.generateOptimalAssignments [policy_student] [policy_tutor 1] [] = [pair]
       /\ medicalScore (Matcher.similarity pair) = 100%float
       /\ score (Matcher.similarity pair) = 100%float
       /\ Nrt.email (Matcher.nrt pair) = "a@x.com").
Proof.
  intros (pair & Hgen & Hmed & _).
  vm_compute in Hgen. injection Hgen as Hpair. subst pair.
  vm_compute in Hmed.
  apply (f_equal (PrimFloat.eqb 100%float)) in Hmed.
  vm_compute in Hmed. discriminate.
Qed.

(** C8 (amended). For one student with medical interests "global health
    policy" and one active tutor "a@x.com" with medical interests "global
    health and policy work", and no current assignments,
    [generateOptimalAssignments] returns exactly one pair: it assigns the
    student to "a@x.com", its medical score is 75 (three of the four
    terms of the union are shared: "work" is a term of the tutor only) and
    its overall score is 30 (0.4 times 75, the other two categories being
    empty). *)
Theorem scenario_scores (row : Z) :
  exists pair,
    Matcher.generateOptimalAssignments [policy_student] [policy_tutor row] [] = [pair]
    /\ Matcher.student pair = policy_student
    /\ Nrt.email (Matcher.nrt pair) = "a@x.com"
    /\ medicalScore (Matcher.similarity pair) = 75%float
    /\ researchScore (Matcher.similarity pair) = 0%float
    /\ hobbyScore (Matcher.similarity pair) = 0%float
    /\ score (Matcher.similarity pair) = 30%float
    /\ medical (matchingKeywords (Matcher.similarity pair)) = ["global"; "health"; "policy"].
Proof.
  eexists. split.
  - vm_compute. reflexivity.
  - vm_compute. repeat split.
Qed.

End ScorerFacts.

(* ================================================================== *)
(** * The commit sequence: what is requested and when it stops *)
(* ================================================================== *)

Module CommitFacts.
Import Commit.

Section Requests.
Variable backend : Type.
Variable serve : backend -> call -> backend * response.

(** ** Properties of every request issued *)

Section Keeps.
Variable P : call -> Prop.

(** A computation that only adds requests satisfying [P]. *)
Definition keeps {A : Type} (m : M backend A) : Prop :=
  forall w r w', m w = (r, w') -> Forall P (snd w) -> Forall P (snd w').

Lemma keeps_ret {A : Type} (a : A) : keeps (ret backend a).
Proof. intros w r w' H Hw. unfold ret in H. injection H as _ <-. exact Hw. Qed.

Lemma keeps_throw {A : Type} (e : error) : keeps (@throw backend A e).
Proof. intros w r w' H Hw. unfold throw in H. injection H as _ <-. exact Hw. Qed.

Lemma keeps_bind {A B : Type} (m : M backend A) (k : A -> M backend B) :
  keeps m -> (forall a, keeps (k a)) -> keeps (bind backend m k).
Proof.
  intros Hm Hk w r w' H Hw. unfold bind in H.
  destruct (m w) as [[a | e] w1] eqn:Em.
  - apply (Hk a w1 r w' H). apply (Hm w _ w1 Em Hw).
  - injection H as _ <-. apply (Hm w _ w1 Em Hw).
Qed.

Lemma keeps_try_catch {A : Type} (m : M backend A) (handler : error -> M backend A) :
  keeps m -> (forall e, keeps (handler e)) -> keeps (try_catch backend m handler).
Proof.
  intros Hm Hh w r w' H Hw. unfold try_catch in H.
  destruct (m w) as [[a | e] w1] eqn:Em.
  - injection H as _ <-. apply (Hm w _ w1 Em Hw).
  - apply (Hh e w1 r w' H). apply (Hm w _ w1 Em Hw).
Qed.

Lemma keeps_await (c : call) : P c -> keeps (await backend serve c).
Proof.
  intros Hc [b trace] r w' H Hw. unfold await in H. simpl in Hw.
  destruct (serve b c) as [b' [data | e]]; injection H as _ <-; simpl;
    apply Forall_app; split; auto.
Qed.

Lemma keeps_done (m : M backend (list Nrt.t)) : keeps m -> keeps (done backend m).
Proof. intros Hm. apply keeps_bind; [exact Hm | intros _; apply keeps_ret]. Qed.

Lemma keeps_when (b : bool) (m : M backend unit) : keeps m -> keeps (when backend b m).
Proof. intros Hm. destruct b; [exact Hm | apply keeps_ret]. Qed.

Lemma keeps_for_of {X : Type} (l : list X) (body : X -> M backend unit) :
  (forall x, In x l -> keeps (body x)) -> keeps (for_of backend l body).
Proof.
  induction l as [| x l IH]; intros Hbody; simpl.
  - apply keeps_ret.
  - apply keeps_bind.
    + apply Hbody. left. reflexivity.
    + intros _. apply IH. intros y Hy. apply Hbody. right. exact Hy.
Qed.

Lemma keeps_run (m : M backend unit) (fallback : string) (b : backend) :
  keeps m -> Forall P (requests backend (run backend m fallback b)).
Proof.
  intros Hm. unfold run.
  destruct (m (b, [])) as [[u | e] [b' trace]] eqn:Em; simpl;
    apply (Hm _ _ _ Em); constructor.
Qed.
End Keeps.

(** ** No assignment request for a deleted student *)

(** A request that is not an assignment for a student staged for
    deletion. *)
Definition spares_deleted (d : workflowData) (c : call) : Prop :=
  match assigned_row c with
  | Some row => was_deleted d row = false
  | None => True
  end.

Lemma apply_changes_spares (d : workflowData) :
  keeps (spares_deleted d) (apply_changes backend serve d).
Proof.
  unfold apply_changes.
  apply keeps_bind.
  { apply keeps_for_of. intros student _. apply keeps_done, keeps_await. exact I. }
  intros _. apply keeps_bind.
  { apply keeps_when, keeps_done, keeps_await. exact I. }
  intros _. apply keeps_bind.
  { apply keeps_for_of. intros nrt _. apply keeps_done, keeps_await. exact I. }
  intros _. apply keeps_bind.
  { apply keeps_for_of. intros update _.
    apply keeps_bind; [apply keeps_await; exact I |].
    intros nrts. destruct (find _ nrts); [| apply keeps_ret].
    destruct (String.eqb _ _); apply keeps_done, keeps_await; exact I. }
  intros _. apply keeps_when, keeps_done, keeps_await. exact I.
Qed.

Lemma assign_all_spares (d : workflowData) (assign : Js.num -> string -> call)
    (entries : Js.obj string) :
  (forall row email, assigned_row (assign row email) = Some row) ->
  keeps (spares_deleted d) (assign_all backend serve d assign entries).
Proof.
  intros Hassign. unfold assign_all.
  apply keeps_for_of. intros entry _.
  destruct (was_deleted d (Js.parseInt (fst entry))) eqn:Hdel.
  - apply keeps_ret.
  - apply keeps_try_catch.
    + apply keeps_done, keeps_await. unfold spares_deleted.
      rewrite Hassign. exact Hdel.
    + intros e. destruct (is_not_found e); [apply keeps_ret | apply keeps_throw].
Qed.

Lemma workflow_body_spares (d : workflowData) :
  keeps (spares_deleted d) (workflow_body backend serve d).
Proof.
  unfold workflow_body.
  apply keeps_bind; [apply apply_changes_spares | intros _].
  apply keeps_bind; [apply assign_all_spares; reflexivity | intros _].
  apply keeps_bind; [apply assign_all_spares; reflexivity | intros _].
  apply keeps_when. unfold export_to_sheets.
  apply keeps_try_catch; [| intros _; apply keeps_ret].
  apply keeps_done, keeps_await. exact I.
Qed.

Lemma was_deleted_in (d : workflowData) (s : Student.t) :
  In s (deletedStudents d) -> was_deleted d (Js.Num (Student.row_index s)) = true.
Proof.
  intros Hin. unfold was_deleted. apply existsb_exists.
  exists s. split; [exact Hin | simpl; apply Z.eqb_refl].
Qed.

(** C6. For every staged batch and every backend, the requests that
    [processWorkflow] issues contain no RT or NRT assignment request for
    the row index of a student that is in the staged student deletions. *)
Theorem no_assignment_for_deleted_student (d : workflowData) (b : backend) (s : Student.t) :
  In s (deletedStudents d) ->
  assignment_requests_for (Student.row_index s)
    (requests backend (processWorkflow backend serve d b)) = [].
Proof.
  intros Hin.
  pose proof (keeps_run (spares_deleted d) _ "Error processing workflow" b
                (workflow_body_spares d)) as Hall.
  fold (processWorkflow backend serve d b) in Hall.
  unfold assignment_requests_for.
  induction Hall as [| c trace Hc _ IH]; simpl.
  - reflexivity.
  - unfold spares_deleted in Hc.
    destruct (assigned_row c) as [row |]; [| exact IH].
    destruct row as [z |]; simpl; [| exact IH].
    destruct (z =? Student.row_index s) eqn:Ez; [| exact IH].
    apply Z.eqb_eq in Ez. subst z.
    rewrite (was_deleted_in d s Hin) in Hc. discriminate.
Qed.

(** ** A failed deletion stops the commit *)

Lemma delete_loop_stops (pre post : list Student.t) (s : Student.t) (e : error)
    (b b1 b2 : backend) (trace : list call) :
  delete_all backend serve b pre = Some b1 ->
  serve b1 (StudentsDelete (Student.row_index s)) = (b2, Rejected e) ->
  for_of backend (pre ++ s :: post)
    (fun student => done backend (await backend serve (StudentsDelete (Student.row_index student))))
    (b, trace)
  = (Throw e, (b2, trace ++ delete_requests (pre ++ [s]))%list).
Proof.
  revert b trace. induction pre as [| x pre IH]; intros b trace Hpre Hs; simpl in *.
  - injection Hpre as <-.
    unfold bind, done, bind, await. rewrite Hs. reflexivity.
  - destruct (serve b (StudentsDelete (Student.row_index x))) as [b' [data | e']] eqn:Ex;
      [| discriminate].
    unfold bind at 1. unfold done at 1. unfold bind at 1. unfold await at 1.
    rewrite Ex. unfold ret at 1.
    rewrite (IH b' _ Hpre Hs). rewrite <- app_assoc. reflexivity.
Qed.

Lemma bind_throw {A B : Type} (m : M backend A) (k : A -> M backend B) (w w' : world backend) (e : error) :
  m w = (Throw e, w') -> bind backend m k w = (Throw e, w').
Proof. intros H. unfold bind. rewrite H. reflexivity. Qed.

(** C5 (amended). In both commit sequences ([processWorkflow] and
    [handleApplyChanges]) the staged student deletions are requested one
    after the other inside a single [try] block: when the deletions before
    a staged student [s] are resolved and the deletion of [s] is rejected,
    the requests issued are exactly the deletions up to and including that
    of [s]; the remaining staged deletions and every later step are not
    requested, the finishing callback is not called and the error is
    shown. *)
Theorem failed_delete_stops_commit (d : workflowData) (pre post : list Student.t)
    (s : Student.t) (e : error) (b b1 b2 : backend) (onFinish : bool) :
  deletedStudents d = (pre ++ s :: post)%list ->
  delete_all backend serve b pre = Some b1 ->
  serve b1 (StudentsDelete (Student.row_index s)) = (b2, Rejected e) ->
  processWorkflow backend serve d b
    = {| finished := false;
         shown_error := Some (error_text e "Error processing workflow");
         requests := delete_requests (pre ++ [s]);
         backend_after := b2 |}
  /\ handleApplyChanges backend serve onFinish d b
    = {| finished := false;
         shown_error := Some (error_text e "Error applying changes");
         requests := delete_requests (pre ++ [s]);
         backend_after := b2 |}.
Proof.
  intros Hd Hpre Hs.
  pose proof (delete_loop_stops pre post s e b b1 b2 [] Hpre Hs) as Hloop.
  rewrite <- Hd in Hloop. simpl in Hloop.
  split.
  - unfold processWorkflow, run, workflow_body, apply_changes.
    rewrite (bind_throw _ _ _ _ _ (bind_throw _ _ _ _ _ Hloop)). reflexivity.
  - unfold handleApplyChanges, hasStagedChanges. rewrite Hd.
    replace (0 <? List.length (pre ++ s :: post))%nat with true
      by (symmetry; apply Nat.ltb_lt; rewrite length_app; simpl; lia).
    simpl negb. cbv iota.
    unfold run, apply_changes.
    rewrite (bind_throw _ _ _ _ _ (bind_throw _ _ _ _ _ Hloop)). reflexivity.
Qed.

End Requests.

(** C6, on a batch that deletes student 1 and stages an RT and an NRT
    assignment for that student. *)
Lemma no_assignment_for_deleted_student_witness :
  In Scenario.student_1 (deletedStudents Scenario.delete_and_assign) /\
  assignment_requests_for 1
    (requests unit (processWorkflow unit Scenario.resolves_all
                      Scenario.delete_and_assign tt)) = [].
Proof.
  split.
  - simpl. left. reflexivity.
  - apply (no_assignment_for_deleted_student unit Scenario.resolves_all
             Scenario.delete_and_assign tt Scenario.student_1).
    simpl. left. reflexivity.
Defined.

(** C5 (as stated). With two staged deletions and a backend that rejects
    the first of them, the second deletion is staged but never requested,
    and the commit does not finish. *)
Lemma failed_delete_blocks_the_rest :
  let r := processWorkflow unit Scenario.rejects_first_delete Scenario.two_deletions tt in
  In Scenario.student_2 (deletedStudents Scenario.two_deletions) /\
  requests unit r = [StudentsDelete 1] /\
  ~ In (StudentsDelete 2) (requests unit r) /\
  finished unit r = false.
Proof.
  vm_compute. repeat split.
  - right. left. reflexivity.
  - intros [H | []]. discriminate.
Qed.

(** C5 (amended), on the batch with two deletions of which the first is
    rejected. *)
Lemma failed_delete_stops_commit_witness :
  processWorkflow unit Scenario.rejects_first_delete Scenario.two_deletions tt
    = {| finished := false;
         shown_error := Some "Internal server error";
         requests := [StudentsDelete 1];
         backend_after := tt |}
  /\ handleApplyChanges unit Scenario.rejects_first_delete true Scenario.two_deletions tt
    = {| finished := false;
         shown_error := Some "Internal server error";
         requests := [StudentsDelete 1];
         backend_after := tt |}.
Proof.
  apply (failed_delete_stops_commit unit Scenario.rejects_first_delete
           Scenario.two_deletions [] [Scenario.student_2] Scenario.student_1
           Scenario.server_error tt tt tt true); reflexivity.
Defined.

End CommitFacts.

(* ================================================================== *)
(** * Counting where a student is *)
(* ================================================================== *)

Module BoardCounts.
Import Board.

Lemma occ_app (r : Z) (l1 l2 : list Student.t) :
  occ r (l1 ++ l2) = (occ r l1 + occ r l2)%nat.
Proof. unfold occ. rewrite filter_app, length_app. reflexivity. Qed.

Lemma occ_cons (r : Z) (s : Student.t) (l : list Student.t) :
  occ r (s :: l) = ((if (Student.row_index s =? r)%Z then 1 else 0) + occ r l)%nat.
Proof. unfold occ. simpl. destruct (Student.row_index s =? r); reflexivity. Qed.

Lemma occ_perm (r : Z) (l l' : list Student.t) :
  Permutation l l' -> occ r l = occ r l'.
Proof. apply JsFacts.perm_filter_length. Qed.

Lemma occ_sorted (r : Z) (l : list Student.t) :
  occ r (sortStudentsByStatusAndClassYear l) = occ r l.
Proof. apply occ_perm, JsFacts.sort_perm. Qed.

Lemma occ_splice (r : Z) (i : nat) (s : Student.t) (l : list Student.t) :
  occ r (Js.splice_in i s l) = ((if (Student.row_index s =? r)%Z then 1 else 0) + occ r l)%nat.
Proof.
  rewrite (occ_perm r _ _ (JsFacts.splice_in_perm i s l)). apply occ_cons.
Qed.

Lemma without_cons (a : id) (s : Student.t) (l : list Student.t) :
  without a (s :: l) = if is_row a s then without a l else s :: without a l.
Proof. unfold without. simpl. destruct (is_row a s); reflexivity. Qed.

(** Taking the dragged student out of an array leaves the others. *)
Lemma occ_without_other (a : id) (r : Z) (l : list Student.t) :
  a <> IdNum r -> occ r (without a l) = occ r l.
Proof.
  intros Hne. induction l as [| s l IH]; [reflexivity |].
  rewrite without_cons, occ_cons.
  destruct (is_row a s) eqn:Ea.
  - rewrite IH.
    destruct a as [n | k]; simpl in Ea; [| discriminate].
    apply Z.eqb_eq in Ea.
    destruct (Student.row_index s =? r) eqn:Er; [| reflexivity].
    apply Z.eqb_eq in Er. exfalso. apply Hne. congruence.
  - rewrite occ_cons, IH. reflexivity.
Qed.

Lemma occ_without_same (n : Z) (l : list Student.t) :
  occ n (without (IdNum n) l) = O.
Proof.
  induction l as [| s l IH]; [reflexivity |].
  rewrite without_cons. simpl is_row.
  destruct (Student.row_index s =? n) eqn:E; [exact IH |].
  rewrite occ_cons, E, IH. reflexivity.
Qed.

Lemma occ_without_le (a : id) (r : Z) (l : list Student.t) :
  (occ r (without a l) <= occ r l)%nat.
Proof.
  destruct a as [n | k].
  - destruct (Z.eq_dec n r) as [-> | Hne].
    + rewrite occ_without_same. lia.
    + rewrite occ_without_other by congruence. lia.
  - rewrite occ_without_other by discriminate. lia.
Qed.

(** [find] and [existsb] on the dragged student, in terms of counts. *)
Lemma find_is_row_some (a : id) (l : list Student.t) (s : Student.t) :
  find (is_row a) l = Some s ->
  a = IdNum (Student.row_index s) /\ (1 <= occ (Student.row_index s) l)%nat.
Proof.
  intros Hfind. pose proof (find_some _ _ Hfind) as [Hin Hrow].
  destruct a as [n | k]; simpl in Hrow; [| discriminate].
  apply Z.eqb_eq in Hrow. subst n. split; [reflexivity |].
  unfold occ.
  assert (In s (filter (fun s0 => Student.row_index s0 =? Student.row_index s) l)) as Hf.
  { apply filter_In. split; [exact Hin | apply Z.eqb_refl]. }
  destruct (filter _ l); [destruct Hf | simpl; lia].
Qed.

Lemma find_is_row_none (n : Z) (l : list Student.t) :
  find (is_row (IdNum n)) l = None -> occ n l = O.
Proof.
  intros Hfind. unfold occ.
  destruct (filter (fun s => Student.row_index s =? n) l) as [| s f] eqn:Ef; [reflexivity |].
  assert (In s (filter (fun s => Student.row_index s =? n) l)) as Hin
    by (rewrite Ef; left; reflexivity).
  apply filter_In in Hin. destruct Hin as [Hin Hrow].
  pose proof (find_none _ _ Hfind s Hin) as Hno. simpl in Hno. congruence.
Qed.

Lemma existsb_is_row (n : Z) (l : list Student.t) :
  existsb (is_row (IdNum n)) l = negb (occ n l =? 0)%nat.
Proof.
  induction l as [| s l IH]; [reflexivity |].
  simpl existsb. rewrite occ_cons, IH. simpl is_row.
  destruct (Student.row_index s =? n); simpl; reflexivity.
Qed.

(** ** Assignment objects *)

Definition bucket (o : Js.obj (list Student.t)) (email : string) : list Student.t :=
  match Js.get o email with
  | Some l => l
  | None => []
  end.

(** Overwriting one bucket changes the count by what that bucket held. *)
Lemma occ_obj_set (r : Z) (o : Js.obj (list Student.t)) (k : string) (l : list Student.t) :
  (occ_obj r (Js.set o k l) + occ r (bucket o k) = occ_obj r o + occ r l)%nat.
Proof.
  unfold bucket.
  induction o as [| [k0 l0] o IH]; simpl.
  - unfold occ at 2. simpl. lia.
  - destruct (String.eqb k0 k); simpl; lia.
Qed.

Lemma occ_bucket_le (r : Z) (o : Js.obj (list Student.t)) (k : string) :
  (occ r (bucket o k) <= occ_obj r o)%nat.
Proof.
  unfold bucket.
  induction o as [| [k0 l0] o IH]; simpl.
  - unfold occ. simpl. lia.
  - destruct (String.eqb k0 k); lia.
Qed.

Lemma occ_obj_set_without_other (a : id) (r : Z) (o : Js.obj (list Student.t)) (k : string) :
  a <> IdNum r ->
  occ_obj r (Js.set o k (without a (bucket o k))) = occ_obj r o.
Proof.
  intros Hne. pose proof (occ_obj_set r o k (without a (bucket o k))) as H.
  rewrite occ_without_other in H by assumption. lia.
Qed.

Lemma occ_obj_set_without_le (a : id) (r : Z) (o : Js.obj (list Student.t)) (k : string) :
  (occ_obj r (Js.set o k (without a (bucket o k))) <= occ_obj r o)%nat.
Proof.
  pose proof (occ_obj_set r o k (without a (bucket o k))) as H.
  pose proof (occ_without_le a r (bucket o k)). lia.
Qed.

(** The search of [Object.entries]. *)
Lemma find_bucket_some (a : id) (o : Js.obj (list Student.t))
    (email : string) (l : list Student.t) (s : Student.t) :
  NoDup (Js.keys o) ->
  find_bucket a o = Some (email, l, s) ->
  Js.get o email = Some l /\ find (is_row a) l = Some s.
Proof.
  intros Hnd. induction o as [| [k0 l0] o IH]; simpl; [discriminate |].
  inversion Hnd as [| ? ? Hnotin Hnd']; subst.
  destruct (find (is_row a) l0) as [s0 |] eqn:Ef.
  - intros H. injection H as -> -> ->. rewrite String.eqb_refl. auto.
  - intros H. destruct (IH Hnd' H) as [Hget Hfind].
    destruct (String.eqb k0 email) eqn:Ek; [| auto].
    apply String.eqb_eq in Ek. subst k0. exfalso.
    apply Hnotin. apply JsFacts.get_none_keys in Hnotin.
    unfold Js.keys in *. congruence.
Qed.

Lemma find_bucket_none (n : Z) (o : Js.obj (list Student.t)) :
  find_bucket (IdNum n) o = None -> occ_obj n o = O.
Proof.
  induction o as [| [k0 l0] o IH]; simpl; [reflexivity |].
  destruct (find (is_row (IdNum n)) l0) as [s0 |] eqn:Ef; [discriminate |].
  intros H. rewrite (find_is_row_none _ _ Ef), (IH H). reflexivity.
Qed.

Lemma find_bucket_ge (n : Z) (o : Js.obj (list Student.t))
    (email : string) (l : list Student.t) (s : Student.t) :
  find_bucket (IdNum n) o = Some (email, l, s) -> (1 <= occ_obj n o)%nat.
Proof.
  induction o as [| [k0 l0] o IH]; simpl; [discriminate |].
  destruct (find (is_row (IdNum n)) l0) as [s0 |] eqn:Ef.
  - intros _. destruct (find_is_row_some _ _ _ Ef) as [Hid Hge].
    injection Hid as Hid. rewrite <- Hid in Hge. lia.
  - intros H. specialize (IH H). lia.
Qed.

Lemma find_bucket_str (k : string) (o : Js.obj (list Student.t)) :
  find_bucket (IdStr k) o = None.
Proof.
  induction o as [| [k0 l0] o IH]; simpl; [reflexivity |].
  assert (find (is_row (IdStr k)) l0 = None) as ->; [| exact IH].
  induction l0 as [| s l0 IHl]; simpl; auto.
Qed.

(** The loop that removes the student from the other buckets. *)
Lemma keys_without_elsewhere (a : id) (e : string) (o : Js.obj (list Student.t)) :
  Js.keys (without_elsewhere a e o) = Js.keys o.
Proof.
  unfold without_elsewhere, Js.keys. rewrite map_map.
  apply map_ext. intros [k l]. simpl. destruct (String.eqb k e); reflexivity.
Qed.

Lemma bucket_without_elsewhere (a : id) (e : string) (o : Js.obj (list Student.t)) :
  Js.get (without_elsewhere a e o) e = Js.get o e.
Proof.
  induction o as [| [k l] o IH]; simpl; [reflexivity |].
  destruct (String.eqb k e) eqn:Ek; simpl; rewrite Ek; [reflexivity | exact IH].
Qed.

Lemma occ_obj_without_elsewhere_other (a : id) (r : Z) (e : string)
    (o : Js.obj (list Student.t)) :
  a <> IdNum r -> occ_obj r (without_elsewhere a e o) = occ_obj r o.
Proof.
  intros Hne. induction o as [| [k l] o IH]; simpl; [reflexivity |].
  destruct (String.eqb k e); simpl; rewrite IH; [reflexivity |].
  rewrite occ_without_other by assumption. reflexivity.
Qed.

Lemma occ_obj_without_elsewhere_same (n : Z) (e : string) (o : Js.obj (list Student.t)) :
  NoDup (Js.keys o) ->
  occ_obj n (without_elsewhere (IdNum n) e o) = occ n (bucket o e).
Proof.
  unfold bucket.
  induction o as [| [k l] o IH]; simpl; intros Hnd; [reflexivity |].
  inversion Hnd as [| ? ? Hnotin Hnd']; subst.
  destruct (String.eqb k e) eqn:Ek; simpl.
  - apply String.eqb_eq in Ek. subst k.
    apply JsFacts.get_none_keys in Hnotin.
    rewrite IH by assumption. unfold Js.keys in *. rewrite Hnotin.
    change (occ n []) with O. lia.
  - rewrite occ_without_same, IH by assumption. reflexivity.
Qed.

(** "Add to new assignment". *)
Lemma keys_add_new (a : id) (e : string) (s : Student.t) (o : Js.obj (list Student.t)) :
  NoDup (Js.keys o) -> NoDup (Js.keys (add_new a e s o)).
Proof.
  intros Hnd. unfold add_new.
  destruct (Js.get o e) as [l |] eqn:Eg.
  - rewrite Eg. destruct (existsb (is_row a) l); [exact Hnd |].
    apply JsFacts.keys_set_nodup, Hnd.
  - rewrite JsFacts.get_set_same. simpl.
    apply JsFacts.keys_set_nodup, JsFacts.keys_set_nodup, Hnd.
Qed.

Lemma occ_obj_add_new (a : id) (r : Z) (e : string) (s : Student.t)
    (o : Js.obj (list Student.t)) :
  occ_obj r (add_new a e s o) =
  (occ_obj r o + if existsb (is_row a) (bucket o e) then 0 else occ r [s])%nat.
Proof.
  unfold add_new, bucket.
  destruct (Js.get o e) as [l |] eqn:Eg.
  - rewrite Eg. destruct (existsb (is_row a) l); [lia |].
    pose proof (occ_obj_set r o e (l ++ [s])) as H.
    unfold bucket in H. rewrite Eg, occ_app in H. lia.
  - rewrite JsFacts.get_set_same. simpl.
    pose proof (occ_obj_set r (Js.set o e []) e ([] ++ [s])%list) as H1.
    pose proof (occ_obj_set r o e []) as H2.
    unfold bucket in H1, H2. rewrite JsFacts.get_set_same in H1. rewrite Eg in H2.
    change ([] ++ [s])%list with [s] in H1. change (occ r []) with O in H1, H2. lia.
Qed.

End BoardCounts.

(* ================================================================== *)
(** * Moves that are refused *)
(* ================================================================== *)

Module BoardMoves.
Import Board BoardCounts.

Lemma same_buckets_cleared (st : state) : same_buckets st (drag_cleared st).
Proof. repeat split. Qed.

Lemma not_accepting_iff (n : Nrt.t) :
  not_accepting n = true <-> Nrt.status n <> "active".
Proof.
  unfold not_accepting.
  destruct (String.eqb (Nrt.status n) "active") eqn:E.
  - apply String.eqb_eq in E. rewrite E. simpl. split; [discriminate | congruence].
  - apply String.eqb_neq in E. simpl. tauto.
Qed.

Lemma is_row_str (k : string) (l : list Student.t) : existsb (is_row (IdStr k)) l = false.
Proof. induction l as [| s l IH]; simpl; auto. Qed.

Lemma is_unassigned_str (e : string) :
  e <> "unassigned" -> is_unassigned (IdStr e) = false.
Proof. intros H. simpl. apply String.eqb_neq. exact H. Qed.

(** A drop on the card of a tutor goes to the second half of the
    handler. *)
Lemma handleDragEnd_on_tutor (st : state) (a : id) (e : string) :
  e <> "unassigned" ->
  handleDragEnd st (mkEvent a (Some (IdStr e))) = dropOnTutor st a (IdStr e).
Proof.
  intros He. unfold handleDragEnd.
  change (over (mkEvent a (Some (IdStr e)))) with (Some (IdStr e)).
  change (active (mkEvent a (Some (IdStr e)))) with a.
  cbv beta iota.
  rewrite (is_unassigned_str e He), is_row_str. reflexivity.
Qed.

(** A student that is in a bucket is found by the search for the source. *)
Lemma in_bucket_found (o : Js.obj (list Student.t)) (e : string) (a : id) :
  in_bucket o e a = true -> find_bucket a o <> None.
Proof.
  unfold in_bucket.
  induction o as [| [k l] o IH]; simpl; [discriminate |].
  destruct (find (is_row a) l) eqn:Ef; [discriminate |].
  destruct (String.eqb k e).
  - intros Hex. apply existsb_exists in Hex. destruct Hex as (s & Hin & Hrow).
    pose proof (find_none _ _ Ef s Hin). congruence.
  - exact IH.
Qed.

Lemma find_source_in_current (st : state) (a : id) (e : string) :
  in_bucket (currentAssignments st) e a = true -> find_source st a <> None.
Proof.
  intros Hin. apply in_bucket_found in Hin. unfold find_source.
  destruct (find (is_row a) (students st)); [discriminate |].
  destruct (find_bucket a (assignments st)) as [[[? ?] ?] |]; [discriminate |].
  destruct (find_bucket a (currentAssignments st)) as [[[? ?] ?] |];
    [discriminate | contradiction].
Qed.

(** The total that the capacity check compares with 3: the current and
    new assignments of the NRT, and one more for the dragged student
    unless the student comes from a bucket ([sourceType] is not
    ['unassigned']) and is already in the new-assignment bucket of that
    NRT. *)
Lemma totalAfter_counts (st : state) (sourceType e : string) (a : id) :
  totalAfter st sourceType e a
  = bucket_size (currentAssignments st) e + bucket_size (assignments st) e
    + (if negb (String.eqb sourceType "unassigned") && in_bucket (assignments st) e a
       then 0 else 1).
Proof.
  unfold totalAfter.
  destruct (String.eqb sourceType "unassigned"), (in_bucket (assignments st) e a); reflexivity.
Qed.

(** C4 (amended). For every state of the board, when a student who is on
    the board is dropped onto a displayed NRT: if the status of the NRT
    is not 'active', the alert about the status is shown and the three
    kinds of buckets are as they were; if the status is 'active' and the
    current and new assignments of the NRT, with one more for the dragged
    student unless the student comes from a bucket and is already in the
    new-assignment bucket of that NRT, total more than 3, the alert about
    capacity is shown and the three kinds of buckets are as they were; in
    every other case the move is not refused: no alert is shown. *)
Theorem refused_move_changes_nothing (st : state) (a : id) (e : string)
    (nrt : Nrt.t) (student : Student.t) (sourceType : string) :
  e <> "unassigned" ->
  find_source st a = Some (student, sourceType) ->
  find (fun n => String.eqb (Nrt.email n) e) (nrts st) = Some nrt ->
  let result := handleDragEnd st (mkEvent a (Some (IdStr e))) in
  let regrouped :=
    negb (String.eqb sourceType "unassigned") && in_bucket (assignments st) e a in
  let total :=
    bucket_size (currentAssignments st) e + bucket_size (assignments st) e
    + (if regrouped then 0 else 1) in
  (Nrt.status nrt <> "active" ->
   alert_of result = Some alert_not_accepting /\ same_buckets st (state_of result))
  /\ (Nrt.status nrt = "active" -> 3 < total ->
      alert_of result = Some alert_capacity /\ same_buckets st (state_of result))
  /\ (Nrt.status nrt = "active" -> total <= 3 -> alert_of result = None).
Proof.
  intros He Hsrc Hnrt result regrouped total. subst result total regrouped.
  rewrite (handleDragEnd_on_tutor st a e He).
  unfold dropOnTutor. rewrite Hsrc, Hnrt.
  rewrite <- totalAfter_counts.
  split; [| split].
  - intros Hstatus. apply not_accepting_iff in Hstatus. rewrite Hstatus.
    split; [reflexivity | apply same_buckets_cleared].
  - intros Hstatus Hfull.
    assert (not_accepting nrt = false) as ->.
    { destruct (not_accepting nrt) eqn:Hacc; [| reflexivity].
      apply not_accepting_iff in Hacc. contradiction. }
    apply Z.ltb_lt in Hfull. rewrite Hfull.
    split; [reflexivity | apply same_buckets_cleared].
  - intros Hstatus Hroom.
    assert (not_accepting nrt = false) as ->.
    { destruct (not_accepting nrt) eqn:Hacc; [| reflexivity].
      apply not_accepting_iff in Hacc. contradiction. }
    apply Z.ltb_ge in Hroom. rewrite Hroom.
    destruct (remove_from_source st a sourceType) as [[[? ?] ?] |]; reflexivity.
Qed.

(** C10 (amended). When a student of the current-assignment bucket of a
    displayed NRT, who is not in the new-assignment bucket of that NRT,
    is dropped onto the same NRT while its current and new assignments
    total 3, the move is refused and nothing changes: with the capacity
    alert when the status of the NRT is 'active' (the student counts once
    in the total and once more as the newcomer), and with the
    not-accepting alert otherwise, since the status is checked first. *)
Theorem current_student_dropped_on_own_tutor (st : state) (row : Z) (e : string)
    (nrt : Nrt.t) :
  e <> "unassigned" ->
  find (fun n => String.eqb (Nrt.email n) e) (nrts st) = Some nrt ->
  in_bucket (currentAssignments st) e (IdNum row) = true ->
  in_bucket (assignments st) e (IdNum row) = false ->
  bucket_size (currentAssignments st) e + bucket_size (assignments st) e = 3 ->
  handleDragEnd st (mkEvent (IdNum row) (Some (IdStr e)))
  = Done (drag_cleared st)
         (Some (if String.eqb (Nrt.status nrt) "active"
                then alert_capacity else alert_not_accepting)).
Proof.
  intros He Hnrt Hcur Hnew Htotal.
  rewrite (handleDragEnd_on_tutor st _ e He).
  unfold dropOnTutor.
  destruct (find_source st (IdNum row)) as [[student sourceType] |] eqn:Hsrc;
    [| exfalso; apply (find_source_in_current st _ e Hcur Hsrc)].
  rewrite Hnrt.
  destruct (String.eqb (Nrt.status nrt) "active") eqn:Eactive.
  - assert (not_accepting nrt = false) as ->.
    { destruct (not_accepting nrt) eqn:Hacc; [| reflexivity].
      apply not_accepting_iff in Hacc. apply String.eqb_eq in Eactive. contradiction. }
    assert ((3 <? totalAfter st sourceType e (IdNum row)) = true) as ->.
    { apply Z.ltb_lt. unfold totalAfter. rewrite Hnew. simpl negb.
      rewrite orb_true_r. lia. }
    reflexivity.
  - assert (not_accepting nrt = true) as ->.
    { apply not_accepting_iff. apply String.eqb_neq. exact Eactive. }
    reflexivity.
Qed.

End BoardMoves.

(* ================================================================== *)
(** * Every student stays in exactly one place *)
(* ================================================================== *)

Module BoardInvariant.
Import Board BoardCounts.

Lemma well_located_same (roster : list Z) (st st' : state) :
  same_buckets st st' -> well_located roster st -> well_located roster st'.
Proof.
  intros (Hs & Ha & Hc) (Hka & Hkc & Hocc).
  unfold well_located, occurrences. rewrite Hs, Ha, Hc. auto.
Qed.

(** ** Back to the unassigned pool *)

(** Taking the found student out of the bucket where the search found it
    and putting it into the pool keeps every count. *)
Lemma move_out_counts (r n : Z) (o : Js.obj (list Student.t)) (email : string)
    (l pool : list Student.t) (found : Student.t) (i : nat) (rest : nat) :
  NoDup (Js.keys o) ->
  find_bucket (IdNum n) o = Some (email, l, found) ->
  (occ r pool + occ_obj r o + rest = 1)%nat ->
  (occ r (Js.splice_in i found (sortStudentsByStatusAndClassYear pool))
   + occ_obj r (Js.set o email (without (IdNum n) l)) + rest = 1)%nat.
Proof.
  intros Hnd Hfind Hone.
  destruct (find_bucket_some _ _ _ _ _ Hnd Hfind) as [Hget Hfound].
  destruct (find_is_row_some _ _ _ Hfound) as [Hid Hge].
  injection Hid as Hid. rewrite <- Hid in Hge.
  rewrite occ_splice, occ_sorted.
  pose proof (occ_obj_set r o email (without (IdNum n) l)) as Hset.
  pose proof (occ_bucket_le r o email) as Hle.
  unfold bucket in Hset, Hle. rewrite Hget in Hset, Hle.
  destruct (Z.eq_dec n r) as [-> | Hne].
  - rewrite occ_without_same in Hset.
    rewrite <- Hid, Z.eqb_refl. lia.
  - rewrite occ_without_other in Hset by congruence.
    replace (Student.row_index found =? r) with false
      by (symmetry; apply Z.eqb_neq; congruence).
    lia.
Qed.

Lemma dropOnUnassigned_located (roster : list Z) (st : state) (a over_id : id) :
  well_located roster st ->
  well_located roster (state_of (dropOnUnassigned st a over_id)).
Proof.
  intros Hwl. pose proof Hwl as (Hka & Hkc & Hocc).
  unfold dropOnUnassigned.
  destruct a as [n | k].
  2: { rewrite !find_bucket_str. apply (well_located_same roster st); [repeat split | exact Hwl]. }
  destruct (find_bucket (IdNum n) (assignments st)) as [[[email l] found] |] eqn:Ea.
  - simpl. split; [| split]; simpl.
    + apply JsFacts.keys_set_nodup, Hka.
    + exact Hkc.
    + intros r Hr. specialize (Hocc r Hr). unfold occurrences in *. simpl.
      apply (move_out_counts r n _ email l _ found _ _ Hka Ea). exact Hocc.
  - destruct (find_bucket (IdNum n) (currentAssignments st)) as [[[email l] found] |] eqn:Ec.
    + simpl. split; [| split]; simpl.
      * exact Hka.
      * apply JsFacts.keys_set_nodup, Hkc.
      * intros r Hr. specialize (Hocc r Hr). unfold occurrences in *. simpl.
        pose proof (move_out_counts r n _ email l (students st) found
                      (insertIndex st over_id (sortStudentsByStatusAndClassYear (students st)))
                      (occ_obj r (assignments st)) Hkc Ec) as H.
        lia.
    + apply (well_located_same roster st); [repeat split | exact Hwl].
Qed.

(** ** Onto a tutor *)

(** Where the search for the source finds the dragged student. *)
Inductive source_of (st : state) (n : Z) (student : Student.t) : string -> Prop :=
| from_pool :
    (1 <= occ n (students st))%nat ->
    source_of st n student "unassigned"
| from_new (email : string) (l : list Student.t) :
    occ n (students st) = O ->
    find_bucket (IdNum n) (assignments st) = Some (email, l, student) ->
    source_of st n student email
| from_current (email : string) (l : list Student.t) :
    occ n (students st) = O ->
    occ_obj n (assignments st) = O ->
    find_bucket (IdNum n) (currentAssignments st) = Some (email, l, student) ->
    source_of st n student ("current_" ++ email).

Lemma find_source_some (st : state) (a : id) (student : Student.t) (sourceType : string) :
  find_source st a = Some (student, sourceType) ->
  exists n, a = IdNum n /\ Student.row_index student = n /\ source_of st n student sourceType.
Proof.
  unfold find_source. intros H.
  destruct a as [n | k].
  2: { rewrite !find_bucket_str in H.
       destruct (find (is_row (IdStr k)) (students st)) eqn:Ef; [| discriminate].
       apply find_some in Ef. destruct Ef as [_ Ef]. discriminate. }
  exists n. split; [reflexivity |].
  destruct (find (is_row (IdNum n)) (students st)) as [s |] eqn:Es.
  - injection H as -> <-.
    destruct (find_is_row_some _ _ _ Es) as [Hid Hge]. injection Hid as Hid.
    split; [congruence |]. apply from_pool. congruence.
  - apply find_is_row_none in Es.
    destruct (find_bucket (IdNum n) (assignments st)) as [[[email l] s] |] eqn:Ea.
    + injection H as -> <-.
      assert (In (email, l) (assignments st) /\ find (is_row (IdNum n)) l = Some student)
        as [_ Hf].
      { clear - Ea. induction (assignments st) as [| [k0 l0] o IH]; simpl in Ea; [discriminate |].
        destruct (find (is_row (IdNum n)) l0) eqn:E0.
        - injection Ea as -> -> ->. split; [left; reflexivity | exact E0].
        - destruct (IH Ea) as [Hin Hf]. split; [right; exact Hin | exact Hf]. }
      destruct (find_is_row_some _ _ _ Hf) as [Hid _]. injection Hid as Hid.
      split; [congruence |]. apply (from_new st n student email l); assumption.
    + apply find_bucket_none in Ea.
      destruct (find_bucket (IdNum n) (currentAssignments st)) as [[[email l] s] |] eqn:Ec;
        [| discriminate].
      injection H as -> <-.
      assert (find (is_row (IdNum n)) l = Some student) as Hf.
      { clear - Ec. induction (currentAssignments st) as [| [k0 l0] o IH];
          simpl in Ec; [discriminate |].
        destruct (find (is_row (IdNum n)) l0) eqn:E0.
        - injection Ec as -> -> ->. exact E0.
        - exact (IH Ec). }
      destruct (find_is_row_some _ _ _ Hf) as [Hid _]. injection Hid as Hid.
      split; [congruence |]. apply (from_current st n student email l); assumption.
Qed.

(** "Remove from source" only takes the dragged student away. *)
Lemma remove_from_source_counts (st : state) (a : id) (sourceType : string)
    (students1 : list Student.t) (assignments1 current1 : Js.obj (list Student.t)) :
  remove_from_source st a sourceType = Some (students1, assignments1, current1) ->
  (NoDup (Js.keys (assignments st)) -> NoDup (Js.keys assignments1)) /\
  (NoDup (Js.keys (currentAssignments st)) -> NoDup (Js.keys current1)) /\
  forall r,
    (occ r students1 <= occ r (students st))%nat /\
    (occ_obj r assignments1 <= occ_obj r (assignments st))%nat /\
    (occ_obj r current1 <= occ_obj r (currentAssignments st))%nat /\
    (a <> IdNum r ->
     occ r students1 = occ r (students st) /\
     occ_obj r assignments1 = occ_obj r (assignments st) /\
     occ_obj r current1 = occ_obj r (currentAssignments st)).
Proof.
  unfold remove_from_source.
  destruct (String.eqb sourceType "unassigned").
  { intros H. injection H as <- <- <-. repeat split; auto.
    - apply occ_without_le.
    - apply occ_without_other. assumption. }
  destruct (Js.startsWith "current_" sourceType).
  - destruct (Js.get (currentAssignments st) (Js.remove_first "current_" sourceType))
      as [l |] eqn:Eg; [| discriminate].
    intros H. injection H as <- <- <-.
    assert (l = bucket (currentAssignments st) (Js.remove_first "current_" sourceType)) as ->
      by (unfold bucket; rewrite Eg; reflexivity).
    repeat split; auto.
    + intros Hnd. apply JsFacts.keys_set_nodup, Hnd.
    + apply occ_obj_set_without_le.
    + apply occ_obj_set_without_other. assumption.
  - destruct (Js.get (assignments st) sourceType) as [l |] eqn:Eg; [| discriminate].
    intros H. injection H as <- <- <-.
    assert (l = bucket (assignments st) sourceType) as ->
      by (unfold bucket; rewrite Eg; reflexivity).
    repeat split; auto.
    + intros Hnd. apply JsFacts.keys_set_nodup, Hnd.
    + apply occ_obj_set_without_le.
    + apply occ_obj_set_without_other. assumption.
Qed.

(** A student taken from the pool is no longer in the pool. *)
Lemma remove_from_pool (st : state) (n : Z)
    (students1 : list Student.t) (assignments1 current1 : Js.obj (list Student.t)) :
  remove_from_source st (IdNum n) "unassigned" = Some (students1, assignments1, current1) ->
  occ n students1 = O.
Proof.
  unfold remove_from_source. simpl String.eqb. cbv iota.
  intros H. injection H as <- _ _. apply occ_without_same.
Qed.

(** A student taken from a current-assignment bucket is no longer in it. *)
Lemma remove_from_current (st : state) (n : Z) (email : string) (l : list Student.t)
    (student : Student.t)
    (students1 : list Student.t) (assignments1 current1 : Js.obj (list Student.t)) :
  NoDup (Js.keys (currentAssignments st)) ->
  find_bucket (IdNum n) (currentAssignments st) = Some (email, l, student) ->
  remove_from_source st (IdNum n) ("current_" ++ email)
    = Some (students1, assignments1, current1) ->
  (occ_obj n current1 + 1 <= occ_obj n (currentAssignments st))%nat.
Proof.
  intros Hnd Hfind.
  destruct (find_bucket_some _ _ _ _ _ Hnd Hfind) as [Hget Hfound].
  destruct (find_is_row_some _ _ _ Hfound) as [Hid Hge]. injection Hid as Hid.
  unfold remove_from_source.
  change (String.eqb ("current_" ++ email) "unassigned") with false.
  change (Js.startsWith "current_" ("current_" ++ email)) with true.
  change (Js.remove_first "current_" ("current_" ++ email)) with email.
  cbv iota. rewrite Hget.
  intros H. injection H as _ _ <-.
  pose proof (occ_obj_set n (currentAssignments st) email (without (IdNum n) l)) as Hset.
  unfold bucket in Hset. rewrite Hget, occ_without_same in Hset.
  rewrite <- Hid in Hge. lia.
Qed.

Lemma dropOnTutor_located (roster : list Z) (st : state) (a over_id : id) :
  well_located roster st ->
  well_located roster (state_of (dropOnTutor st a over_id)).
Proof.
  intros Hwl. pose proof Hwl as (Hka & Hkc & Hocc).
  assert (well_located roster (drag_cleared st)) as Hsame
    by (apply (well_located_same roster st); [repeat split | exact Hwl]).
  unfold dropOnTutor.
  destruct (find_source st a) as [[student sourceType] |] eqn:Hsrc; [| exact Hsame].
  destruct over_id as [m | e]; [exact Hsame |].
  destruct (find _ (nrts st)) as [nrt |]; [| exact Hsame].
  destruct (not_accepting nrt); [exact Hsame |].
  destruct (3 <? totalAfter st sourceType e a); [exact Hsame |].
  destruct (remove_from_source st a sourceType) as [[[students1 assignments1] current1] |]
    eqn:Hrem; [| exact Hsame].
  destruct (find_source_some _ _ _ _ Hsrc) as (n & -> & Hrow & Hwhere).
  destruct (remove_from_source_counts _ _ _ _ _ _ Hrem) as (Hka1 & Hkc1 & Hcounts).
  specialize (Hka1 Hka). specialize (Hkc1 Hkc).
  simpl. split; [| split]; simpl.
  - apply keys_add_new. rewrite keys_without_elsewhere. exact Hka1.
  - rewrite keys_without_elsewhere. exact Hkc1.
  - intros r Hr. specialize (Hocc r Hr). unfold occurrences in *. simpl.
    destruct (Hcounts r) as (Hs & Ha & Hc & Hother).
    rewrite occ_obj_add_new.
    unfold bucket at 1. rewrite bucket_without_elsewhere. fold (bucket assignments1 e).
    rewrite existsb_is_row, occ_cons. change (occ r []) with O. rewrite Hrow.
    destruct (Z.eq_dec n r) as [-> | Hne].
    + (* the dragged student *)
      rewrite !occ_obj_without_elsewhere_same by assumption.
      rewrite Z.eqb_refl.
      pose proof (occ_bucket_le r assignments1 e) as Hbe.
      pose proof (occ_bucket_le r current1 e) as Hce.
      destruct (Nat.eqb_spec (occ r (bucket assignments1 e)) 0) as [Hz | Hnz]; simpl negb; cbv iota.
      * inversion Hwhere as [Hpool Esrc | email l Hpool Hfind Esrc
                            | email l Hpool Hnew Hfind Esrc]; subst.
        -- pose proof (remove_from_pool _ _ _ _ _ Hrem). lia.
        -- pose proof (find_bucket_ge _ _ _ _ _ Hfind). lia.
        -- pose proof (remove_from_current _ _ _ _ _ _ _ _ Hkc Hfind Hrem). lia.
      * inversion Hwhere as [Hpool Esrc | email l Hpool Hfind Esrc
                            | email l Hpool Hnew Hfind Esrc]; subst.
        -- lia.
        -- pose proof (find_bucket_ge _ _ _ _ _ Hfind). lia.
        -- lia.
    + (* every other student *)
      assert (IdNum n <> IdNum r) as Hid by congruence.
      destruct (Hother Hid) as (Hs' & Ha' & Hc').
      rewrite !occ_obj_without_elsewhere_other by assumption.
      replace (n =? r) with false by (symmetry; apply Z.eqb_neq; exact Hne).
      destruct (negb _); lia.
Qed.

Lemma handleDragEnd_located (roster : list Z) (st : state) (ev : event) :
  well_located roster st -> well_located roster (state_of (handleDragEnd st ev)).
Proof.
  intros Hwl. unfold handleDragEnd.
  destruct (over ev) as [over_id |].
  - destruct (is_unassigned over_id || existsb (is_row over_id) (students st)).
    + apply dropOnUnassigned_located, Hwl.
    + apply dropOnTutor_located, Hwl.
  - apply (well_located_same roster st); [repeat split | exact Hwl].
Qed.

(** ** Suggestions *)

Lemma handleRejectAssignment_buckets (st : state) (assignment : Matcher.suggestion) :
  same_buckets st (handleRejectAssignment st assignment).
Proof. repeat split. Qed.

Lemma handleAcceptAssignment_located (roster : list Z) (st : state)
    (assignment : Matcher.suggestion) :
  existsb (is_row (IdNum (Student.row_index (Matcher.student assignment)))) (students st) = true ->
  well_located roster st ->
  well_located roster (handleAcceptAssignment st assignment).
Proof.
  intros Hpool (Hka & Hkc & Hocc).
  rewrite existsb_is_row in Hpool.
  set (n := Student.row_index (Matcher.student assignment)) in *.
  set (e := Nrt.email (Matcher.nrt assignment)).
  unfold handleAcceptAssignment. fold n e. fold (bucket (assignments st) e).
  split; [| split]; simpl.
  - apply JsFacts.keys_set_nodup, Hka.
  - exact Hkc.
  - intros r Hr. specialize (Hocc r Hr). unfold occurrences in *. simpl.
    change (filter (fun s => negb (Student.row_index s =? n)) (students st))
      with (without (IdNum n) (students st)).
    pose proof (occ_obj_set r (assignments st) e
                  (bucket (assignments st) e ++ [Matcher.student assignment])) as Hset.
    rewrite occ_app, occ_cons in Hset. change (occ r []) with O in Hset. fold n in Hset.
    destruct (Z.eq_dec n r) as [<- | Hne].
    + rewrite occ_without_same. rewrite Z.eqb_refl in Hset.
      destruct (Nat.eqb_spec (occ n (students st)) 0); [discriminate |]. lia.
    + rewrite occ_without_other by congruence.
      replace (n =? r) with false in Hset by (symmetry; apply Z.eqb_neq; exact Hne).
      lia.
Qed.

(** From one board to the next: on a board where the two assignment
    objects have no key twice and every student of the roster is in
    exactly one place, the same holds after every [handleDragEnd], after
    every [handleRejectAssignment], and after every
    [handleAcceptAssignment] of a suggestion whose student is in the
    unassigned pool. *)
Lemma operations_keep_students_located (roster : list Z) (st : state) :
  well_located roster st ->
  (forall ev, well_located roster (state_of (handleDragEnd st ev)))
  /\ (forall assignment, well_located roster (handleRejectAssignment st assignment))
  /\ (forall assignment,
        existsb (is_row (IdNum (Student.row_index (Matcher.student assignment))))
                (students st) = true ->
        well_located roster (handleAcceptAssignment st assignment)).
Proof.
  intros Hwl. split; [| split].
  - intros ev. apply handleDragEnd_located, Hwl.
  - intros assignment.
    apply (well_located_same roster st);
      [apply handleRejectAssignment_buckets | exact Hwl].
  - intros assignment Hpool. apply handleAcceptAssignment_located; assumption.
Qed.

End BoardInvariant.

(* ================================================================== *)
(** * The board on concrete states *)
(* ================================================================== *)

Module BoardCases.
Import Board Scenario.

Lemma located_by_counting (roster : list Z) (st : state) :
  NoDup (Js.keys (assignments st)) ->
  NoDup (Js.keys (currentAssignments st)) ->
  forallb (fun r => (occurrences st r =? 1)%nat) roster = true ->
  well_located roster st.
Proof.
  intros Hka Hkc Hall. split; [exact Hka | split; [exact Hkc |]].
  intros r Hr. rewrite forallb_forall in Hall.
  apply Nat.eqb_eq. apply Hall. exact Hr.
Qed.

Lemma two_keys_distinct (a b : string) : String.eqb a b = false -> NoDup [a; b].
Proof.
  intros Hne. apply String.eqb_neq in Hne.
  constructor.
  - intros [H | []]. congruence.
  - constructor; [intros [] | constructor].
Qed.

(** C4 (as stated). Tutor A is at capacity with the new assignments 1,
    2 and 3; dropping student 1 on tutor A again is not refused: no alert
    is shown and the bucket is rewritten with student 1 at its end. *)
Lemma regrouping_at_capacity_is_not_refused :
  let result := handleDragEnd full_board (drop_on_a 1) in
  bucket_size (currentAssignments full_board) "a@x.com"
    + bucket_size (assignments full_board) "a@x.com" = 3 /\
  alert_of result = None /\
  assignments (state_of result) = [("a@x.com", [student_2; student_3; student_1])] /\
  ~ same_buckets full_board (state_of result).
Proof.
  split; [reflexivity | split; [reflexivity | split; [reflexivity |]]].
  intros (_ & Hassignments & _).
  vm_compute in Hassignments. discriminate.
Qed.

(** C4 (amended), on the same board: the unassigned student 4 dropped
    on tutor A is refused with the alert about capacity and nothing
    changes, while student 1, who is in the new-assignment bucket of
    tutor A, is dropped on tutor A without alert. *)
Lemma refused_move_changes_nothing_witness :
  let refused := handleDragEnd full_board (drop_on_a 4) in
  let regrouped := handleDragEnd full_board (drop_on_a 1) in
  (alert_of refused = Some alert_capacity /\ same_buckets full_board (state_of refused))
  /\ alert_of regrouped = None.
Proof.
  split.
  - destruct (BoardMoves.refused_move_changes_nothing full_board (IdNum 4) "a@x.com"
                tutor_a student_4 "unassigned") as (_ & Hfull & _);
      [discriminate | reflexivity | reflexivity |].
    apply Hfull; reflexivity.
  - destruct (BoardMoves.refused_move_changes_nothing full_board (IdNum 1) "a@x.com"
                tutor_a student_1 "a@x.com") as (_ & _ & Hroom);
      [discriminate | reflexivity | reflexivity |].
    apply Hroom; [reflexivity | vm_compute; discriminate].
Defined.

(** C10 (as stated). A tutor who is leaving but keeps the current
    students 1, 2 and 3: dropping student 1 on that tutor is refused with
    the alert about the status, not with the alert about capacity. *)
Lemma leaving_tutor_gives_status_alert :
  let result := handleDragEnd leaving_board (drop_on_leaving 1) in
  in_bucket (currentAssignments leaving_board) "l@x.com" (IdNum 1) = true /\
  bucket_size (currentAssignments leaving_board) "l@x.com"
    + bucket_size (assignments leaving_board) "l@x.com" = 3 /\
  alert_of result = Some alert_not_accepting /\
  alert_of result <> Some alert_capacity.
Proof.
  split; [reflexivity | split; [reflexivity | split; [reflexivity |]]].
  vm_compute. discriminate.
Qed.

(** C10 (amended), on the board where the active tutor A has the
    current students 1, 2 and 3: student 1 dropped on tutor A is refused
    with the alert about capacity. *)
Lemma current_student_dropped_on_own_tutor_witness :
  handleDragEnd current_board (drop_on_a 1)
  = Done (drag_cleared current_board) (Some alert_capacity).
Proof.
  apply (BoardMoves.current_student_dropped_on_own_tutor current_board 1 "a@x.com" tutor_a).
  - discriminate.
  - reflexivity.
  - reflexivity.
  - reflexivity.
  - reflexivity.
Defined.

(** C7. Tutor A is active, has no current students and was given
    students 1, 2 and 3 in this session; student 4 is unassigned.  The
    suggestions computed for this board propose student 4 for tutor A.
    Dropping student 4 on tutor A is refused with the capacity alert and
    changes no bucket, but accepting the suggestion shows no alert and
    puts student 4 into the new-assignment bucket of tutor A, which then
    holds 4 students.  Rejecting a suggestion changes no bucket on any
    board. *)
Theorem accepted_suggestion_skips_capacity_check :
  let st := handleSuggestAssignments full_board in
  (exists suggestion,
     tentativeAssignments st = [suggestion] /\
     Student.row_index (Matcher.student suggestion) = 4 /\
     Nrt.email (Matcher.nrt suggestion) = "a@x.com" /\
     alert_of (handleDragEnd st (drop_on_a 4)) = Some alert_capacity /\
     same_buckets st (state_of (handleDragEnd st (drop_on_a 4))) /\
     Js.get (assignments (handleAcceptAssignment st suggestion)) "a@x.com"
       = Some [student_1; student_2; student_3; student_4] /\
     bucket_size (assignments (handleAcceptAssignment st suggestion)) "a@x.com" = 4) /\
  (forall board suggestion, same_buckets board (handleRejectAssignment board suggestion)).
Proof.
  split.
  - eexists. split; [vm_compute; reflexivity |].
    vm_compute. repeat split.
  - intros board suggestion. apply BoardInvariant.handleRejectAssignment_buckets.
Qed.

End BoardCases.
(* ================================================================== *)
(** * The commit sequence: order, provenance and tolerated failures *)
(* ================================================================== *)

Module CommitMore.
Import Commit CommitSpec CommitFacts.

Section Requests.
Variable backend : Type.
Variable serve : backend -> call -> backend * response.

(** ** The order of the requests *)

(** The requests issued so far are kept, and the requests added are a
    list of [S] when the computation returns, and the beginning of a list
    of [S] when it throws. *)
Definition plays {A : Type} (S : list call -> Prop) (m : M backend A) : Prop :=
  forall b t, exists t',
    snd (snd (m (b, t))) = (t ++ t')%list
    /\ match fst (m (b, t)) with
       | Ok _ => S t'
       | Throw _ => exists rest, S (t' ++ rest)%list
       end.

(** A list of [S1] followed by a list of [S2]. *)
Definition followed_by (S1 S2 : list call -> Prop) : list call -> Prop :=
  fun t => exists t1 t2, t = (t1 ++ t2)%list /\ S1 t1 /\ S2 t2.

Lemma plays_weaken {A : Type} (P Q : list call -> Prop) (m : M backend A) :
  plays P m -> (forall t, P t -> Q t) -> plays Q m.
Proof.
  intros Hm HPQ b t. destruct (Hm b t) as (t' & Ht & HP).
  exists t'. split; [exact Ht |].
  destruct (fst (m (b, t))); [apply HPQ; exact HP |].
  destruct HP as (rest & HP). exists rest. apply HPQ. exact HP.
Qed.

Lemma plays_ret {A : Type} (a : A) : plays (eq []) (ret backend a).
Proof. intros b t. exists []. simpl. rewrite app_nil_r. split; reflexivity. Qed.

Lemma plays_await (c : call) : plays (eq [c]) (await backend serve c).
Proof.
  intros b t. exists [c]. unfold await.
  destruct (serve b c) as [b' [data | e]]; simpl; split; try reflexivity.
  exists []. reflexivity.
Qed.

Lemma plays_bind {A B : Type} (S1 S2 : list call -> Prop)
    (m : M backend A) (k : A -> M backend B) :
  plays S1 m -> (forall a, plays S2 (k a)) -> (exists l, S2 l) ->
  plays (followed_by S1 S2) (bind backend m k).
Proof.
  intros Hm Hk (l & Hl) b t. destruct (Hm b t) as (t1 & Ht1 & H1).
  unfold bind. destruct (m (b, t)) as [[a | e] [b1 tr1]]; simpl in Ht1, H1; subst tr1.
  - destruct (Hk a b1 (t ++ t1)%list) as (t2 & Ht2 & H2).
    exists (t1 ++ t2)%list. rewrite Ht2, app_assoc. split; [reflexivity |].
    destruct (fst (k a (b1, (t ++ t1)%list))).
    + exists t1, t2. auto.
    + destruct H2 as (rest & H2). exists rest, t1, (t2 ++ rest)%list.
      rewrite app_assoc. auto.
  - exists t1. simpl. split; [reflexivity |].
    destruct H1 as (rest & H1). exists (rest ++ l)%list, (t1 ++ rest)%list, l.
    rewrite app_assoc. auto.
Qed.

Lemma plays_done (c : call) : plays (eq [c]) (done backend (await backend serve c)).
Proof.
  apply (plays_weaken _ _ _
           (plays_bind (eq [c]) (eq []) _ _ (plays_await c) (fun _ => plays_ret tt)
              (ex_intro _ [] eq_refl))).
  intros t (t1 & t2 & -> & <- & <-). reflexivity.
Qed.

Lemma plays_when (b : bool) (l : list call) (m : M backend unit) :
  plays (eq l) m -> plays (eq (if b then l else [])) (when backend b m).
Proof. intros Hm. destruct b; [exact Hm | apply plays_ret]. Qed.

Lemma plays_for_of {X : Type} (G : X -> list call -> Prop) (l : list X)
    (body : X -> M backend unit) :
  (forall x, plays (G x) (body x)) -> (forall x, exists g, G x g) ->
  plays (fun t => exists groups, Forall2 G l groups /\ t = List.concat groups)
        (for_of backend l body).
Proof.
  intros Hbody Hsome. induction l as [| x l IH]; simpl.
  - apply (plays_weaken _ _ _ (plays_ret tt)).
    intros t <-. exists []. split; [constructor | reflexivity].
  - assert (exists t, exists groups, Forall2 G l groups /\ t = List.concat groups) as Hrest.
    { clear IH. induction l as [| y l IH].
      - exists [], []. split; [constructor | reflexivity].
      - destruct IH as (t & groups & Hg & ->). destruct (Hsome y) as (g & Hy).
        exists (g ++ List.concat groups)%list, (g :: groups). split; [constructor; assumption | reflexivity]. }
    apply (plays_weaken _ _ _ (plays_bind _ _ _ _ (Hbody x) (fun _ => IH) Hrest)).
    intros t (t1 & t2 & -> & H1 & groups & Hg & ->).
    exists (t1 :: groups). split; [constructor; assumption | reflexivity].
Qed.

Lemma concat_singletons {X : Type} (c : X -> call) (l : list X) (groups : list (list call)) :
  Forall2 (fun x g => g = [c x]) l groups -> List.concat groups = map c l.
Proof.
  intros H. induction H as [| x g l groups -> _ IH]; simpl; [reflexivity |].
  rewrite IH. reflexivity.
Qed.

Lemma plays_each {X : Type} (c : X -> call) (l : list X) :
  plays (eq (map c l)) (for_of backend l (fun x => done backend (await backend serve (c x)))).
Proof.
  apply (plays_weaken _ _ _
           (plays_for_of (fun x g => g = [c x]) l _
              (fun x => plays_weaken _ _ _ (plays_done (c x)) (fun t H => eq_sym H))
              (fun x => ex_intro _ [c x] eq_refl))).
  intros t (groups & Hg & ->). symmetry. apply concat_singletons. exact Hg.
Qed.

Lemma plays_update (u : status_update) :
  plays (update_group u)
    (bind backend (await backend serve NrtsGetAll) (fun nrts =>
      match find (fun n => Nrt.row_index n =? row_index u) nrts with
      | Some nrt =>
          if String.eqb (status u) "DELETE"
          then done backend (await backend serve (NrtsDelete (row_index u)))
          else done backend (await backend serve (NrtsUpdate (row_index u)
                       (Nrt.mk (Nrt.row_index nrt) (Nrt.name nrt) (Nrt.email nrt)
                               (status u) (Nrt.medical_interests nrt)
                               (Nrt.interested_in_research nrt)
                               (Nrt.interests_outside_medicine nrt))))
      | None => ret backend tt
      end)).
Proof.
  apply (plays_weaken (followed_by (eq [NrtsGetAll])
                         (fun t => t = [] \/ update_group u (NrtsGetAll :: t)))).
  - apply plays_bind; [apply plays_await | | exists []; left; reflexivity].
    intros nrts. destruct (find _ nrts) as [nrt |] eqn:Efind.
    + apply find_some in Efind. destruct Efind as [_ Erow]. apply Z.eqb_eq in Erow.
      destruct (String.eqb (status u) "DELETE") eqn:E.
      * apply (plays_weaken _ _ _ (plays_done _)). intros t <-. right.
        right. left. apply String.eqb_eq in E. auto.
      * apply (plays_weaken _ _ _ (plays_done _)). intros t <-. right.
        right. right. apply String.eqb_neq in E. split; [exact E |].
        eexists. split; [reflexivity | split; [exact Erow | reflexivity]].
    + apply (plays_weaken _ _ _ (plays_ret tt)). intros t <-. left. reflexivity.
  - intros t (t1 & t2 & -> & <- & [-> | H]); [left; reflexivity | exact H].
Qed.

Lemma plays_assign (d : workflowData) (assign : Js.num -> string -> call)
    (entries : Js.obj string) :
  plays (eq (due d assign entries)) (assign_all backend serve d assign entries).
Proof.
  unfold assign_all.
  set (G := fun (entry : string * string) (g : list call) =>
              g = if was_deleted d (Js.parseInt (fst entry)) then []
                  else [assign (Js.parseInt (fst entry)) (snd entry)]).
  apply (plays_weaken (fun t => exists groups, Forall2 G entries groups /\ t = List.concat groups)).
  - apply plays_for_of; [| intros entry; eexists; reflexivity].
    intros entry. unfold G. destruct (was_deleted d (Js.parseInt (fst entry))).
    { apply (plays_weaken _ _ _ (plays_ret tt)). intros t <-. reflexivity. }
    intros b t. exists [assign (Js.parseInt (fst entry)) (snd entry)].
    unfold try_catch, done, bind, await.
    destruct (serve b _) as [b' [data | e]]; simpl; [split; reflexivity |].
    destruct (is_not_found e); simpl; split; try reflexivity.
    exists []. reflexivity.
  - intros t (groups & Hg & ->). unfold due.
    induction Hg as [| entry g l groups Hentry _ IH]; simpl; [reflexivity |].
    rewrite <- IH. unfold G in Hentry. rewrite Hentry.
    destruct (was_deleted d (Js.parseInt (fst entry))); reflexivity.
Qed.

Lemma plays_export : plays (eq [SyncToSheets false]) (export_to_sheets backend serve).
Proof.
  intros b t. exists [SyncToSheets false].
  unfold export_to_sheets, try_catch, done, bind, await.
  destruct (serve b _) as [b' [data | e]]; simpl; split; reflexivity.
Qed.

Lemma followed_by_some (S1 S2 : list call -> Prop) :
  (exists l, S1 l) -> (exists l, S2 l) -> exists l, followed_by S1 S2 l.
Proof. intros (l1 & H1) (l2 & H2). exists (l1 ++ l2)%list, l1, l2. auto. Qed.

Lemma eq_some (l : list call) : exists l', l = l'.
Proof. exists l. reflexivity. Qed.

Lemma groups_some (l : list status_update) :
  exists t groups, Forall2 update_group l groups /\ t = List.concat groups.
Proof.
  induction l as [| u l (t & groups & Hg & ->)].
  - exists [], []. split; [constructor | reflexivity].
  - exists ([NrtsGetAll] ++ List.concat groups)%list, ([NrtsGetAll] :: groups).
    split; [constructor; [left; reflexivity | exact Hg] | reflexivity].
Qed.

Lemma plays_workflow_body (d : workflowData) :
  plays (fun t => exists groups,
           Forall2 update_group (updatedNRTs d) groups /\ t = planned d groups)
        (workflow_body backend serve d).
Proof.
  unfold workflow_body, apply_changes.
  eapply plays_weaken.
  - apply plays_bind.
    + apply plays_bind; [apply plays_each | intros _ |].
      * apply plays_bind; [apply plays_when, plays_done | intros _ |].
        -- apply plays_bind; [apply plays_each | intros _ |].
           ++ apply plays_bind; [| intros _; apply plays_when, plays_done | apply eq_some].
              apply (plays_for_of update_group); [intros u; apply plays_update |].
              intros u. exists [NrtsGetAll]. left. reflexivity.
           ++ apply followed_by_some; [apply groups_some | apply eq_some].
        -- apply followed_by_some; [apply eq_some |].
           apply followed_by_some; [apply groups_some | apply eq_some].
      * apply followed_by_some; [apply eq_some |].
        apply followed_by_some; [apply eq_some |].
        apply followed_by_some; [apply groups_some | apply eq_some].
    + intros _. apply plays_bind; [apply plays_assign | intros _ |].
      * apply plays_bind; [apply plays_assign | intros _; apply plays_when, plays_export
                          | apply eq_some].
      * apply followed_by_some; apply eq_some.
    + apply followed_by_some; [apply eq_some |]. apply followed_by_some; apply eq_some.
  - intros t (t15 & t68 & -> & H15 & H68).
    destruct H15 as (t1 & t25 & -> & <- & t2 & t35 & -> & <- & t3 & t45 & -> & <-
                     & t4 & t5 & -> & (groups & Hg & ->) & <-).
    destruct H68 as (t6 & t78 & -> & <- & t7 & t8 & -> & <- & <-).
    exists groups. split; [exact Hg |].
    unfold planned. rewrite <- !app_assoc. reflexivity.
Qed.

(** X17. The requests of [processWorkflow] come in the order of its eight
    steps, whatever the collaborator answers and wherever the sequence
    stops: they are the beginning (and, when the commit finishes, the
    whole) of the list made of the staged student deletions, the bulk
    addition of students, the staged NRT deletions, then for each status
    update the read of all NRTs followed by at most one deletion or
    update of that row, then the bulk addition of NRTs, the RT
    assignments and the NRT assignments of the students not staged for
    deletion, and last the export (never forced). *)
Theorem requests_follow_the_steps (d : workflowData) (b : backend) :
  exists groups rest,
    Forall2 update_group (updatedNRTs d) groups
    /\ planned d groups = (requests backend (processWorkflow backend serve d b) ++ rest)%list
    /\ (finished backend (processWorkflow backend serve d b) = true -> rest = []).
Proof.
  destruct (plays_workflow_body d b []) as (t' & Ht & Hplay).
  unfold processWorkflow, run.
  destruct (workflow_body backend serve d (b, [])) as [[u | e] [b' trace]];
    simpl in Ht, Hplay |- *; subst trace.
  - destruct Hplay as (groups & Hg & ->). exists groups, [].
    rewrite app_nil_r. auto.
  - destruct Hplay as (rest & groups & Hg & Hplan). exists groups, rest.
    split; [exact Hg |]. split; [symmetry; exact Hplan | discriminate].
Qed.
(** ** Every request comes from the staged batch *)

Lemma nonempty_length {X : Type} (l : list X) : (0 <? List.length l)%nat = true -> l <> [].
Proof. destruct l; [discriminate | discriminate]. Qed.

Lemma apply_changes_keeps (d : workflowData) (P : call -> Prop) :
  (forall c, staged d c -> is_assignment c = false -> is_export c = false -> P c) ->
  keeps backend P (apply_changes backend serve d).
Proof.
  intros HP. unfold apply_changes.
  apply keeps_bind.
  { apply keeps_for_of. intros student Hin. apply keeps_done, keeps_await.
    apply HP; [| reflexivity | reflexivity]. exists student. auto. }
  intros _. apply keeps_bind.
  { destruct (0 <? List.length (newStudents d))%nat eqn:E; [| apply keeps_ret].
    apply keeps_done, keeps_await. apply HP; [| reflexivity | reflexivity].
    split; [reflexivity | apply nonempty_length, E]. }
  intros _. apply keeps_bind.
  { apply keeps_for_of. intros nrt Hin. apply keeps_done, keeps_await.
    apply HP; [| reflexivity | reflexivity]. left. exists nrt. auto. }
  intros _. apply keeps_bind.
  { apply keeps_for_of. intros update Hin.
    apply keeps_bind.
    { apply keeps_await. apply HP; [| reflexivity | reflexivity].
      simpl. intros E. rewrite E in Hin. exact Hin. }
    intros nrts. destruct (find _ nrts) as [nrt |] eqn:Efind; [| apply keeps_ret].
    apply find_some in Efind. destruct Efind as [_ Erow]. apply Z.eqb_eq in Erow.
    destruct (String.eqb (status update) "DELETE") eqn:Edel;
      apply keeps_done, keeps_await; (apply HP; [| reflexivity | reflexivity]).
    - right. exists update. apply String.eqb_eq in Edel. auto.
    - exists update. apply String.eqb_neq in Edel. simpl. auto. }
  intros _.
  destruct (0 <? List.length (newNRTs d))%nat eqn:E; [| apply keeps_ret].
  apply keeps_done, keeps_await. apply HP; [| reflexivity | reflexivity].
  split; [reflexivity | apply nonempty_length, E].
Qed.

Lemma assign_all_staged (d : workflowData) (P : call -> Prop)
    (assign : Js.num -> string -> call) (entries : Js.obj string) :
  (forall key email, In (key, email) entries -> P (assign (Js.parseInt key) email)) ->
  keeps backend P (assign_all backend serve d assign entries).
Proof.
  intros Hassign. unfold assign_all.
  apply keeps_for_of. intros [key email] Hin. simpl.
  destruct (was_deleted d (Js.parseInt key)); [apply keeps_ret |].
  apply keeps_try_catch.
  - apply keeps_done, keeps_await. apply Hassign. exact Hin.
  - intros e. destruct (is_not_found e); [apply keeps_ret | apply keeps_throw].
Qed.

(** X18. Every request of [processWorkflow] comes from the staged batch,
    whatever the collaborator answers: a student or an NRT is deleted
    only if it is staged for deletion (or, for an NRT, staged with the
    status DELETE); a status update carries the row index read from the
    collaborator and the staged status; the bulk additions carry exactly
    the staged lists and are not requested for an empty list; an
    assignment is requested for the row index parsed from a key of the
    staged object, with the tutor staged under that key; the export is
    requested unforced and only when something is staged. *)
Theorem every_request_is_staged (d : workflowData) (b : backend) :
  Forall (staged d) (requests backend (processWorkflow backend serve d b)).
Proof.
  apply (keeps_run backend). unfold workflow_body.
  apply keeps_bind; [apply apply_changes_keeps; auto | intros _].
  apply keeps_bind.
  { apply assign_all_staged. intros key email Hin. exists key. auto. }
  intros _. apply keeps_bind.
  { apply assign_all_staged. intros key email Hin. exists key. auto. }
  intros _. destruct (hasChanges d) eqn:E; [| apply keeps_ret].
  unfold when, export_to_sheets.
  apply keeps_try_catch; [| intros _; apply keeps_ret].
  apply keeps_done, keeps_await. split; [reflexivity | exact E].
Qed.

(** ** The review step *)

(** X19. The review step ([handleApplyChanges]) requests nothing but the
    staged changes of steps 1 to 5 and, when the finishing callback was
    given, the unforced export: it never requests an RT or NRT
    assignment, whatever the batch holds and whatever the collaborator
    answers. *)
Theorem review_step_requests (onFinish : bool) (d : workflowData) (b : backend) :
  Forall (reviewed onFinish d)
         (requests backend (handleApplyChanges backend serve onFinish d b)).
Proof.
  unfold handleApplyChanges.
  destruct (negb (hasStagedChanges d)); [constructor |].
  apply (keeps_run backend).
  apply keeps_bind.
  - apply apply_changes_keeps. intros c Hs Ha He.
    destruct c; simpl in *; try discriminate; exact Hs.
  - intros _. destruct onFinish; [| apply keeps_ret].
    unfold when, export_to_sheets.
    apply keeps_try_catch; [| intros _; apply keeps_ret].
    apply keeps_done, keeps_await. split; reflexivity.
Qed.

(** ** The export *)

Lemma assign_all_no_export (d : workflowData) (assign : Js.num -> string -> call)
    (entries : Js.obj string) :
  (forall row email, is_export (assign row email) = false) ->
  keeps backend no_export (assign_all backend serve d assign entries).
Proof.
  intros Hassign. apply assign_all_staged. intros key email _. apply Hassign.
Qed.

Lemma export_outcome (b : backend) (t : list call) :
  exists b', export_to_sheets backend serve (b, t)
             = (Ok tt, (b', t ++ [SyncToSheets false])%list).
Proof.
  unfold export_to_sheets, try_catch, done, bind, await, ret.
  destruct (serve b (SyncToSheets false)) as [b' [data | e]]; exists b'; reflexivity.
Qed.

(** X20. The export to the spreadsheet closes the commit and cannot fail
    it.  Either the export is requested: then it is the last request,
    the only export request, unforced, something was staged, every step
    before it went through, and [onFinish] is called with no error shown
    whatever the collaborator answers to the export.  Or no export is
    requested: then a step failed or nothing was staged. *)
Theorem export_closes_the_commit (d : workflowData) (b : backend) :
  let r := processWorkflow backend serve d b in
  (exists before,
      requests backend r = (before ++ [SyncToSheets false])%list
      /\ Forall no_export before
      /\ hasChanges d = true
      /\ finished backend r = true
      /\ shown_error backend r = None)
  \/ (Forall no_export (requests backend r)
      /\ (finished backend r = false \/ hasChanges d = false)).
Proof.
  unfold processWorkflow, run, workflow_body, bind.
  destruct (apply_changes backend serve d (b, [])) as [[u1 | e1] w1] eqn:E1.
  2:{ right. destruct w1 as [b1 t1]. simpl. split; [| left; reflexivity].
      apply (apply_changes_keeps d no_export (fun c _ _ He => He) _ _ _ E1).
      constructor. }
  assert (Forall no_export (snd w1)) as H1.
  { apply (apply_changes_keeps d no_export (fun c _ _ He => He) _ _ _ E1). constructor. }
  destruct (assign_all backend serve d AssignRT (rtAssignments d) w1)
    as [[u2 | e2] w2] eqn:E2.
  2:{ right. destruct w2 as [b2 t2]. simpl. split; [| left; reflexivity].
      apply (assign_all_no_export d AssignRT _ (fun _ _ => eq_refl) _ _ _ E2 H1). }
  assert (Forall no_export (snd w2)) as H2.
  { apply (assign_all_no_export d AssignRT _ (fun _ _ => eq_refl) _ _ _ E2 H1). }
  destruct (assign_all backend serve d AssignNRT (nrtAssignments d) w2)
    as [[u3 | e3] w3] eqn:E3.
  2:{ right. destruct w3 as [b3 t3]. simpl. split; [| left; reflexivity].
      apply (assign_all_no_export d AssignNRT _ (fun _ _ => eq_refl) _ _ _ E3 H2). }
  assert (Forall no_export (snd w3)) as H3.
  { apply (assign_all_no_export d AssignNRT _ (fun _ _ => eq_refl) _ _ _ E3 H2). }
  destruct w3 as [b3 t3]. simpl in H3.
  destruct (hasChanges d) eqn:Ech; simpl.
  - left. destruct (export_outcome b3 t3) as (b4 & E4). rewrite E4. simpl.
    exists t3. auto.
  - right. split; [exact H3 | right; reflexivity].
Qed.

(** ** A collaborator that only answers "not found" to assignments *)

Lemma flat_map_filter {X : Type} (p : call -> bool) (g : X -> call) (l : list X) :
  flat_map (fun x => filter p [g x]) l = filter p (map g l).
Proof.
  induction l as [| x l IH]; [reflexivity |].
  cbn [flat_map map]. rewrite IH. simpl. destruct (p (g x)); reflexivity.
Qed.

Lemma flat_map_nil {X : Type} (l : list X) : flat_map (fun _ : X => @nil call) l = [].
Proof. induction l as [| x l IH]; simpl; [reflexivity | exact IH]. Qed.

Lemma due_cons (d : workflowData) (assign : Js.num -> string -> call)
    (k v : string) (entries : Js.obj string) :
  due d assign ((k, v) :: entries)
  = if was_deleted d (Js.parseInt k) then due d assign entries
    else assign (Js.parseInt k) v :: due d assign entries.
Proof. unfold due. simpl. destruct (was_deleted d (Js.parseInt k)); reflexivity. Qed.

Section Tolerated.
Hypothesis Htol : tolerated serve.

(** The requests of one kind, [p], that a computation adds. *)
Section Kind.
Variable p : call -> bool.

(** The computation goes through, and the requests of the kind that it
    adds are [f]. *)
Definition runs {A : Type} (f : list call) (m : M backend A) : Prop :=
  forall b t, exists a b' t',
    m (b, t) = (Ok a, (b', t ++ t')%list) /\ filter p t' = f.

Lemma runs_ret {A : Type} (a : A) : runs [] (ret backend a).
Proof. intros b t. exists a, b, []. unfold ret. rewrite app_nil_r. auto. Qed.

Lemma runs_bind {A B : Type} (f g : list call) (m : M backend A) (k : A -> M backend B) :
  runs f m -> (forall a, runs g (k a)) -> runs (f ++ g) (bind backend m k).
Proof.
  intros Hm Hk b t. destruct (Hm b t) as (a & b1 & t1 & E1 & F1).
  destruct (Hk a b1 (t ++ t1)%list) as (a2 & b2 & t2 & E2 & F2).
  exists a2, b2, (t1 ++ t2)%list. unfold bind. rewrite E1, E2, app_assoc.
  split; [reflexivity |]. rewrite filter_app, F1, F2. reflexivity.
Qed.

Lemma runs_await (c : call) :
  is_assignment c = false -> is_export c = false ->
  runs (filter p [c]) (await backend serve c).
Proof.
  intros Ha He b t. unfold await.
  destruct (serve b c) as [b' [data | e]] eqn:E.
  - exists data, b', [c]. auto.
  - exfalso. pose proof (Htol b c b' e E) as H.
    destruct c; simpl in *; try discriminate; exact H.
Qed.

Lemma runs_done (f : list call) (m : M backend (list Nrt.t)) :
  runs f m -> runs f (done backend m).
Proof.
  intros Hm. unfold done. rewrite <- (app_nil_r f).
  apply runs_bind; [exact Hm | intros _; apply runs_ret].
Qed.

Lemma runs_when (b : bool) (f : list call) (m : M backend unit) :
  runs f m -> runs (if b then f else []) (when backend b m).
Proof. intros Hm. destruct b; [exact Hm | apply runs_ret]. Qed.

Lemma runs_for_of {X : Type} (f : X -> list call) (l : list X) (body : X -> M backend unit) :
  (forall x, runs (f x) (body x)) -> runs (flat_map f l) (for_of backend l body).
Proof.
  intros Hbody. induction l as [| x l IH]; simpl.
  - apply runs_ret.
  - apply runs_bind; [apply Hbody | intros _; exact IH].
Qed.

(** The kind leaves out the requests of step 4, which depend on what
    the collaborator answers. *)
Hypothesis Hstep4 : forall c, in_step 4 c = true -> p c = false.

Lemma filter_step4 (c : call) : in_step 4 c = true -> filter p [c] = [].
Proof. intros H. simpl. rewrite (Hstep4 c H). reflexivity. Qed.

Lemma update_runs (update : status_update) :
  runs []
    (bind backend (await backend serve NrtsGetAll) (fun nrts =>
       match find (fun n => Nrt.row_index n =? row_index update) nrts with
       | Some nrt =>
           if String.eqb (status update) "DELETE"
           then done backend (await backend serve (NrtsDelete (row_index update)))
           else done backend (await backend serve (NrtsUpdate (row_index update)
                        (Nrt.mk (Nrt.row_index nrt) (Nrt.name nrt) (Nrt.email nrt)
                                (status update) (Nrt.medical_interests nrt)
                                (Nrt.interested_in_research nrt)
                                (Nrt.interests_outside_medicine nrt))))
       | None => ret backend tt
       end)).
Proof.
  apply (runs_bind [] []).
  - rewrite <- (filter_step4 NrtsGetAll eq_refl). apply runs_await; reflexivity.
  - intros nrts. destruct (find _ nrts) as [nrt |]; [| apply runs_ret].
    destruct (String.eqb _ _); apply runs_done.
    + rewrite <- (filter_step4 (NrtsDelete (row_index update)) eq_refl).
      apply runs_await; reflexivity.
    + match goal with
      | |- runs _ (await _ _ ?c) => rewrite <- (filter_step4 c eq_refl)
      end.
      apply runs_await; reflexivity.
Qed.

Lemma runs_apply_changes (d : workflowData) :
  runs (filter p (staged_requests d)) (apply_changes backend serve d).
Proof.
  unfold apply_changes, staged_requests. rewrite !filter_app.
  apply runs_bind.
  { rewrite <- flat_map_filter. apply runs_for_of.
    intros student. apply runs_done, runs_await; reflexivity. }
  intros _. apply runs_bind.
  { destruct (0 <? List.length (newStudents d))%nat; [| apply runs_ret].
    apply runs_done, runs_await; reflexivity. }
  intros _.
  rewrite <- (app_nil_l (filter p (if (0 <? List.length (newNRTs d))%nat then _ else _))).
  apply runs_bind.
  { rewrite <- flat_map_filter. apply runs_for_of.
    intros nrt. apply runs_done, runs_await; reflexivity. }
  intros _. apply runs_bind.
  { rewrite <- (flat_map_nil (updatedNRTs d)). apply runs_for_of.
    intros update. apply update_runs. }
  intros _. destruct (0 <? List.length (newNRTs d))%nat; [| apply runs_ret].
  apply runs_done, runs_await; reflexivity.
Qed.

(** An assignment that is answered "not found" is skipped and the loop
    goes on with the next entry. *)
Lemma runs_assign_all (d : workflowData) (assign : Js.num -> string -> call)
    (entries : Js.obj string) :
  assign = AssignRT \/ assign = AssignNRT ->
  runs (filter p (due d assign entries)) (assign_all backend serve d assign entries).
Proof.
  intros Hassign.
  induction entries as [| [key email] entries IH]; [apply runs_ret |].
  rewrite due_cons. unfold assign_all in *. cbn [for_of fst snd].
  destruct (was_deleted d (Js.parseInt key)) eqn:Edel.
  - rewrite <- (app_nil_l (filter p _)).
    apply runs_bind; [apply runs_ret | intros _; exact IH].
  - set (c := assign (Js.parseInt key) email).
    change (c :: due d assign entries) with ([c] ++ due d assign entries)%list.
    rewrite filter_app.
    apply runs_bind; [| intros _; exact IH].
    intros b t. unfold try_catch, done, bind, await, ret.
    destruct (serve b c) as [b' [data | e]] eqn:E.
    + exists tt, b', [c]. auto.
    + pose proof (Htol b c b' e E) as Hnf.
      assert (is_not_found e = true) as ->
        by (subst c; destruct Hassign as [-> | ->]; exact Hnf).
      exists tt, b', [c]. auto.
Qed.

Lemma runs_export : runs (filter p [SyncToSheets false]) (export_to_sheets backend serve).
Proof.
  intros b t. destruct (export_outcome b t) as (b' & E).
  exists tt, b', [SyncToSheets false]. auto.
Qed.

Lemma runs_workflow_body (d : workflowData) :
  runs (filter p (staged_requests d)
        ++ filter p (due d AssignRT (rtAssignments d))
        ++ filter p (due d AssignNRT (nrtAssignments d))
        ++ (if hasChanges d then filter p [SyncToSheets false] else []))
       (workflow_body backend serve d).
Proof.
  unfold workflow_body.
  apply runs_bind; [apply runs_apply_changes | intros _].
  apply runs_bind; [apply runs_assign_all; left; reflexivity | intros _].
  apply runs_bind; [apply runs_assign_all; right; reflexivity | intros _].
  apply runs_when, runs_export.
Qed.
End Kind.

Lemma no_assignment_staged (d : workflowData) : filter is_assignment (staged_requests d) = [].
Proof.
  unfold staged_requests. rewrite !filter_app.
  assert (forall {X : Type} (g : X -> call) (l : list X),
             (forall x, is_assignment (g x) = false) ->
             filter is_assignment (map g l) = []) as Hmap.
  { intros X g l Hg. induction l as [| x l IH]; simpl; [reflexivity |].
    rewrite Hg. exact IH. }
  rewrite !Hmap by reflexivity.
  destruct (0 <? List.length (newStudents d))%nat;
    destruct (0 <? List.length (newNRTs d))%nat; reflexivity.
Qed.

Lemma due_are_assignments (d : workflowData) (assign : Js.num -> string -> call)
    (entries : Js.obj string) :
  assign = AssignRT \/ assign = AssignNRT ->
  filter is_assignment (due d assign entries) = due d assign entries.
Proof.
  intros Hassign. unfold due.
  induction (filter _ entries) as [| e l IH]; simpl; [reflexivity |].
  rewrite IH. destruct Hassign as [-> | ->]; reflexivity.
Qed.

(** The assignment requests of the whole commit. *)
Lemma assignments_of_workflow_body (d : workflowData) :
  runs is_assignment
       (due d AssignRT (rtAssignments d) ++ due d AssignNRT (nrtAssignments d))
       (workflow_body backend serve d).
Proof.
  intros b t.
  destruct (runs_workflow_body is_assignment
              (fun c H => match c return in_step 4 c = true -> is_assignment c = false with
                          | AssignRT _ _ | AssignNRT _ _ => fun H' => match Bool.diff_false_true H' with end
                          | _ => fun _ => eq_refl
                          end H) d b t)
    as (u & b' & t' & E & F).
  exists u, b', t'. split; [exact E |].
  rewrite F, no_assignment_staged, !due_are_assignments by auto.
  destruct (hasChanges d); simpl; rewrite app_nil_r; reflexivity.
Qed.

(** X21. Against a collaborator that rejects no request but the export,
    and an assignment only with the answer 404 "not found", the commit
    goes through: [onFinish] is called, no error is shown, and the
    assignment requests issued are exactly one RT assignment per entry
    of [rtAssignments] and then one NRT assignment per entry of
    [nrtAssignments], in the order of the entries, leaving out the
    students staged for deletion.  An assignment answered "not found"
    is skipped without ending the loop. *)
Theorem not_found_is_skipped (d : workflowData) (b : backend) :
  let r := processWorkflow backend serve d b in
  finished backend r = true
  /\ shown_error backend r = None
  /\ filter is_assignment (requests backend r)
     = (due d AssignRT (rtAssignments d) ++ due d AssignNRT (nrtAssignments d))%list.
Proof.
  destruct (assignments_of_workflow_body d b []) as (u & b' & t' & E & F).
  unfold processWorkflow, run. rewrite E. simpl.
  repeat split. exact F.
Qed.

End Tolerated.

(** ** How the commit fails *)

Section Failing.
Variable G : call -> error -> Prop.

(** If the computation throws, it throws the rejection of the request
    it issued last, and that rejection satisfies [G]. *)
Definition failing {A : Type} (m : M backend A) : Prop :=
  forall b t e b' t', m (b, t) = (Throw e, (b', t')) ->
    exists before c b0,
      t' = (before ++ [c])%list /\ serve b0 c = (b', Rejected e) /\ G c e.

Lemma failing_ret {A : Type} (a : A) : failing (ret backend a).
Proof. intros b t e b' t' H. discriminate. Qed.

Lemma failing_bind {A B : Type} (m : M backend A) (k : A -> M backend B) :
  failing m -> (forall a, failing (k a)) -> failing (bind backend m k).
Proof.
  intros Hm Hk b t e b' t' H. unfold bind in H.
  destruct (m (b, t)) as [[a | e1] [b1 t1]] eqn:E1.
  - apply (Hk a b1 t1 e b' t' H).
  - injection H as <- <- <-. apply (Hm b t e1 b1 t1 E1).
Qed.

Lemma failing_await (c : call) : (forall e, G c e) -> failing (await backend serve c).
Proof.
  intros HG b t e b' t' H. unfold await in H.
  destruct (serve b c) as [b1 [data | e1]] eqn:E; [discriminate |].
  injection H as <- <- <-. exists t, c, b. auto.
Qed.

Lemma failing_done (m : M backend (list Nrt.t)) : failing m -> failing (done backend m).
Proof. intros Hm. apply failing_bind; [exact Hm | intros _; apply failing_ret]. Qed.

Lemma failing_when (b : bool) (m : M backend unit) : failing m -> failing (when backend b m).
Proof. intros Hm. destruct b; [exact Hm | apply failing_ret]. Qed.

Lemma failing_for_of {X : Type} (l : list X) (body : X -> M backend unit) :
  (forall x, failing (body x)) -> failing (for_of backend l body).
Proof.
  intros Hbody. induction l as [| x l IH]; simpl.
  - apply failing_ret.
  - apply failing_bind; [apply Hbody | intros _; exact IH].
Qed.
End Failing.

Lemma failing_apply_changes (d : workflowData) :
  failing fatal (apply_changes backend serve d).
Proof.
  unfold apply_changes.
  apply failing_bind.
  { apply failing_for_of. intros student. apply failing_done, failing_await.
    intros e. split; [reflexivity | discriminate]. }
  intros _. apply failing_bind.
  { apply failing_when, failing_done, failing_await.
    intros e. split; [reflexivity | discriminate]. }
  intros _. apply failing_bind.
  { apply failing_for_of. intros nrt. apply failing_done, failing_await.
    intros e. split; [reflexivity | discriminate]. }
  intros _. apply failing_bind.
  { apply failing_for_of. intros update. apply failing_bind.
    { apply failing_await. intros e. split; [reflexivity | discriminate]. }
    intros nrts. destruct (find _ nrts); [| apply failing_ret].
    destruct (String.eqb _ _); apply failing_done, failing_await;
      intros e; (split; [reflexivity | discriminate]). }
  intros _. apply failing_when, failing_done, failing_await.
  intros e. split; [reflexivity | discriminate].
Qed.

Lemma failing_assign_all (d : workflowData) (assign : Js.num -> string -> call)
    (entries : Js.obj string) :
  (forall row email, is_export (assign row email) = false) ->
  failing fatal (assign_all backend serve d assign entries).
Proof.
  intros Hassign. unfold assign_all. apply failing_for_of. intros entry.
  destruct (was_deleted d (Js.parseInt (fst entry))); [apply failing_ret |].
  intros b t e b' t' H. unfold try_catch, done, bind, await, ret in H.
  destruct (serve b (assign (Js.parseInt (fst entry)) (snd entry)))
    as [b1 [data | e1]] eqn:E; [discriminate |].
  destruct (is_not_found e1) eqn:Enf; [discriminate |].
  unfold throw in H. injection H as <- <- <-.
  exists t, (assign (Js.parseInt (fst entry)) (snd entry)), b.
  repeat split; auto.
Qed.

(** X22. [processWorkflow] fails only on a rejected request.  When
    [onFinish] is not called, the request issued last was rejected by
    the collaborator; it is not the export, and if it is an assignment
    the answer was not 404 "not found"; the error shown is the message of
    that rejection, or "Error processing workflow" when it carries
    none. *)
Theorem failure_is_a_rejected_request (d : workflowData) (b : backend) :
  let r := processWorkflow backend serve d b in
  finished backend r = false ->
  exists before c b0 e,
    requests backend r = (before ++ [c])%list
    /\ serve b0 c = (backend_after backend r, Rejected e)
    /\ fatal c e
    /\ shown_error backend r = Some (error_text e "Error processing workflow").
Proof.
  assert (failing fatal (workflow_body backend serve d)) as Hbody.
  { unfold workflow_body.
    apply failing_bind; [apply failing_apply_changes | intros _].
    apply failing_bind; [apply failing_assign_all; reflexivity | intros _].
    apply failing_bind; [apply failing_assign_all; reflexivity | intros _].
    apply failing_when. intros b1 t1 e b' t' H.
    destruct (export_outcome b1 t1) as (b2 & E). rewrite E in H. discriminate. }
  unfold processWorkflow, run.
  destruct (workflow_body backend serve d (b, [])) as [[u | e] [b' t']] eqn:E; simpl.
  - discriminate.
  - intros _. destruct (Hbody b [] e b' t' E) as (before & c & b0 & Ht & Hs & HG).
    exists before, c, b0, e. auto.
Qed.

End Requests.

End CommitMore.

(* ================================================================== *)
(** * The matcher: where suggestions come from, who is left out, order *)
(* ================================================================== *)

Module MatcherMore.
Import Matcher MatcherSpec.

(** ** Every suggestion comes from the inputs *)

Lemma walk_step_origin (w : walk) (p : scored) (a : suggestion) :
  In a (assignments (walk_step w p)) -> In a (assignments w) \/ a = suggestion_of p.
Proof.
  unfold walk_step.
  destruct (existsb _ (assignedStudents w)); [auto |].
  destruct (at_least_3 _); [auto |].
  simpl. rewrite in_app_iff. simpl. intros [H | [H | []]]; [auto |].
  right. symmetry. exact H.
Qed.

Lemma walk_origin (l : list scored) (w : walk) (a : suggestion) :
  In a (assignments (fold_left walk_step l w)) ->
  In a (assignments w) \/ exists p, In p l /\ a = suggestion_of p.
Proof.
  revert w. induction l as [| p l IH]; intros w; simpl.
  - auto.
  - intros H. destruct (IH _ H) as [Hw | (q & Hq & Ha)].
    + destruct (walk_step_origin _ _ _ Hw) as [H0 | H0]; [auto |].
      right. exists p. auto.
    + right. exists q. auto.
Qed.

Lemma isAvailable_active (cur : Js.obj (list Student.t)) (n : Nrt.t) :
  isAvailable cur n = true -> Nrt.status n = "active".
Proof.
  unfold isAvailable.
  destruct (String.eqb (Nrt.status n) "active") eqn:E; [| simpl; discriminate].
  intros _. apply String.eqb_eq. exact E.
Qed.

(** Every entry of the returned list was made of a student of the input
    and an available NRT. *)
Lemma generated_pairs
    (students : list Student.t) (nrts : list Nrt.t) (cur : Js.obj (list Student.t))
    (a : suggestion) :
  In a (generateOptimalAssignments students nrts cur) ->
  exists s n, In s students /\ In n (filter (isAvailable cur) nrts)
              /\ a = {| student := s; nrt := n;
                        similarity := Scorer.calculateSimilarity s n |}.
Proof.
  unfold generateOptimalAssignments.
  destruct ((List.length (filter (isAvailable cur) nrts) =? 0)%nat
            || (List.length students =? 0)%nat); [intros [] |].
  intros Ha.
  apply (Permutation_in _ (JsFacts.sort_perm _ _)) in Ha.
  apply walk_origin in Ha. destruct Ha as [[] | (p & Hp & ->)].
  apply (Permutation_in _ (JsFacts.sort_perm _ _)) in Hp.
  unfold all_pairs in Hp. apply in_flat_map in Hp. destruct Hp as (s & Hs & Hp).
  apply in_map_iff in Hp. destruct Hp as (n & <- & Hn).
  exists s, n. auto.
Qed.

(** X1. Every entry of the list returned by [generateOptimalAssignments]
    pairs a student of the input with an NRT of the input whose status is
    'active' and that has fewer than 3 current students, and carries
    [calculateSimilarity] of the two. *)
Theorem suggestions_come_from_inputs
    (students : list Student.t) (nrts : list Nrt.t) (cur : Js.obj (list Student.t)) :
  Forall (from_inputs students nrts cur) (generateOptimalAssignments students nrts cur).
Proof.
  apply Forall_forall. intros a Ha.
  destruct (generated_pairs _ _ _ _ Ha) as (s & n & Hs & Hn & ->).
  apply filter_In in Hn. destruct Hn as [Hn Hav].
  unfold from_inputs. simpl.
  repeat split; try assumption.
  - apply isAvailable_active with cur. exact Hav.
  - apply MatcherFacts.isAvailable_count. exact Hav.
Qed.

(** The row indices of the returned list are distinct. *)
Lemma generated_rows_distinct
    (students : list Student.t) (nrts : list Nrt.t) (cur : Js.obj (list Student.t)) :
  NoDup (suggested_rows (generateOptimalAssignments students nrts cur)).
Proof.
  unfold generateOptimalAssignments.
  destruct ((List.length (filter (isAvailable cur) nrts) =? 0)%nat
            || (List.length students =? 0)%nat); [constructor |].
  destruct (MatcherFacts.generated_invariant students nrts cur) as [Hnd _ _ _].
  eapply Permutation_NoDup; [| exact Hnd].
  unfold suggested_rows. apply Permutation_map, Permutation_sym, JsFacts.sort_perm.
Qed.

(** A tutor with an entry in the returned list has at most 3 students,
    current and suggested together. *)
Lemma generated_within_capacity
    (students : list Student.t) (nrts : list Nrt.t) (cur : Js.obj (list Student.t))
    (email : string) :
  let suggested := generateOptimalAssignments students nrts cur in
  0 <= entries_for email suggested /\
  (entries_for email suggested = 0 \/ currentCount cur email + entries_for email suggested <= 3).
Proof.
  intros suggested. subst suggested. unfold generateOptimalAssignments.
  destruct ((List.length (filter (isAvailable cur) nrts) =? 0)%nat
            || (List.length students =? 0)%nat).
  { unfold entries_for. simpl. lia. }
  destruct (MatcherFacts.generated_invariant students nrts cur) as [_ _ Hcnt Hoth].
  set (final := fold_left walk_step _ _) in *.
  assert (entries_for email (Js.sort (later_student students) (assignments final))
          = entries_for email (assignments final)) as ->.
  { unfold entries_for. rewrite JsFacts.sort_filter_length. reflexivity. }
  split; [apply MatcherFacts.entries_for_nonneg |].
  destruct (in_dec string_dec email (map Nrt.email (filter (isAvailable cur) nrts)))
    as [Hin | Hnin].
  - destruct (Hcnt _ Hin) as (c & _ & Hc & Hle). right. lia.
  - left. apply Hoth, Hnin.
Qed.

(** ** Nobody is left out while a tutor has room *)

Section LeftOut.
Variable cur : Js.obj (list Student.t).
Variable available : list string.

(** The pair was seen by the walk: its student has an entry, or its tutor
    is full. *)
Definition settled (w : walk) (p : scored) : Prop :=
  In (Student.row_index (sc_student p)) (suggested_rows (assignments w))
  \/ exists c, Js.get (nrtCounts w) (Nrt.email (sc_nrt p)) = Some (Js.Num c) /\ 3 <= c.

(** [assignedStudents] holds the row indices of the entries only. *)
Definition recorded_are_rows (w : walk) : Prop :=
  forall r, In r (assignedStudents w) -> In r (suggested_rows (assignments w)).

Lemma walk_step_recorded (w : walk) (p : scored) :
  recorded_are_rows w -> recorded_are_rows (walk_step w p).
Proof.
  intros Hrec. unfold walk_step.
  destruct (existsb _ (assignedStudents w)); [exact Hrec |].
  destruct (at_least_3 _); [exact Hrec |].
  intros r. simpl. rewrite MatcherFacts.suggested_rows_snoc, in_app_iff. simpl.
  intros [H | H]; [right; left; exact H | left; apply Hrec, H].
Qed.

Lemma walk_step_settles (w : walk) (p : scored) :
  MatcherFacts.invariant cur available w -> recorded_are_rows w ->
  In (Nrt.email (sc_nrt p)) available ->
  settled (walk_step w p) p.
Proof.
  intros Hinv Hrec Hav. unfold walk_step, settled.
  destruct (existsb (Z.eqb (Student.row_index (sc_student p))) (assignedStudents w)) eqn:Hseen.
  { left. apply Hrec. apply existsb_exists in Hseen.
    destruct Hseen as (r & Hr & Heq). apply Z.eqb_eq in Heq. subst r. exact Hr. }
  destruct (MatcherFacts.counts_exact _ _ _ Hinv _ Hav) as (c & Hget & _ & _).
  rewrite Hget. simpl.
  destruct (3 <=? c) eqn:Hfull.
  { right. exists c. split; [exact Hget | apply Z.leb_le, Hfull]. }
  left. simpl. rewrite MatcherFacts.suggested_rows_snoc, in_app_iff. simpl. auto.
Qed.

Lemma walk_step_keeps_settled (w : walk) (p q : scored) :
  MatcherFacts.invariant cur available w ->
  In (Nrt.email (sc_nrt p)) available ->
  settled w q -> settled (walk_step w p) q.
Proof.
  intros Hinv Hav Hq. unfold walk_step.
  destruct (existsb _ (assignedStudents w)); [exact Hq |].
  destruct (MatcherFacts.counts_exact _ _ _ Hinv _ Hav) as (c & Hget & _ & _).
  rewrite Hget. simpl.
  destruct (3 <=? c) eqn:Hfull; [exact Hq |].
  destruct Hq as [Hrow | (c' & Hget' & Hle)]; unfold settled; simpl.
  - left. rewrite MatcherFacts.suggested_rows_snoc, in_app_iff. auto.
  - right. rewrite JsFacts.get_set.
    destruct (String.eqb (Nrt.email (sc_nrt p)) (Nrt.email (sc_nrt q))) eqn:E.
    + apply String.eqb_eq in E. rewrite <- E, Hget in Hget'.
      injection Hget' as <-. exists (c + 1). split; [reflexivity | lia].
    + exists c'. auto.
Qed.

Lemma walk_settles_all (l : list scored) (w : walk) :
  MatcherFacts.invariant cur available w -> recorded_are_rows w ->
  Forall (fun p => In (Nrt.email (sc_nrt p)) available) l ->
  let final := fold_left walk_step l w in
  MatcherFacts.invariant cur available final /\
  (forall q, settled w q -> settled final q) /\
  (forall p, In p l -> settled final p).
Proof.
  revert w. induction l as [| p l IH]; intros w Hinv Hrec Hall; simpl.
  - split; [exact Hinv | split; [auto | intros p []]].
  - inversion Hall as [| ? ? Hp Hl]; subst.
    assert (MatcherFacts.invariant cur available (walk_step w p)) as Hinv'
      by (apply MatcherFacts.walk_step_invariant; assumption).
    destruct (IH (walk_step w p) Hinv' (walk_step_recorded _ _ Hrec) Hl)
      as (Hfinal & Hkeep & Hdone).
    split; [exact Hfinal | split].
    + intros q Hq. apply Hkeep. apply walk_step_keeps_settled; assumption.
    + intros q [<- | Hq]; [| apply Hdone, Hq].
      apply Hkeep. apply walk_step_settles; assumption.
Qed.
End LeftOut.

(** X2. A student of the input gets no suggestion only when every active NRT
    with fewer than 3 current students ends with exactly 3 students,
    current and suggested together: for every student and every such NRT
    of the input, the student has an entry in the returned list or the
    NRT is full. *)
Theorem left_out_only_when_tutors_are_full
    (students : list Student.t) (nrts : list Nrt.t) (cur : Js.obj (list Student.t))
    (s : Student.t) (n : Nrt.t) :
  In s students -> In n nrts -> isAvailable cur n = true ->
  let suggested := generateOptimalAssignments students nrts cur in
  In (Student.row_index s) (suggested_rows suggested)
  \/ currentCount cur (Nrt.email n) + entries_for (Nrt.email n) suggested = 3.
Proof.
  intros Hs Hn Hav suggested. subst suggested. unfold generateOptimalAssignments.
  assert (In n (filter (isAvailable cur) nrts)) as Hn'
    by (apply filter_In; split; assumption).
  destruct (List.length (filter (isAvailable cur) nrts) =? 0)%nat eqn:E1.
  { apply Nat.eqb_eq in E1. destruct (filter (isAvailable cur) nrts); [destruct Hn' | discriminate]. }
  destruct (List.length students =? 0)%nat eqn:E2.
  { apply Nat.eqb_eq in E2. destruct students; [destruct Hs | discriminate]. }
  simpl orb. cbv iota.
  set (availableNrts := filter (isAvailable cur) nrts) in *.
  set (scores := Js.sort lower_score (all_pairs students availableNrts cur)).
  set (start := {| assignments := []; assignedStudents := [];
                   nrtCounts := initial_counts availableNrts cur |}).
  assert (Forall (fun p => In (Nrt.email (sc_nrt p)) (map Nrt.email availableNrts)) scores)
    as Hemails.
  { apply Forall_forall. intros p Hp.
    pose proof (MatcherFacts.all_pairs_emails students availableNrts cur) as Hall.
    rewrite Forall_forall in Hall. apply Hall.
    apply (Permutation_in _ (JsFacts.sort_perm lower_score _)). exact Hp. }
  assert (MatcherFacts.invariant cur (map Nrt.email availableNrts) start) as Hstart.
  { apply MatcherFacts.start_invariant. apply Forall_forall. intros m Hm.
    apply filter_In in Hm. tauto. }
  assert (recorded_are_rows start) as Hrec by (intros r []).
  destruct (walk_settles_all cur _ scores start Hstart Hrec Hemails) as (Hfinal & _ & Hdone).
  set (final := fold_left walk_step scores start) in *.
  set (p := {| sc_student := s; sc_nrt := n;
               sc_similarity := Scorer.calculateSimilarity s n;
               remainingCapacity := 3 - currentCount cur (Nrt.email n) |}).
  assert (In p scores) as Hp.
  { apply (Permutation_in _ (Permutation_sym (JsFacts.sort_perm lower_score _))).
    unfold all_pairs. apply in_flat_map. exists s. split; [exact Hs |].
    apply in_map_iff. exists n. split; [reflexivity | exact Hn']. }
  destruct (Hdone p Hp) as [Hrow | (c & Hget & Hle)].
  - left. unfold suggested_rows in *.
    apply (Permutation_in _ (Permutation_map _ (Permutation_sym (JsFacts.sort_perm _ _)))).
    exact Hrow.
  - right.
    assert (entries_for (Nrt.email n) (Js.sort (later_student students) (assignments final))
            = entries_for (Nrt.email n) (assignments final)) as ->.
    { unfold entries_for. rewrite JsFacts.sort_filter_length. reflexivity. }
    destruct (MatcherFacts.counts_exact _ _ _ Hfinal (Nrt.email n)) as (c' & Hget' & Hc' & Hle').
    { apply in_map. exact Hn'. }
    simpl in Hget. rewrite Hget in Hget'. injection Hget' as <-. lia.
Qed.

(** ** The suggestions are in the order of the students *)

Section SortedByKey.
Context {A : Type}.
Variable key : A -> Z.
Variable after : A -> A -> bool.

Lemma insert_sorted_by_key (x : A) (l : list A) :
  (forall a b, In a (x :: l) -> In b (x :: l) -> after a b = (key b <? key a)) ->
  StronglySorted (fun a b => key a <= key b) l ->
  StronglySorted (fun a b => key a <= key b) (Js.insert_sorted after x l).
Proof.
  intros Hafter Hsorted.
  induction Hsorted as [| y l Hl IH Hy]; simpl.
  - constructor; constructor.
  - rewrite (Hafter x y) by (simpl; auto).
    destruct (key y <? key x) eqn:E.
    + apply Z.ltb_lt in E. constructor.
      * apply IH. intros a b Ha Hb. apply Hafter; simpl in *; tauto.
      * apply Forall_forall. intros z Hz.
        apply (Permutation_in _ (JsFacts.insert_sorted_perm after x l)) in Hz.
        destruct Hz as [<- | Hz]; [lia |].
        rewrite Forall_forall in Hy. apply Hy, Hz.
    + apply Z.ltb_ge in E. constructor.
      * constructor; assumption.
      * constructor; [exact E |].
        rewrite Forall_forall in Hy. apply Forall_forall. intros z Hz.
        specialize (Hy z Hz). lia.
Qed.

Lemma sort_sorted_by_key (l : list A) :
  (forall a b, In a l -> In b l -> after a b = (key b <? key a)) ->
  StronglySorted (fun a b => key a <= key b) (Js.sort after l).
Proof.
  induction l as [| x l IH]; intros Hafter; simpl.
  - constructor.
  - apply insert_sorted_by_key.
    + intros a b Ha Hb. apply Hafter.
      * destruct Ha as [<- | Ha]; [left; reflexivity | right].
        apply (Permutation_in _ (JsFacts.sort_perm after l)). exact Ha.
      * destruct Hb as [<- | Hb]; [left; reflexivity | right].
        apply (Permutation_in _ (JsFacts.sort_perm after l)). exact Hb.
    + apply IH. intros a b Ha Hb. apply Hafter; right; assumption.
Qed.

Lemma sorted_distinct_strict (l : list A) :
  NoDup (map key l) ->
  StronglySorted (fun a b => key a <= key b) l ->
  StronglySorted (fun a b => key a < key b) l.
Proof.
  intros Hnd Hsorted.
  induction Hsorted as [| y l Hl IH Hy]; [constructor |].
  simpl in Hnd. inversion Hnd as [| ? ? Hnotin Hnd']; subst.
  constructor; [apply IH, Hnd' |].
  rewrite Forall_forall in Hy. apply Forall_forall. intros z Hz.
  specialize (Hy z Hz).
  assert (key y <> key z) by (intros Heq; apply Hnotin; rewrite Heq; apply in_map, Hz).
  lia.
Qed.
End SortedByKey.

Lemma studentOrder_from_some (students : list Student.t) (k j row : Z) :
  studentOrder_from k students row = Some j ->
  exists s, In s students /\ Student.row_index s = row.
Proof.
  revert k j. induction students as [| y rest IH]; intros k j; simpl; [discriminate |].
  destruct (studentOrder_from (k + 1) rest row) eqn:E.
  - intros _. destruct (IH _ _ E) as (s0 & H0 & H1). exists s0. auto.
  - destruct (Student.row_index y =? row) eqn:Ey; [| discriminate].
    intros _. exists y. split; [left; reflexivity | apply Z.eqb_eq, Ey].
Qed.

(** The [Map] from row index to position knows every student of the
    input, and the position it gives holds a student with that row
    index. *)
Lemma studentOrder_from_found (students : list Student.t) (k row : Z) :
  (exists s, In s students /\ Student.row_index s = row) ->
  exists i s', studentOrder_from k students row = Some i
               /\ k <= i < k + Z.of_nat (List.length students)
               /\ nth_error students (Z.to_nat (i - k)) = Some s'
               /\ Student.row_index s' = row.
Proof.
  revert k. induction students as [| x rest IH]; intros k (s & Hin & Hs); [destruct Hin |].
  simpl studentOrder_from.
  destruct (studentOrder_from (k + 1) rest row) as [j |] eqn:Erest.
  - destruct (IH (k + 1) (studentOrder_from_some _ _ _ _ Erest))
      as (i & s' & Hi & Hrange & Hnth & Hrow).
    rewrite Erest in Hi. injection Hi as <-.
    exists j, s'. split; [reflexivity |]. simpl List.length.
    split; [lia |]. split; [| exact Hrow].
    replace (Z.to_nat (j - k)) with (S (Z.to_nat (j - (k + 1)))) by lia.
    exact Hnth.
  - destruct Hin as [-> | Hin].
    + rewrite Hs, Z.eqb_refl. exists k, s. simpl List.length.
      split; [reflexivity |]. split; [lia |].
      rewrite Z.sub_diag. simpl. auto.
    + destruct (IH (k + 1)) as (i & s' & Hi & _); [exists s; auto | congruence].
Qed.

(** X3. The list returned by [generateOptimalAssignments] is in the order of
    the input students: the positions of the students of its entries (for
    a row index that occurs twice, the position of its last student) are
    strictly increasing, and each is the position of a student with the
    row index of the entry. *)
Theorem suggestions_in_student_order
    (students : list Student.t) (nrts : list Nrt.t) (cur : Js.obj (list Student.t)) :
  let suggested := generateOptimalAssignments students nrts cur in
  StronglySorted (fun a b => position students a < position students b) suggested
  /\ Forall (fun a => exists s,
               nth_error students (Z.to_nat (position students a)) = Some s
               /\ 0 <= position students a
               /\ Student.row_index s = Student.row_index (student a)) suggested.
Proof.
  intros suggested.
  assert (forall a, In a suggested -> In (student a) students) as Hfrom.
  { intros a Ha. destruct (generated_pairs _ _ _ _ Ha) as (s & n & Hs & _ & ->). exact Hs. }
  assert (forall a, In a suggested ->
            exists i s, studentOrder_from 0 students (Student.row_index (student a)) = Some i
                        /\ 0 <= i
                        /\ nth_error students (Z.to_nat i) = Some s
                        /\ Student.row_index s = Student.row_index (student a)) as Hpos.
  { intros a Ha. pose proof (Hfrom a Ha) as Hs.
    destruct (studentOrder_from_found students 0 (Student.row_index (student a)))
      as (i & s & Hi & Hrange & Hnth & Hrow); [exists (student a); auto |].
    exists i, s. rewrite Z.sub_0_r in Hnth. repeat split; try assumption. lia. }
  split.
  - apply sorted_distinct_strict.
    + (* distinct row indices have distinct positions *)
      pose proof (generated_rows_distinct students nrts cur) as Hrows.
      fold suggested in Hrows.
      clear Hfrom. unfold suggested_rows in Hrows.
      induction suggested as [| a l IH]; simpl; [constructor |].
      simpl in Hrows. inversion Hrows as [| ? ? Hnotin Hnd]; subst.
      constructor.
      * intros Hin. apply in_map_iff in Hin. destruct Hin as (b & Heq & Hb).
        apply Hnotin. apply in_map_iff. exists b. split; [| exact Hb].
        destruct (Hpos a (or_introl eq_refl)) as (i & s & Hi & _ & Hnth & Hrow).
        destruct (Hpos b (or_intror Hb)) as (j & s' & Hj & _ & Hnth' & Hrow').
        unfold position in Heq. rewrite Hi, Hj in Heq. subst j.
        rewrite Hnth in Hnth'. injection Hnth' as <-. congruence.
      * apply IH; [| exact Hnd]. intros b Hb. apply Hpos. right. exact Hb.
    + subst suggested. unfold generateOptimalAssignments in *.
      destruct ((List.length (filter (isAvailable cur) nrts) =? 0)%nat
                || (List.length students =? 0)%nat); [constructor |].
      apply sort_sorted_by_key. intros a b Ha Hb.
      apply (Permutation_in _ (Permutation_sym (JsFacts.sort_perm (later_student students) _))) in Ha.
      apply (Permutation_in _ (Permutation_sym (JsFacts.sort_perm (later_student students) _))) in Hb.
      destruct (Hpos a Ha) as (i & _ & Hi & _).
      destruct (Hpos b Hb) as (j & _ & Hj & _).
      unfold later_student, studentOrder, position. rewrite Hi, Hj. simpl.
      destruct (0 <? i - j) eqn:E1, (j <? i) eqn:E2; try reflexivity.
      * apply Z.ltb_lt in E1. apply Z.ltb_ge in E2. lia.
      * apply Z.ltb_ge in E1. apply Z.ltb_lt in E2. lia.
  - apply Forall_forall. intros a Ha.
    destruct (Hpos a Ha) as (i & s & Hi & Hge & Hnth & Hrow).
    exists s. unfold position. rewrite Hi. auto.
Qed.

End MatcherMore.

(* ================================================================== *)
(** * The board: capacity, where a dropped card ends, the sort *)
(* ================================================================== *)

Module BoardMore.
Import Board BoardCounts Session.

(** ** Sizes of buckets *)

Lemma bucket_size_bucket (o : Js.obj (list Student.t)) (e : string) :
  bucket_size o e = Z.of_nat (List.length (bucket o e)).
Proof. unfold bucket_size, bucket. destruct (Js.get o e); reflexivity. Qed.

Lemma in_bucket_bucket (o : Js.obj (list Student.t)) (e : string) (a : id) :
  in_bucket o e a = existsb (is_row a) (bucket o e).
Proof. unfold in_bucket, bucket. destruct (Js.get o e); reflexivity. Qed.

Lemma bucket_set (o : Js.obj (list Student.t)) (k e : string) (l : list Student.t) :
  bucket (Js.set o k l) e = if String.eqb k e then l else bucket o e.
Proof. unfold bucket. rewrite JsFacts.get_set. destruct (String.eqb k e); reflexivity. Qed.

Lemma without_length (a : id) (l : list Student.t) :
  (List.length (without a l) <= List.length l)%nat.
Proof. apply filter_length_le. Qed.

Lemma without_length_lt (a : id) (l : list Student.t) :
  existsb (is_row a) l = true -> (List.length (without a l) < List.length l)%nat.
Proof.
  induction l as [| s l IH]; [discriminate |].
  rewrite without_cons. pose proof (without_length a l) as Hle. simpl existsb.
  destruct (is_row a s); simpl; [lia |].
  intros Hex. specialize (IH Hex). lia.
Qed.

Lemma without_clean (a : id) (l : list Student.t) :
  existsb (is_row a) (without a l) = false.
Proof.
  induction l as [| s l IH]; [reflexivity |].
  rewrite without_cons. destruct (is_row a s) eqn:E; [exact IH |].
  simpl. rewrite E, IH. reflexivity.
Qed.

Lemma without_absent (a : id) (l : list Student.t) :
  existsb (is_row a) l = false -> without a l = l.
Proof.
  induction l as [| s l IH]; [reflexivity |].
  rewrite without_cons. simpl existsb.
  destruct (is_row a s); simpl; [discriminate |].
  intros H. rewrite (IH H). reflexivity.
Qed.

Lemma bucket_without_elsewhere_at (a : id) (t e : string) (o : Js.obj (list Student.t)) :
  bucket (without_elsewhere a t o) e
  = if String.eqb e t then bucket o e else without a (bucket o e).
Proof.
  unfold bucket.
  induction o as [| [k l] o IH]; simpl.
  - destruct (String.eqb e t); reflexivity.
  - destruct (String.eqb k t) eqn:Ekt; simpl; destruct (String.eqb k e) eqn:Eke.
    + apply String.eqb_eq in Ekt, Eke. subst. rewrite String.eqb_refl. reflexivity.
    + exact IH.
    + apply String.eqb_eq in Eke. subst k. rewrite Ekt. reflexivity.
    + exact IH.
Qed.

Lemma bucket_add_new (a : id) (t e : string) (s : Student.t) (o : Js.obj (list Student.t)) :
  bucket (add_new a t s o) e
  = if String.eqb t e
    then (if existsb (is_row a) (bucket o t) then bucket o t else bucket o t ++ [s])%list
    else bucket o e.
Proof.
  unfold add_new.
  destruct (Js.get o t) as [l |] eqn:Eg.
  - rewrite Eg. assert (bucket o t = l) as -> by (unfold bucket; rewrite Eg; reflexivity).
    destruct (existsb (is_row a) l) eqn:Ex.
    + destruct (String.eqb t e) eqn:Ete; [| reflexivity].
      apply String.eqb_eq in Ete. subst e. unfold bucket. rewrite Eg. reflexivity.
    + rewrite bucket_set. reflexivity.
  - rewrite JsFacts.get_set_same.
    assert (bucket o t = []) as -> by (unfold bucket; rewrite Eg; reflexivity).
    simpl. rewrite !bucket_set.
    destruct (String.eqb t e); reflexivity.
Qed.

(** "Remove from source" never makes a bucket longer, and makes the
    bucket it takes the student from shorter. *)
Lemma remove_from_source_buckets (st : state) (a : id) (sourceType : string)
    (students1 : list Student.t) (assignments1 current1 : Js.obj (list Student.t)) :
  remove_from_source st a sourceType = Some (students1, assignments1, current1) ->
  (students1 = students st \/ students1 = without a (students st)) /\
  (forall e, bucket assignments1 e = bucket (assignments st) e
             \/ bucket assignments1 e = without a (bucket (assignments st) e)) /\
  (forall e, bucket current1 e = bucket (currentAssignments st) e
             \/ bucket current1 e = without a (bucket (currentAssignments st) e)) /\
  (String.eqb sourceType "unassigned" = true -> students1 = without a (students st)).
Proof.
  unfold remove_from_source.
  destruct (String.eqb sourceType "unassigned").
  { intros H. injection H as <- <- <-. auto 6. }
  destruct (Js.startsWith "current_" sourceType).
  - destruct (Js.get (currentAssignments st) (Js.remove_first "current_" sourceType))
      as [l |] eqn:Eg; [| discriminate].
    intros H. injection H as <- <- <-.
    repeat split; auto; try discriminate.
    intros e. rewrite bucket_set.
    destruct (String.eqb _ e) eqn:E; [| auto].
    apply String.eqb_eq in E. subst e. right. unfold bucket. rewrite Eg. reflexivity.
  - destruct (Js.get (assignments st) sourceType) as [l |] eqn:Eg; [| discriminate].
    intros H. injection H as <- <- <-.
    repeat split; auto; try discriminate.
    intros e. rewrite bucket_set.
    destruct (String.eqb _ e) eqn:E; [| auto].
    apply String.eqb_eq in E. subst e. right. unfold bucket. rewrite Eg. reflexivity.
Qed.

Lemma find_bucket_get (a : id) (o : Js.obj (list Student.t))
    (email : string) (l : list Student.t) (s : Student.t) :
  NoDup (Js.keys o) -> find_bucket a o = Some (email, l, s) ->
  bucket o email = l /\ existsb (is_row a) l = true.
Proof.
  intros Hnd Hfind.
  destruct (find_bucket_some _ _ _ _ _ Hnd Hfind) as [Hget Hfound].
  split; [unfold bucket; rewrite Hget; reflexivity |].
  apply find_some in Hfound. apply existsb_exists. exists s. exact Hfound.
Qed.

(** ** Capacity *)

Lemma dropOnTutor_total (st : state) (a over_id : id) (e : string) :
  total (state_of (dropOnTutor st a over_id)) e <= Z.max 3 (total st e).
Proof.
  assert (total (drag_cleared st) e <= Z.max 3 (total st e)) as Hsame
    by (unfold total; simpl; lia).
  unfold dropOnTutor.
  destruct (find_source st a) as [[student sourceType] |]; [| exact Hsame].
  destruct over_id as [m | t]; [exact Hsame |].
  destruct (find _ (nrts st)) as [nrt |]; [| exact Hsame].
  destruct (not_accepting nrt); [exact Hsame |].
  destruct (3 <? totalAfter st sourceType t a) eqn:Hcap; [exact Hsame |].
  apply Z.ltb_ge in Hcap.
  destruct (remove_from_source st a sourceType) as [[[students1 assignments1] current1] |]
    eqn:Hrem; [| exact Hsame].
  destruct (remove_from_source_buckets _ _ _ _ _ _ Hrem) as (_ & Hasg & Hcur & Hpool).
  unfold total. simpl. rewrite !bucket_size_bucket.
  rewrite bucket_add_new, !bucket_without_elsewhere_at.
  unfold totalAfter in Hcap. rewrite !bucket_size_bucket, in_bucket_bucket in Hcap.
  pose proof (without_length a (bucket assignments1 e)) as Hw1.
  pose proof (without_length a (bucket current1 e)) as Hw2.
  pose proof (without_length a (bucket (assignments st) e)) as Hw3.
  pose proof (without_length a (bucket (currentAssignments st) e)) as Hw4.
  assert (List.length (bucket assignments1 e) <= List.length (bucket (assignments st) e))%nat
    as Ha by (destruct (Hasg e) as [-> | ->]; lia).
  assert (List.length (bucket current1 e) <= List.length (bucket (currentAssignments st) e))%nat
    as Hc by (destruct (Hcur e) as [-> | ->]; lia).
  destruct (String.eqb t e) eqn:Ete.
  - apply String.eqb_eq in Ete. subst t. rewrite String.eqb_refl.
    destruct (existsb (is_row a) (bucket assignments1 e)) eqn:Ein; [lia |].
    rewrite length_app. simpl List.length.
    destruct (String.eqb sourceType "unassigned"
              || negb (existsb (is_row a) (bucket (assignments st) e))) eqn:Einc; [lia |].
    apply orb_false_elim in Einc. destruct Einc as [_ Einc].
    apply negb_false_iff in Einc.
    destruct (Hasg e) as [Heq | Heq].
    + rewrite Heq in Ein. congruence.
    + pose proof (without_length_lt a _ Einc). rewrite Heq. lia.
  - rewrite String.eqb_sym, Ete. lia.
Qed.

Lemma dropOnUnassigned_total (st : state) (a over_id : id) (e : string) :
  NoDup (Js.keys (assignments st)) -> NoDup (Js.keys (currentAssignments st)) ->
  total (state_of (dropOnUnassigned st a over_id)) e <= total st e.
Proof.
  intros Hka Hkc. unfold dropOnUnassigned, total.
  destruct (find_bucket a (assignments st)) as [[[email l] found] |] eqn:Ea.
  - simpl. destruct (find_bucket_get _ _ _ _ _ Hka Ea) as [Hb _].
    rewrite !bucket_size_bucket, bucket_set.
    destruct (String.eqb email e) eqn:E; [| lia].
    apply String.eqb_eq in E. subst e. rewrite Hb.
    pose proof (without_length a l). lia.
  - destruct (find_bucket a (currentAssignments st)) as [[[email l] found] |] eqn:Ec.
    + simpl. destruct (find_bucket_get _ _ _ _ _ Hkc Ec) as [Hb _].
      rewrite !bucket_size_bucket, bucket_set.
      destruct (String.eqb email e) eqn:E; [| lia].
      apply String.eqb_eq in E. subst e. rewrite Hb.
      pose proof (without_length a l). lia.
    + simpl. lia.
Qed.

(** X4. On a board whose two assignment objects have no key twice,
    [handleDragEnd] never brings the students of a tutor (current and new
    together) above 3, and never adds to a tutor who already has more
    than 3: for every event and every e-mail, the total afterwards is at
    most the larger of 3 and the total before. *)
Theorem drag_keeps_capacity (st : state) (ev : event) (email : string) :
  NoDup (Js.keys (assignments st)) -> NoDup (Js.keys (currentAssignments st)) ->
  total (state_of (handleDragEnd st ev)) email <= Z.max 3 (total st email).
Proof.
  intros Hka Hkc. unfold handleDragEnd.
  destruct (over ev) as [over_id |].
  - destruct (is_unassigned over_id || existsb (is_row over_id) (students st)).
    + pose proof (dropOnUnassigned_total st (active ev) over_id email Hka Hkc). lia.
    + apply dropOnTutor_total.
  - unfold total. simpl. lia.
Qed.

(** ** Where a dropped card ends *)

Lemma source_not_in_pool (st : state) (n : Z) (student : Student.t) (sourceType : string)
    (students1 : list Student.t) (assignments1 current1 : Js.obj (list Student.t)) :
  BoardInvariant.source_of st n student sourceType ->
  remove_from_source st (IdNum n) sourceType = Some (students1, assignments1, current1) ->
  existsb (is_row (IdNum n)) students1 = false.
Proof.
  intros Hwhere Hrem.
  destruct (remove_from_source_buckets _ _ _ _ _ _ Hrem) as (Hs & _ & _ & Hpool).
  inversion Hwhere as [Hin Esrc | email l Hin Hfind Esrc | email l Hin Hnew Hfind Esrc]; subst.
  - rewrite (Hpool eq_refl). apply without_clean.
  - destruct Hs as [-> | ->]; [| apply without_clean].
    rewrite existsb_is_row, Hin. reflexivity.
  - destruct Hs as [-> | ->]; [| apply without_clean].
    rewrite existsb_is_row, Hin. reflexivity.
Qed.

(** X5. When the drop of a student who is on the board onto a displayed NRT
    is carried out (the handler ends without alert), the student is in
    the new-assignment bucket of that NRT, not in the unassigned pool,
    and in no bucket, new or current, of another e-mail. *)
Theorem carried_out_drop_lands (st st' : state) (a : id) (email : string) :
  email <> "unassigned" ->
  find_source st a <> None ->
  find (fun n => String.eqb (Nrt.email n) email) (nrts st) <> None ->
  handleDragEnd st (mkEvent a (Some (IdStr email))) = Done st' None ->
  in_bucket (assignments st') email a = true
  /\ existsb (is_row a) (students st') = false
  /\ forall other, other <> email ->
       in_bucket (assignments st') other a = false
       /\ in_bucket (currentAssignments st') other a = false.
Proof.
  intros He Hsrc Hnrt.
  rewrite (BoardMoves.handleDragEnd_on_tutor st a email He).
  unfold dropOnTutor.
  destruct (find_source st a) as [[student sourceType] |] eqn:Esrc; [| contradiction].
  destruct (find _ (nrts st)) as [nrt |]; [| contradiction].
  destruct (not_accepting nrt); [discriminate |].
  destruct (3 <? totalAfter st sourceType email a); [discriminate |].
  destruct (remove_from_source st a sourceType) as [[[students1 assignments1] current1] |]
    eqn:Hrem; [| discriminate].
  intros H. injection H as <-. simpl.
  destruct (BoardInvariant.find_source_some _ _ _ _ Esrc) as (n & -> & Hrow & Hwhere).
  rewrite !in_bucket_bucket, bucket_add_new, String.eqb_refl.
  split; [| split].
  - destruct (existsb (is_row (IdNum n)) (bucket (without_elsewhere (IdNum n) email assignments1) email))
      eqn:Ein; [exact Ein |].
    rewrite existsb_app. simpl. rewrite Hrow, Z.eqb_refl.
    rewrite orb_true_r. reflexivity.
  - apply (source_not_in_pool _ _ _ _ _ _ _ Hwhere Hrem).
  - intros other Hother.
    rewrite !in_bucket_bucket, bucket_add_new.
    replace (String.eqb email other) with false
      by (symmetry; apply String.eqb_neq; congruence).
    rewrite !bucket_without_elsewhere_at.
    replace (String.eqb other email) with false
      by (symmetry; apply String.eqb_neq; exact Hother).
    split; apply without_clean.
Qed.

Lemma in_bucket_find (o : Js.obj (list Student.t)) (e : string) (a : id) :
  in_bucket o e a = true -> exists email l s, find_bucket a o = Some (email, l, s).
Proof.
  intros Hin. apply BoardMoves.in_bucket_found in Hin.
  destruct (find_bucket a o) as [[[email l] s] |]; [| contradiction].
  exists email, l, s. reflexivity.
Qed.

Lemma splice_in_length {A : Type} (i : nat) (x : A) (l : list A) :
  List.length (Js.splice_in i x l) = S (List.length l).
Proof. apply (Permutation_length (JsFacts.splice_in_perm i x l)). Qed.

Lemma put_back_exists (a : id) (found : Student.t) (i : nat) (l : list Student.t) :
  is_row a found = true -> existsb (is_row a) (Js.splice_in i found l) = true.
Proof.
  intros Hrow. apply existsb_exists. exists found. split; [| exact Hrow].
  apply (Permutation_in _ (Permutation_sym (JsFacts.splice_in_perm i found l))).
  left. reflexivity.
Qed.

(** The search of [handleDragEnd] through an assignment object stops at
    the first key whose array holds the student. *)
Lemma find_bucket_holders (a : id) (o : Js.obj (list Student.t)) :
  match find_bucket a o with
  | Some (email, _, _) => exists rest, holders o a = email :: rest
  | None => holders o a = []
  end.
Proof.
  unfold holders. induction o as [| [k l] o IH]; simpl; [reflexivity |].
  destruct (find (is_row a) l) as [s |] eqn:Ef.
  - apply find_some in Ef.
    assert (existsb (is_row a) l = true) as -> by (apply existsb_exists; exists s; exact Ef).
    simpl. eexists. reflexivity.
  - assert (existsb (is_row a) l = false) as ->.
    { destruct (existsb (is_row a) l) eqn:Ex; [| reflexivity].
      apply existsb_exists in Ex. destruct Ex as (s & Hin & Hrow).
      pose proof (find_none _ _ Ef s Hin). congruence. }
    exact IH.
Qed.

(** X6. On a board whose two assignment objects have no key twice, dropping
    on the unassigned zone a student who is in a bucket never shows an
    alert and puts the student into the unassigned pool, which gets one
    card more.  New assignments are searched before current ones: when a
    new-assignment bucket holds the student, the student is filtered out
    of the first such bucket (in the order of the keys), every other
    new-assignment bucket and all current assignments are left as they
    were; only when no new-assignment bucket holds the student is the
    student filtered out of the first current-assignment bucket that
    holds it, the new assignments being left as they were. *)
Theorem drop_on_unassigned_returns_student (st : state) (row : Z) (email : string) :
  NoDup (Js.keys (assignments st)) -> NoDup (Js.keys (currentAssignments st)) ->
  in_bucket (assignments st) email (IdNum row) = true
  \/ in_bucket (currentAssignments st) email (IdNum row) = true ->
  let result := handleDragEnd st (mkEvent (IdNum row) (Some (IdStr "unassigned"))) in
  let st' := state_of result in
  alert_of result = None
  /\ existsb (is_row (IdNum row)) (students st') = true
  /\ List.length (students st') = S (List.length (students st))
  /\ match holders (assignments st) (IdNum row),
            holders (currentAssignments st) (IdNum row) with
     | source :: _, _ =>
         assignments st'
         = Js.set (assignments st) source
                  (without (IdNum row) (bucket (assignments st) source))
         /\ in_bucket (assignments st') source (IdNum row) = false
         /\ currentAssignments st' = currentAssignments st
     | [], source :: _ =>
         currentAssignments st'
         = Js.set (currentAssignments st) source
                  (without (IdNum row) (bucket (currentAssignments st) source))
         /\ in_bucket (currentAssignments st') source (IdNum row) = false
         /\ assignments st' = assignments st
     | [], [] => False
     end.
Proof.
  intros Hka Hkc Hin result st'. subst st' result.
  unfold handleDragEnd. simpl over. simpl active. simpl is_unassigned. simpl orb.
  unfold dropOnUnassigned.
  pose proof (find_bucket_holders (IdNum row) (assignments st)) as Hnew.
  pose proof (find_bucket_holders (IdNum row) (currentAssignments st)) as Hcur.
  destruct (find_bucket (IdNum row) (assignments st)) as [[[source l] found] |] eqn:Ea.
  - destruct Hnew as (rest & ->).
    destruct (find_bucket_get _ _ _ _ _ Hka Ea) as [Hb Hex].
    destruct (find_bucket_some _ _ _ _ _ Hka Ea) as [_ Hfound].
    apply find_some in Hfound. destruct Hfound as [_ Hrow].
    simpl. split; [reflexivity |]. split; [apply put_back_exists, Hrow |].
    split.
    { rewrite splice_in_length. unfold sortStudentsByStatusAndClassYear.
      rewrite (Permutation_length (JsFacts.sort_perm _ (students st))). reflexivity. }
    rewrite Hb. split; [reflexivity |].
    rewrite in_bucket_bucket, bucket_set, String.eqb_refl.
    split; [apply without_clean | reflexivity].
  - rewrite Hnew.
    destruct (find_bucket (IdNum row) (currentAssignments st)) as [[[source l] found] |] eqn:Ec.
    + destruct Hcur as (rest & ->).
      destruct (find_bucket_get _ _ _ _ _ Hkc Ec) as [Hb Hex].
      destruct (find_bucket_some _ _ _ _ _ Hkc Ec) as [_ Hfound].
      apply find_some in Hfound. destruct Hfound as [_ Hrow].
      simpl. split; [reflexivity |]. split; [apply put_back_exists, Hrow |].
      split.
      { rewrite splice_in_length. unfold sortStudentsByStatusAndClassYear.
        rewrite (Permutation_length (JsFacts.sort_perm _ (students st))). reflexivity. }
      rewrite Hb. split; [reflexivity |].
      rewrite in_bucket_bucket, bucket_set, String.eqb_refl.
      split; [apply without_clean | reflexivity].
    + exfalso. destruct Hin as [Hin | Hin]; apply in_bucket_find in Hin;
        destruct Hin as (e1 & l1 & s1 & Hf); congruence.
Qed.

(** ** The position of the card that is put back *)

Lemma findIndex_bound {A : Type} (p : A -> bool) (l : list A) (i : nat) :
  Js.findIndex p l = Some i -> (i < List.length l)%nat.
Proof.
  revert i. induction l as [| x l IH]; intros i; simpl; [discriminate |].
  destruct (p x).
  - intros H. injection H as <-. lia.
  - destruct (Js.findIndex p l) as [j |]; simpl; [| discriminate].
    intros H. injection H as <-. specialize (IH j eq_refl). lia.
Qed.

(** X7. Whatever the pointer position recorded during the drag (missing, not
    a number, negative, beyond the last card, infinite) and whatever the
    target, the position computed for the card that is put back into the
    unassigned list is at most the length of that list. *)
Theorem insertIndex_within_list (st : state) (over_id : id) (sortedCurrent : list Student.t) :
  (insertIndex st over_id sortedCurrent <= List.length sortedCurrent)%nat.
Proof.
  unfold insertIndex.
  destruct (negb (is_unassigned over_id) && existsb (is_row over_id) sortedCurrent).
  - destruct (Js.findIndex (is_row over_id) sortedCurrent) as [i |] eqn:E; [| lia].
    apply findIndex_bound in E. lia.
  - destruct (is_unassigned over_id && unassignedZoneRef st); [| lia].
    destruct (dropPosition st) as [y |]; [| lia].
    destruct (PrimFloat.ltb _ _); [| lia].
    unfold floor_min. destruct (Prim2SF _); lia.
Qed.

(** ** The filter of the displayed NRTs *)

Lemma filterNrts_active (l : list Nrt.t) (n : Nrt.t) :
  In n (filterNrts l true) -> not_accepting n = false.
Proof.
  unfold filterNrts. intros Hin. apply filter_In in Hin. destruct Hin as [_ Hshown].
  unfold is_shown in Hshown. unfold not_accepting.
  destruct (String.eqb (Nrt.status n) "active"); [| discriminate].
  simpl in *.
  destruct (String.eqb (Nrt.status n) "leaving, but keeping students"); [discriminate |].
  destruct (String.eqb (Nrt.status n) "active, but does not want additional students");
    [discriminate |].
  destruct (String.eqb (Nrt.status n) "pending approval"); [discriminate | reflexivity].
Qed.

(** X8. While "Show only active NRTs" is on, the displayed NRTs are those of
    all NRTs whose status is 'active', and no drop is ever refused with
    the alert that the NRT is not accepting new students. *)
Theorem no_status_alert_when_filtered (st : state) (ev : event) :
  nrts st = filterNrts (allNrts st) true ->
  Forall (fun n => Nrt.status n = "active") (nrts st)
  /\ alert_of (handleDragEnd st ev) <> Some alert_not_accepting.
Proof.
  intros Hshown. split.
  - rewrite Hshown. apply Forall_forall. intros n Hn.
    apply filterNrts_active in Hn.
    destruct (String.eqb_spec (Nrt.status n) "active") as [E | E]; [exact E |].
    apply BoardMoves.not_accepting_iff in E. congruence.
  - unfold handleDragEnd.
    destruct (over ev) as [over_id |]; [| discriminate].
    destruct (is_unassigned over_id || existsb (is_row over_id) (students st)).
    + unfold dropOnUnassigned.
      destruct (find_bucket _ (assignments st)) as [[[? ?] ?] |]; [discriminate |].
      destruct (find_bucket _ (currentAssignments st)) as [[[? ?] ?] |]; discriminate.
    + unfold dropOnTutor.
      destruct (find_source st (active ev)) as [[student sourceType] |]; [| discriminate].
      destruct over_id as [m | e]; [discriminate |].
      destruct (find _ (nrts st)) as [nrt |] eqn:Efind; [| discriminate].
      apply find_some in Efind. destruct Efind as [Hin _].
      rewrite Hshown in Hin. rewrite (filterNrts_active _ _ Hin).
      destruct (3 <? totalAfter st sourceType e (active ev)); [discriminate |].
      destruct (remove_from_source _ _ _) as [[[? ?] ?] |]; discriminate.
Qed.

(** ** The order of the unassigned list *)

Section SortedByRelation.
Context {A : Type}.
Variable le : A -> A -> Prop.
Variable after : A -> A -> bool.
Hypothesis le_trans : forall a b c, le a b -> le b c -> le a c.

Lemma insert_sorted_by_relation (x : A) (l : list A) :
  (forall y, In y l -> if after x y then le y x else le x y) ->
  StronglySorted le l ->
  StronglySorted le (Js.insert_sorted after x l).
Proof.
  intros Hafter Hsorted.
  induction Hsorted as [| y l Hl IH Hy]; simpl.
  - constructor; constructor.
  - pose proof (Hafter y (or_introl eq_refl)) as Hxy.
    destruct (after x y).
    + constructor.
      * apply IH. intros z Hz. apply Hafter. right. exact Hz.
      * apply Forall_forall. intros z Hz.
        apply (Permutation_in _ (JsFacts.insert_sorted_perm after x l)) in Hz.
        destruct Hz as [<- | Hz]; [exact Hxy |].
        rewrite Forall_forall in Hy. apply Hy, Hz.
    + constructor.
      * constructor; assumption.
      * constructor; [exact Hxy |].
        rewrite Forall_forall in Hy. apply Forall_forall. intros z Hz.
        apply le_trans with y; [exact Hxy | apply Hy, Hz].
Qed.

Lemma sort_sorted_by_relation (l : list A) :
  (forall x y, In x l -> In y l -> if after x y then le y x else le x y) ->
  StronglySorted le (Js.sort after l).
Proof.
  induction l as [| x l IH]; intros Hafter; simpl.
  - constructor.
  - apply insert_sorted_by_relation.
    + intros y Hy. apply Hafter; [left; reflexivity | right].
      apply (Permutation_in _ (JsFacts.sort_perm after l)). exact Hy.
    + apply IH. intros a b Ha Hb. apply Hafter; right; assumption.
Qed.
End SortedByRelation.

Lemma compare_students_priority (a b : Student.t) :
  if Js.num_pos (compare_students a b)
  then priority b <= priority a else priority a <= priority b.
Proof.
  unfold compare_students. fold (priority a) (priority b).
  destruct (priority a =? priority b) eqn:E; simpl negb; cbv iota.
  - apply Z.eqb_eq in E. rewrite E. destruct (Js.num_pos _); lia.
  - apply Z.eqb_neq in E. simpl.
    destruct (0 <? priority a - priority b) eqn:E1.
    + apply Z.ltb_lt in E1. lia.
    + apply Z.ltb_ge in E1. lia.
Qed.

Lemma sorted_weaken {A : Type} (R R' : A -> A -> Prop) (l : list A) :
  (forall a b, R a b -> R' a b) -> StronglySorted R l -> StronglySorted R' l.
Proof.
  intros HR Hs. induction Hs as [| x l _ IH Hx]; constructor; [exact IH |].
  apply (Forall_impl _ (HR x)). exact Hx.
Qed.

(** ** A consistent comparator orders the values it is consistent for *)

Section Consistent.
Context {A : Type}.
Variable comparator : A -> A -> Js.num.
Variable l : list A.
Hypothesis Hconsistent : JsSort.consistent comparator l = true.

(** [comparator(a, b)] has the sign [s]. *)
Definition signed (s : comparison) (a b : A) : Prop :=
  JsSort.is_sign s (comparator a b) = true.

Lemma signed_once (s s' : comparison) (a b : A) :
  signed s a b -> signed s' a b -> s = s'.
Proof.
  unfold signed, JsSort.is_sign.
  destruct (comparator a b) as [z |]; [| discriminate].
  destruct s, s'; intros H1 H2; try reflexivity; exfalso;
    repeat match goal with
           | H : (_ <? _) = true |- _ => apply Z.ltb_lt in H
           | H : (_ =? _) = true |- _ => apply Z.eqb_eq in H
           end; lia.
Qed.

Lemma consistent_at (a b c : A) :
  In a l -> In b l -> In c l ->
  signed Eq a a
  /\ (signed Lt a b \/ signed Eq a b \/ signed Gt a b)
  /\ (signed Eq a b -> signed Eq b a)
  /\ (forall s, signed s a b -> signed s b c -> signed s a c).
Proof.
  intros Ha Hb Hc. unfold JsSort.consistent in Hconsistent.
  rewrite forallb_forall in Hconsistent.
  pose proof (Hconsistent a Ha) as H. apply andb_prop in H. destruct H as [Hrefl H].
  rewrite forallb_forall in H. specialize (H b Hb).
  apply andb_prop in H. destruct H as [H Htrans].
  apply andb_prop in H. destruct H as [Hnum Hsym].
  rewrite forallb_forall in Htrans. specialize (Htrans c Hc).
  rewrite forallb_forall in Htrans.
  unfold signed. split; [exact Hrefl | split; [| split]].
  - apply orb_prop in Hnum. destruct Hnum as [Hnum | Hnum]; [| auto].
    apply orb_prop in Hnum. destruct Hnum; auto.
  - intros E. rewrite E in Hsym. exact Hsym.
  - intros s H1 H2.
    assert (In s [Lt; Eq; Gt]) as Hs by (destruct s; simpl; auto).
    specialize (Htrans s Hs). rewrite H1, H2 in Htrans. exact Htrans.
Qed.

Lemma signed_flip_after (a b : A) : In a l -> In b l -> signed Gt a b -> signed Lt b a.
Proof.
  intros Ha Hb Hgt.
  destruct (consistent_at b a b Hb Ha Hb) as (_ & Hnum & Hsym & Htrans).
  destruct (consistent_at a b a Ha Hb Ha) as (Hrefl & _ & _ & Htrans').
  destruct Hnum as [H | [H | H]]; [exact H | |].
  - pose proof (signed_once _ _ _ _ Hgt (Hsym H)). discriminate.
  - pose proof (signed_once _ _ _ _ Hrefl (Htrans' Gt Hgt H)). discriminate.
Qed.

Lemma signed_flip_before (a b : A) : In a l -> In b l -> signed Lt a b -> signed Gt b a.
Proof.
  intros Ha Hb Hlt.
  destruct (consistent_at b a b Hb Ha Hb) as (_ & Hnum & Hsym & Htrans).
  destruct (consistent_at a b a Ha Hb Ha) as (Hrefl & _ & _ & Htrans').
  destruct Hnum as [H | [H | H]]; [| | exact H].
  - pose proof (signed_once _ _ _ _ Hrefl (Htrans' Lt Hlt H)). discriminate.
  - pose proof (signed_once _ _ _ _ Hlt (Hsym H)). discriminate.
Qed.

(** [a] and [b] are values of [l] and [a] is not placed after [b]. *)
Definition not_after (a b : A) : Prop :=
  In a l /\ In b l /\ (signed Lt a b \/ signed Eq a b).

Lemma not_after_trans (a b c : A) : not_after a b -> not_after b c -> not_after a c.
Proof.
  intros (Ha & Hb & Hab) (_ & Hc & Hbc).
  split; [exact Ha | split; [exact Hc |]].
  destruct (consistent_at a b c Ha Hb Hc) as (_ & _ & _ & Habc).
  destruct (consistent_at a c b Ha Hc Hb) as (_ & Hac & _ & Hacb).
  destruct (consistent_at b a c Hb Ha Hc) as (_ & _ & Hsym_ba & Hbac).
  destruct (consistent_at b c a Hb Hc Ha) as (_ & _ & Hsym_bc & Hbca).
  destruct (consistent_at a b a Ha Hb Ha) as (_ & _ & Hsym_ab & _).
  destruct Hab as [Hab | Hab], Hbc as [Hbc | Hbc].
  - left. exact (Habc Lt Hab Hbc).
  - destruct Hac as [H | [H | H]]; [left; exact H | exfalso | exfalso].
    + pose proof (signed_once _ _ _ _ Hab (Hacb Eq H (Hsym_bc Hbc))). discriminate.
    + pose proof (signed_flip_before a b Ha Hb Hab) as Hba.
      pose proof (signed_once _ _ _ _ Hbc (Hbac Gt Hba H)). discriminate.
  - destruct Hac as [H | [H | H]]; [left; exact H | exfalso | exfalso].
    + pose proof (signed_once _ _ _ _ Hbc (Hbac Eq (Hsym_ab Hab) H)). discriminate.
    + pose proof (signed_flip_after a c Ha Hc H) as Hca.
      pose proof (signed_once _ _ _ _ (Hsym_ab Hab) (Hbca Lt Hbc Hca)). discriminate.
  - right. exact (Habc Eq Hab Hbc).
Qed.

Lemma not_after_decided (a b : A) :
  In a l -> In b l ->
  if Js.num_pos (comparator a b) then not_after b a else not_after a b.
Proof.
  intros Ha Hb.
  destruct (consistent_at a b a Ha Hb Ha) as (_ & Hnum & _ & _).
  destruct (Js.num_pos (comparator a b)) eqn:E.
  - split; [exact Hb | split; [exact Ha |]]. left.
    apply signed_flip_after; [exact Ha | exact Hb |].
    unfold signed, JsSort.is_sign. destruct (comparator a b); [exact E | discriminate].
  - split; [exact Ha | split; [exact Hb |]].
    destruct Hnum as [H | [H | H]]; [auto | auto |].
    exfalso. unfold signed, JsSort.is_sign in H.
    destruct (comparator a b); simpl in E; congruence.
Qed.

(** The sort puts no value after one that the comparator places after
    it. *)
Lemma sort_consistent :
  StronglySorted (fun a b => Js.num_pos (comparator a b) = false)
                 (Js.sort (fun a b => Js.num_pos (comparator a b)) l).
Proof.
  apply (sorted_weaken not_after).
  - intros a b (_ & _ & H). unfold signed, JsSort.is_sign in H.
    destruct (comparator a b) as [z |]; [| reflexivity]. simpl.
    destruct H as [H | H].
    + apply Z.ltb_lt in H. apply Z.ltb_ge. lia.
    + apply Z.eqb_eq in H. apply Z.ltb_ge. lia.
  - apply sort_sorted_by_relation.
    + exact not_after_trans.
    + intros x y Hx Hy. apply not_after_decided; assumption.
Qed.
(** Values that the comparator holds equal keep their order. *)
Lemma insert_stable (x a : A) (s : list A) :
  In x l -> In a l -> incl s l ->
  filter (fun y => JsSort.is_sign Eq (comparator x y))
         (Js.insert_sorted (fun a b => Js.num_pos (comparator a b)) a s)
  = if JsSort.is_sign Eq (comparator x a)
    then a :: filter (fun y => JsSort.is_sign Eq (comparator x y)) s
    else filter (fun y => JsSort.is_sign Eq (comparator x y)) s.
Proof.
  intros Hx Ha. induction s as [| y s IH]; intros Hs.
  - simpl. destruct (JsSort.is_sign Eq (comparator x a)); reflexivity.
  - assert (In y l) as Hy by (apply Hs; left; reflexivity).
    assert (incl s l) as Hs' by (intros z Hz; apply Hs; right; exact Hz).
    specialize (IH Hs'). cbn [Js.insert_sorted].
    destruct (Js.num_pos (comparator a y)) eqn:Eafter.
    + cbn [filter]. rewrite IH.
      destruct (JsSort.is_sign Eq (comparator x a)) eqn:Exa; [| reflexivity].
      destruct (JsSort.is_sign Eq (comparator x y)) eqn:Exy; [| reflexivity].
      exfalso.
      destruct (consistent_at x a x Hx Ha Hx) as (_ & _ & Hsym & _).
      destruct (consistent_at a x y Ha Hx Hy) as (_ & _ & _ & Htrans).
      assert (signed Gt a y) as Hgt.
      { unfold signed, JsSort.is_sign. destruct (comparator a y); [exact Eafter | discriminate]. }
      pose proof (signed_once _ _ _ _ Hgt (Htrans Eq (Hsym Exa) Exy)). discriminate.
    + cbn [filter]. destruct (JsSort.is_sign Eq (comparator x a)); reflexivity.
Qed.

Lemma sort_stable (x : A) :
  In x l ->
  filter (fun y => JsSort.is_sign Eq (comparator x y))
         (Js.sort (fun a b => Js.num_pos (comparator a b)) l)
  = filter (fun y => JsSort.is_sign Eq (comparator x y)) l.
Proof.
  intros Hx.
  assert (forall l', incl l' l ->
            filter (fun y => JsSort.is_sign Eq (comparator x y))
                   (Js.sort (fun a b => Js.num_pos (comparator a b)) l')
            = filter (fun y => JsSort.is_sign Eq (comparator x y)) l') as Hall.
  { induction l' as [| a l' IH]; intros Hincl; [reflexivity |].
    assert (In a l) as Ha by (apply Hincl; left; reflexivity).
    assert (incl l' l) as Hincl' by (intros z Hz; apply Hincl; right; exact Hz).
    change (Js.sort (fun a b => Js.num_pos (comparator a b)) (a :: l'))
      with (Js.insert_sorted (fun a b => Js.num_pos (comparator a b)) a
              (Js.sort (fun a b => Js.num_pos (comparator a b)) l')).
    rewrite (insert_stable x a _ Hx Ha).
    - rewrite (IH Hincl'). reflexivity.
    - intros z Hz. apply Hincl'.
      apply (Permutation_in _ (JsFacts.sort_perm (fun a b => Js.num_pos (comparator a b)) l')).
      exact Hz. }
  apply Hall. intros z Hz. exact Hz.
Qed.
End Consistent.

(** X9. On every list of students for which its comparator is consistent
    (it gives a number for every pair, and its "equal", "before" and
    "after" are transitive: otherwise the language leaves the order to the
    engine), [sortStudentsByStatusAndClassYear] returns the same students
    (each as often as in its argument), places no student after one that
    the comparator places after it, keeps the students that the
    comparator holds equal in the order of the argument, and lets the
    ranks never decrease: those who apply next cycle first, then those
    who are not applying or whose status is missing or unknown, then
    those who are currently applying.  (A status that is the name of a
    property that every object inherits is left aside: the lookup
    [statusPriority[status]] gives a function for it.) *)
Theorem sorted_by_status (l : list Student.t) :
  Forall plain_status l ->
  JsSort.consistent compare_students l = true ->
  Permutation (sortStudentsByStatusAndClassYear l) l
  /\ StronglySorted (fun a b => Js.num_pos (compare_students a b) = false)
                    (sortStudentsByStatusAndClassYear l)
  /\ (forall x, In x l ->
        filter (fun y => JsSort.is_sign Eq (compare_students x y))
               (sortStudentsByStatusAndClassYear l)
        = filter (fun y => JsSort.is_sign Eq (compare_students x y)) l)
  /\ StronglySorted (fun a b => priority a <= priority b)
                    (sortStudentsByStatusAndClassYear l).
Proof.
  intros _ Hconsistent. split; [apply JsFacts.sort_perm | split; [| split]].
  - apply sort_consistent. exact Hconsistent.
  - intros x Hx. apply sort_stable; assumption.
  - apply (sorted_weaken (fun a b => Js.num_pos (compare_students a b) = false)).
    + intros a b H. pose proof (compare_students_priority a b) as Hp.
      rewrite H in Hp. exact Hp.
    + apply sort_consistent. exact Hconsistent.
Qed.

Lemma statusPriority_2 (status : string) :
  status = "Applying Next Cycle" \/ status = "Not Applying" \/ status = "Currently Applying" ->
  statusPriority status = 2 -> status = "Not Applying".
Proof. intros [-> | [-> | ->]]; vm_compute; intros H; congruence. Qed.

Lemma before_or_equal_trans (a b c : Student.t) :
  before_or_equal a b -> before_or_equal b c -> before_or_equal a c.
Proof. unfold before_or_equal. intros [H1 | [H1 H1']] [H2 | [H2 H2']]; lia. Qed.

Lemma compare_students_order (a b : Student.t) :
  sortable a -> sortable b ->
  if Js.num_pos (compare_students a b) then before_or_equal b a else before_or_equal a b.
Proof.
  intros [Ha Hya] [Hb Hyb].
  unfold before_or_equal, compare_students.
  fold (priority a) (priority b).
  destruct (priority a =? priority b) eqn:E; simpl negb; cbv iota.
  - apply Z.eqb_eq in E.
    destruct (String.eqb (or_default (Student.status a) "Not Applying") "Not Applying"
              && String.eqb (or_default (Student.status b) "Not Applying") "Not Applying")
      eqn:Eboth.
    + unfold year. destruct (year_of a) as [ya |]; [| contradiction].
      destruct (year_of b) as [yb |]; [| contradiction]. simpl.
      destruct (0 <? ya - yb) eqn:E1.
      * apply Z.ltb_lt in E1. right. split; lia.
      * apply Z.ltb_ge in E1. right. split; lia.
    + simpl. right. split; [exact E |]. intros H2. exfalso.
      unfold priority in *.
      rewrite (statusPriority_2 _ Ha H2) in Eboth.
      rewrite E in H2. rewrite (statusPriority_2 _ Hb H2) in Eboth.
      discriminate.
  - apply Z.eqb_neq in E. simpl.
    destruct (0 <? priority a - priority b) eqn:E1.
    + apply Z.ltb_lt in E1. left. lia.
    + apply Z.ltb_ge in E1. left. lia.
Qed.

(** X10. When every student has a status that is missing or one of 'Applying
    Next Cycle', 'Not Applying', 'Currently Applying', and a class year
    that is missing or starts with a number, the result of
    [sortStudentsByStatusAndClassYear] is ordered by rank and, among the
    students who are not applying, by class year, oldest first, a missing
    class year counting as 9999. *)
Theorem sorted_by_status_and_class_year (l : list Student.t) :
  Forall sortable l ->
  StronglySorted before_or_equal (sortStudentsByStatusAndClassYear l).
Proof.
  intros Hall. rewrite Forall_forall in Hall.
  apply sort_sorted_by_relation.
  - apply before_or_equal_trans.
  - intros x y Hx Hy. apply compare_students_order; apply Hall; assumption.
Qed.

(** ** Accepting every suggestion *)

Lemma accept_bucket (st : state) (x : Matcher.suggestion) (e : string) :
  bucket (assignments (handleAcceptAssignment st x)) e
  = if String.eqb (Nrt.email (Matcher.nrt x)) e
    then (bucket (assignments st) e ++ [Matcher.student x])%list
    else bucket (assignments st) e.
Proof.
  unfold handleAcceptAssignment. simpl. rewrite bucket_set.
  destruct (String.eqb (Nrt.email (Matcher.nrt x)) e) eqn:E; [| reflexivity].
  apply String.eqb_eq in E. subst e. reflexivity.
Qed.

Lemma accept_pool_other (st : state) (x : Matcher.suggestion) (r : Z) :
  r <> Student.row_index (Matcher.student x) ->
  existsb (is_row (IdNum r)) (students (handleAcceptAssignment st x))
  = existsb (is_row (IdNum r)) (students st).
Proof.
  intros Hne. unfold handleAcceptAssignment. simpl.
  rewrite !existsb_is_row.
  change (filter (fun s => negb (Student.row_index s =? Student.row_index (Matcher.student x)))
                 (students st))
    with (without (IdNum (Student.row_index (Matcher.student x))) (students st)).
  rewrite occ_without_other by congruence. reflexivity.
Qed.

Lemma accept_all_located (roster : list Z) (l : list Matcher.suggestion) (st : state) :
  NoDup (Matcher.suggested_rows l) ->
  (forall x, In x l ->
     existsb (is_row (IdNum (Student.row_index (Matcher.student x)))) (students st) = true) ->
  well_located roster st ->
  well_located roster (accept_all st l).
Proof.
  revert st. induction l as [| x l IH]; intros st Hnd Hpool Hwl; simpl; [exact Hwl |].
  simpl in Hnd. inversion Hnd as [| ? ? Hnotin Hnd']; subst.
  apply IH; [exact Hnd' | |].
  - intros y Hy. rewrite accept_pool_other; [apply Hpool; right; exact Hy |].
    intros Heq. apply Hnotin. unfold Matcher.suggested_rows.
    rewrite <- Heq. apply in_map with (f := fun a => Student.row_index (Matcher.student a)).
    exact Hy.
  - apply BoardInvariant.handleAcceptAssignment_located; [| exact Hwl].
    apply Hpool. left. reflexivity.
Qed.

Lemma accept_all_size (l : list Matcher.suggestion) (st : state) (e : string) :
  bucket_size (assignments (accept_all st l)) e
  = bucket_size (assignments st) e + Matcher.entries_for e l
  /\ currentAssignments (accept_all st l) = currentAssignments st.
Proof.
  revert st. induction l as [| x l IH]; intros st; simpl.
  - unfold Matcher.entries_for. simpl. split; [lia | reflexivity].
  - destruct (IH (handleAcceptAssignment st x)) as [-> ->].
    split; [| reflexivity].
    rewrite !bucket_size_bucket, accept_bucket.
    unfold Matcher.entries_for. simpl filter.
    destruct (String.eqb (Nrt.email (Matcher.nrt x)) e); [| lia].
    rewrite length_app. simpl List.length. lia.
Qed.

Lemma accept_all_clears (l : list Matcher.suggestion) (st : state) :
  (forall y, In y (tentativeAssignments st) -> In y l) ->
  tentativeAssignments (accept_all st l) = [].
Proof.
  revert st. induction l as [| x l IH]; intros st Hsub; simpl.
  - destruct (tentativeAssignments st) as [| y t]; [reflexivity |].
    destruct (Hsub y (or_introl eq_refl)).
  - apply IH. intros y Hy. unfold handleAcceptAssignment in Hy. simpl in Hy.
    apply filter_In in Hy. destruct Hy as [Hy Hother].
    destruct (Hsub y Hy) as [<- | Hin]; [| exact Hin].
    unfold other_pair in Hother. rewrite Z.eqb_refl, String.eqb_refl in Hother.
    discriminate.
Qed.

(** X11. On a board where every student of the roster is in exactly one place
    and no new assignment has been made yet, asking for suggestions and
    accepting all of them, one after the other, leaves every student of
    the roster in exactly one place, leaves no suggestion in the list,
    gives every tutor as many new assignments as it had suggestions, and
    brings no tutor above 3 students, nor adds to one who has more. *)
Theorem accepting_all_suggestions (roster : list Z) (st : state) :
  well_located roster st ->
  (forall email, bucket_size (assignments st) email = 0) ->
  let suggested := handleSuggestAssignments st in
  let final := accept_all suggested (tentativeAssignments suggested) in
  well_located roster final
  /\ tentativeAssignments final = []
  /\ forall email,
       bucket_size (assignments final) email
       = Matcher.entries_for email (tentativeAssignments suggested)
       /\ total final email <= Z.max 3 (total st email).
Proof.
  intros Hwl Hempty suggested final. subst final suggested.
  unfold handleSuggestAssignments. simpl tentativeAssignments.
  set (l := Matcher.generateOptimalAssignments (students st) (allNrts st)
              (currentAssignments st)).
  set (st1 := with_tentative st l true).
  split; [| split].
  - apply accept_all_located.
    + apply MatcherMore.generated_rows_distinct.
    + intros x Hx.
      destruct (MatcherMore.generated_pairs _ _ _ _ Hx) as (s & n & Hs & _ & ->).
      simpl. apply existsb_exists. exists s. split; [exact Hs | simpl; apply Z.eqb_refl].
    + apply (BoardInvariant.well_located_same roster st); [repeat split | exact Hwl].
  - apply accept_all_clears. intros y Hy. exact Hy.
  - intros email.
    destruct (accept_all_size l st1 email) as [Hsize Hcur].
    change (assignments st1) with (assignments st) in Hsize.
    change (currentAssignments st1) with (currentAssignments st) in Hcur.
    rewrite Hempty in Hsize. split; [rewrite Hsize; lia |].
    unfold total. rewrite Hsize, Hcur, Hempty.
    destruct (MatcherMore.generated_within_capacity (students st) (allNrts st)
                (currentAssignments st) email) as [Hge Hcap].
    fold l in Hge, Hcap.
    change (Matcher.currentCount (currentAssignments st) email)
      with (bucket_size (currentAssignments st) email) in Hcap.
    lia.
Qed.

End BoardMore.

(* ================================================================== *)
(** * Row indices as property keys *)
(* ================================================================== *)

Module JsKeysFacts.
Import JsKeys.

Definition is_digit (c : ascii) : bool :=
  ((48 <=? Js.code c) && (Js.code c <=? 57))%nat.

Fixpoint all_digits (s : string) : bool :=
  match s with
  | EmptyString => true
  | String c r => is_digit c && all_digits r
  end.

Lemma digit_char_spec (d : Z) :
  0 <= d < 10 ->
  let c := digit_char d in
  is_digit c = true /\ Js.digit_of 10 c = Some d /\ Js.is_space_char c = false
  /\ c <> "-"%char /\ c <> "+"%char /\ c <> "x"%char /\ c <> "X"%char.
Proof.
  intros Hd.
  assert (d = 0 \/ d = 1 \/ d = 2 \/ d = 3 \/ d = 4 \/ d = 5 \/ d = 6 \/ d = 7 \/ d = 8 \/ d = 9)
    as Hcases by lia.
  repeat (destruct Hcases as [-> | Hcases]; [vm_compute; repeat split; discriminate |]).
  subst d. vm_compute. repeat split; discriminate.
Qed.

Lemma all_digits_app (s t : string) :
  all_digits (s ++ t) = all_digits s && all_digits t.
Proof.
  induction s as [| c s IH]; simpl; [reflexivity |].
  rewrite IH. apply andb_assoc.
Qed.

Lemma digits_of_all_digits (fuel : nat) (n : Z) :
  0 <= n -> all_digits (digits_of fuel n) = true.
Proof.
  revert n. induction fuel as [| fuel IH]; intros n Hn; cbn [digits_of]; [reflexivity |].
  assert (0 <= n mod 10 < 10) as Hd by (apply Z.mod_pos_bound; lia).
  destruct (digit_char_spec _ Hd) as (Hdig & _).
  destruct (n <? 10).
  - cbn [all_digits]. rewrite Hdig. reflexivity.
  - rewrite all_digits_app. cbn [all_digits]. rewrite Hdig, IH; [reflexivity |].
    apply Z.div_pos; lia.
Qed.

Lemma digits_of_nonempty (fuel : nat) (n : Z) : digits_of (S fuel) n <> EmptyString.
Proof.
  cbn [digits_of]. destruct (n <? 10); [discriminate |].
  destruct (digits_of fuel (n / 10)); discriminate.
Qed.

Lemma string_app_assoc (a b c : string) : ((a ++ b) ++ c)%string = (a ++ (b ++ c))%string.
Proof. induction a as [| x a IH]; simpl; [reflexivity | rewrite IH; reflexivity]. Qed.

(** Reading the digits that were written gives the number. *)
Lemma digits_of_read (fuel : nat) (n : Z) (rest : string) :
  0 <= n < 2 ^ Z.of_nat (S fuel) ->
  Js.digits 10 None (digits_of (S fuel) n ++ rest) = Js.digits 10 (Some n) rest.
Proof.
  revert n rest. induction fuel as [| fuel IH]; intros n rest Hn;
    assert (0 <= n mod 10 < 10) as Hd by (apply Z.mod_pos_bound; lia);
    destruct (digit_char_spec _ Hd) as (_ & Hdigit & _);
    cbn [digits_of]; destruct (n <? 10) eqn:Esmall.
  - apply Z.ltb_lt in Esmall. cbn [String.append Js.digits]. rewrite Hdigit.
    rewrite Z.mod_small by lia. replace (10 * 0 + n) with n by lia. reflexivity.
  - apply Z.ltb_ge in Esmall. change (2 ^ Z.of_nat 1) with 2 in Hn. lia.
  - apply Z.ltb_lt in Esmall. cbn [String.append Js.digits]. rewrite Hdigit.
    rewrite Z.mod_small by lia. replace (10 * 0 + n) with n by lia. reflexivity.
  - apply Z.ltb_ge in Esmall.
    rewrite string_app_assoc.
    change (if n / 10 <? 10
            then String (digit_char ((n / 10) mod 10)) EmptyString
            else (digits_of fuel (n / 10 / 10)
                  ++ String (digit_char ((n / 10) mod 10)) EmptyString)%string)
      with (digits_of (S fuel) (n / 10)).
    rewrite IH.
    + cbn [String.append Js.digits]. rewrite Hdigit.
      replace (10 * (n / 10) + n mod 10) with n
        by (pose proof (Z.div_mod n 10); lia).
      reflexivity.
    + split; [apply Z.div_pos; lia |].
      apply Z.div_lt_upper_bound; [lia |].
      rewrite (Nat2Z.inj_succ (S fuel)), Z.pow_succ_r in Hn by lia. lia.
Qed.

Lemma log2_fuel (n : Z) : 0 < n -> 0 <= n < 2 ^ Z.of_nat (S (Z.to_nat (Z.log2 n))).
Proof.
  intros Hn. split; [lia |].
  rewrite Nat2Z.inj_succ, Z2Nat.id by apply Z.log2_nonneg.
  apply Z.log2_spec. exact Hn.
Qed.

Lemma startsWith_0x_digits (s : string) (p : ascii) :
  (p = "x"%char \/ p = "X"%char) -> all_digits s = true ->
  Js.startsWith (String "0" (String p EmptyString)) s = false.
Proof.
  intros Hp Hs. destruct s as [| a [| b r]]; cbn [Js.startsWith].
  - reflexivity.
  - apply andb_false_r.
  - cbn [all_digits] in Hs. apply andb_prop in Hs. destruct Hs as [_ Hs].
    apply andb_prop in Hs. destruct Hs as [Hb _].
    destruct (Ascii.eqb p b) eqn:E; [| apply andb_false_r].
    apply Ascii.eqb_eq in E. subst b.
    destruct Hp as [-> | ->]; vm_compute in Hb; discriminate.
Qed.

Lemma parseInt_digits_of (fuel : nat) (n : Z) :
  0 <= n < 2 ^ Z.of_nat (S fuel) ->
  Js.parseInt (digits_of (S fuel) n) = Js.Num n
  /\ Js.parseInt ("-" ++ digits_of (S fuel) n) = Js.Num (- n).
Proof.
  intros Hn.
  pose proof (digits_of_all_digits (S fuel) n (proj1 Hn)) as Hall.
  pose proof (digits_of_read fuel n EmptyString Hn) as Hread.
  assert (forall s, (s ++ "")%string = s) as Happ
    by (induction s as [| c s IH]; simpl; [| rewrite IH]; reflexivity).
  rewrite Happ in Hread. cbn [Js.digits] in Hread.
  pose proof (digits_of_nonempty fuel n) as Hne.
  destruct (digits_of (S fuel) n) as [| c r] eqn:Es; [contradiction |].
  assert (Js.is_space_char c = false /\ c <> "-"%char /\ c <> "+"%char) as (Hsp & Hm & Hp).
  { cbn [all_digits] in Hall. apply andb_prop in Hall. destruct Hall as [Hc _].
    unfold is_digit, Js.code in Hc. unfold Js.is_space_char, Js.code.
    destruct c as [[] [] [] [] [] [] [] []]; vm_compute in Hc; try discriminate;
      repeat split; try reflexivity; discriminate. }
  assert (Js.startsWith "0x" (String c r) || Js.startsWith "0X" (String c r) = false) as Hhex.
  { rewrite (startsWith_0x_digits _ "x"), (startsWith_0x_digits _ "X"); auto. }
  split.
  - unfold Js.parseInt. cbn [Js.trim_start]. rewrite Hsp.
    assert ((match String c r with
             | String "-"%char r0 => (true, r0)
             | String "+"%char r0 => (false, r0)
             | _ => (false, String c r)
             end) = (false, String c r)) as ->.
    { destruct c as [[] [] [] [] [] [] [] []]; try reflexivity; congruence. }
    rewrite Hhex, Hread. reflexivity.
  - unfold Js.parseInt.
    change ("-" ++ String c r)%string with (String "-" (String c r)).
    change (Js.trim_start (String "-" (String c r))) with (String "-" (String c r)).
    cbv iota beta. rewrite Hhex, Hread. reflexivity.
Qed.

(** [parseInt(String(n))] is [n]: the row index that [handleNext] writes
    as a property key is the row index that the commit reads back. *)
Lemma parseInt_toString (n : Z) : Js.parseInt (toString n) = Js.Num n.
Proof.
  destruct n as [| p | p]; [reflexivity | |].
  - unfold toString. apply parseInt_digits_of. apply log2_fuel. lia.
  - unfold toString.
    destruct (parseInt_digits_of (Z.to_nat (Z.log2 (- Z.neg p))) (- Z.neg p)) as [_ H].
    { apply log2_fuel. lia. }
    rewrite H. reflexivity.
Qed.

Lemma toString_inj (n m : Z) : toString n = toString m -> n = m.
Proof.
  intros H. pose proof (parseInt_toString n) as Hn.
  rewrite H, parseInt_toString in Hn. injection Hn as ->. reflexivity.
Qed.

Lemma string_app_nil (s : string) : (s ++ "")%string = s.
Proof. induction s as [| c s IH]; simpl; [| rewrite IH]; reflexivity. Qed.

Lemma digits_toString (n : Z) : 0 <= n -> Js.digits 10 None (toString n) = Some n.
Proof.
  intros Hn. destruct n as [| p | p]; [reflexivity | | lia].
  unfold toString.
  pose proof (digits_of_read (Z.to_nat (Z.log2 (Z.pos p))) (Z.pos p) EmptyString
                (log2_fuel _ (Pos2Z.is_pos p))) as H.
  rewrite string_app_nil in H. exact H.
Qed.

(** The key of a row index from 0 to 2^32 - 2 is an array index. *)
Lemma array_index_toString (n : Z) :
  0 <= n <= 4294967294 -> array_index (toString n) = Some n.
Proof.
  intros Hn. unfold array_index. rewrite digits_toString by lia.
  rewrite String.eqb_refl. simpl andb.
  destruct (n <=? 4294967294) eqn:E; [reflexivity |].
  apply Z.leb_gt in E. lia.
Qed.

Lemma array_index_key (k : string) (i : Z) : array_index k = Some i -> k = toString i.
Proof.
  unfold array_index. intros H.
  destruct (Js.digits 10 None k) as [v |]; [| discriminate].
  destruct (String.eqb (toString v) k) eqn:E; [| discriminate].
  destruct (v <=? 4294967294); [| discriminate].
  injection H as <-. apply String.eqb_eq in E. symmetry. exact E.
Qed.

End JsKeysFacts.
(* ================================================================== *)
(** * The steps that stage deletions: what is selected *)
(* ================================================================== *)

Module DeleteStepsFacts.
Import DeleteSteps.

(** ** Students *)

Lemma has_app (l : list Z) (t r : Z) : has (l ++ [t]) r = has l r || (r =? t).
Proof. unfold has. rewrite existsb_app. simpl. rewrite orb_false_r. reflexivity. Qed.

Lemma has_filter (l : list Z) (t r : Z) :
  has (filter (fun x => negb (x =? t)) l) r = has l r && negb (r =? t).
Proof.
  unfold has. induction l as [| x l IH]; simpl; [reflexivity |].
  destruct (x =? t) eqn:Ext; simpl.
  - rewrite IH. destruct (r =? x) eqn:Erx; simpl; [| reflexivity].
    apply Z.eqb_eq in Ext, Erx. subst. rewrite Z.eqb_refl. simpl.
    apply andb_false_r.
  - rewrite IH. destruct (r =? x) eqn:Erx; simpl; [| reflexivity].
    apply Z.eqb_eq in Erx. subst x. rewrite Ext. reflexivity.
Qed.

(** A click changes the box that is clicked and no other. *)
Lemma has_toggle (l : list Z) (t r : Z) :
  has (handleToggle l t) r = if r =? t then negb (has l r) else has l r.
Proof.
  unfold handleToggle. destruct (has l t) eqn:Et.
  - rewrite has_filter. destruct (r =? t) eqn:E; simpl.
    + apply Z.eqb_eq in E. subst r. rewrite Et. apply andb_false_r.
    + apply andb_true_r.
  - rewrite has_app. destruct (r =? t) eqn:E; simpl.
    + apply Z.eqb_eq in E. subst r. rewrite Et. reflexivity.
    + apply orb_false_r.
Qed.

Lemma toggle_nodup (l : list Z) (t : Z) : NoDup l -> NoDup (handleToggle l t).
Proof.
  intros Hnd. unfold handleToggle. destruct (has l t) eqn:Et.
  - apply NoDup_filter. exact Hnd.
  - apply (Permutation_NoDup (l := t :: l)); [apply Permutation_cons_append |].
    constructor; [| exact Hnd].
    intros Hin. unfold has in Et.
    assert (existsb (Z.eqb t) l = true) as Hex
      by (apply existsb_exists; exists t; split; [exact Hin | apply Z.eqb_refl]).
    congruence.
Qed.

Lemma has_after (toggles : list Z) (l : list Z) (r : Z) :
  has (fold_left handleToggle toggles l) r
  = xorb (has l r) (Nat.odd (count_occ Z.eq_dec toggles r)).
Proof.
  revert l. induction toggles as [| t toggles IH]; intros l; simpl.
  - rewrite xorb_false_r. reflexivity.
  - rewrite IH, has_toggle.
    destruct (Z.eq_dec t r) as [-> | Hne].
    + rewrite Z.eqb_refl, Nat.odd_succ, <- Nat.negb_odd.
      destruct (has l r); destruct (Nat.odd _); reflexivity.
    + replace (r =? t) with false by (symmetry; apply Z.eqb_neq; congruence).
      reflexivity.
Qed.

Lemma nodup_after (toggles : list Z) (l : list Z) :
  NoDup l -> NoDup (fold_left handleToggle toggles l).
Proof.
  revert l. induction toggles as [| t toggles IH]; intros l Hnd; simpl; [exact Hnd |].
  apply IH, toggle_nodup, Hnd.
Qed.

Lemma selected_In (l : list Z) (r : Z) : has l r = true <-> In r l.
Proof.
  unfold has. rewrite existsb_exists. split.
  - intros (x & Hin & E). apply Z.eqb_eq in E. subst x. exact Hin.
  - intros Hin. exists r. split; [exact Hin | apply Z.eqb_refl].
Qed.

(** A student is found for every selected row index that is listed. *)
Lemma students_found (students : list Student.t) (selected : list Z) :
  (forall r, In r selected ->
             existsb (fun s => Student.row_index s =? r) students = true) ->
  exists chosen,
    handleNext students selected = map Some chosen
    /\ map Student.row_index chosen = selected
    /\ Forall (fun s => In s students) chosen.
Proof.
  unfold handleNext. induction selected as [| r rest IH]; intros Hfound.
  - exists []. repeat split. constructor.
  - destruct IH as (chosen & Hmap & Hrows & Hall).
    { intros x Hx. apply Hfound. right. exact Hx. }
    specialize (Hfound r (or_introl eq_refl)).
    destruct (find (fun s => Student.row_index s =? r) students) as [s |] eqn:Efind.
    + pose proof (find_some _ _ Efind) as [Hin Hrow]. apply Z.eqb_eq in Hrow.
      exists (s :: chosen). cbn [map]. rewrite Efind, Hmap, Hrow, Hrows.
      repeat split. constructor; assumption.
    + exfalso. apply existsb_exists in Hfound. destruct Hfound as (s & Hin & Hrow).
      apply (find_none _ _ Efind) in Hin. congruence.
Qed.

(** X29. The students staged for deletion are those whose check box
    was clicked an odd number of times.  After any sequence of clicks on
    the boxes of listed students, the selection holds a row index if and
    only if its box was clicked an odd number of times, and holds it
    once; [handleNext] stages one student for every selected row index,
    in the order of selection, and that student is a listed student with
    that row index (no entry is undefined). *)
Theorem selected_iff_toggled_odd (students : list Student.t) (toggles : list Z) :
  Forall (fun r => existsb (fun s => Student.row_index s =? r) students = true) toggles ->
  NoDup (selection toggles)
  /\ (forall r, In r (selection toggles)
                <-> Nat.odd (count_occ Z.eq_dec toggles r) = true)
  /\ exists chosen,
       handleNext students (selection toggles) = map Some chosen
       /\ map Student.row_index chosen = selection toggles
       /\ Forall (fun s => In s students) chosen.
Proof.
  intros Hlisted.
  assert (forall r, In r (selection toggles)
                    <-> Nat.odd (count_occ Z.eq_dec toggles r) = true) as Hodd.
  { intros r. rewrite <- selected_In. unfold selection. rewrite has_after. simpl.
    destruct (Nat.odd _); simpl; split; auto. }
  split; [apply nodup_after; constructor | split; [exact Hodd |]].
  apply students_found. intros r Hr.
  apply Hodd in Hr. rewrite Forall_forall in Hlisted. apply Hlisted.
  destruct (in_dec Z.eq_dec r toggles) as [Hin | Hnin]; [exact Hin |].
  rewrite (proj1 (count_occ_not_In Z.eq_dec toggles r) Hnin) in Hr. discriminate.
Qed.

(** ** NRTs *)

Definition rows (l : list Nrt.t) : list Z := map Nrt.row_index l.

Lemma is_marked_In (deleted : list Nrt.t) (nrt : Nrt.t) :
  is_marked deleted nrt = true <-> In (Nrt.row_index nrt) (rows deleted).
Proof.
  unfold is_marked, rows. rewrite existsb_exists, in_map_iff. split.
  - intros (d & Hin & E). apply Z.eqb_eq in E. exists d. auto.
  - intros (d & E & Hin). exists d. split; [exact Hin | apply Z.eqb_eq; exact E].
Qed.

Lemma rows_filter_nodup (f : Nrt.t -> bool) (l : list Nrt.t) :
  NoDup (rows l) -> NoDup (rows (filter f l)).
Proof.
  unfold rows. induction l as [| x l IH]; simpl; intros Hnd; [constructor |].
  inversion Hnd as [| ? ? Hnin Hnd']. subst.
  destruct (f x); simpl; [| apply IH; exact Hnd'].
  constructor; [| apply IH; exact Hnd'].
  intros Hin. apply Hnin. apply in_map_iff in Hin. destruct Hin as (y & E & Hy).
  apply filter_In in Hy. apply in_map_iff. exists y. tauto.
Qed.

Lemma act_nodup (deleted : list Nrt.t) (a : action) :
  NoDup (rows deleted) -> NoDup (rows (act deleted a)).
Proof.
  intros Hnd. destruct a as [confirmed nrt | nrt]; simpl.
  - unfold handleDelete. destruct confirmed; [| exact Hnd].
    destruct (is_marked deleted nrt) eqn:Em; simpl; [exact Hnd |].
    unfold rows. rewrite map_app. simpl.
    apply (Permutation_NoDup (l := Nrt.row_index nrt :: map Nrt.row_index deleted));
      [apply Permutation_cons_append |].
    constructor; [| exact Hnd].
    intros Hin. apply is_marked_In in Hin. congruence.
  - apply rows_filter_nodup. exact Hnd.
Qed.

Lemma restore_absent (deleted : list Nrt.t) (nrt : Nrt.t) :
  is_marked deleted nrt = false -> handleRestore deleted nrt = deleted.
Proof.
  unfold is_marked, handleRestore. induction deleted as [| d deleted IH]; simpl; [reflexivity |].
  destruct (Nrt.row_index d =? Nrt.row_index nrt); simpl; [discriminate |].
  intros H. rewrite (IH H). reflexivity.
Qed.

(** X30. An NRT is marked for deletion at most once, and a mark can
    be taken back.  From a list in which no row index occurs twice,
    every sequence of [handleDelete] (confirmed or not) and
    [handleRestore] leads to a list in which no row index occurs twice;
    marking an NRT that is not marked, then restoring it, gives back the
    list as it was; and an NRT that is marked is not among the available
    NRTs. *)
Theorem marked_at_most_once (initial : list Nrt.t) (actions : list action) :
  NoDup (rows initial) ->
  let deleted := after initial actions in
  NoDup (rows deleted)
  /\ (forall nrt, is_marked deleted nrt = false ->
                  handleRestore (handleDelete true deleted nrt) nrt = deleted)
  /\ (forall nrts nrt, ~ In nrt (availableNrts nrts (handleDelete true deleted nrt))).
Proof.
  intros Hinit deleted. split; [| split].
  - subst deleted. unfold after. revert initial Hinit.
    induction actions as [| a actions IH]; intros initial Hinit; simpl; [exact Hinit |].
    apply IH, act_nodup, Hinit.
  - intros nrt Hfree. unfold handleDelete. rewrite Hfree. simpl.
    unfold handleRestore. rewrite filter_app. simpl.
    rewrite Z.eqb_refl. simpl. rewrite app_nil_r.
    apply restore_absent. exact Hfree.
  - intros nrts nrt Hin. unfold availableNrts in Hin. apply filter_In in Hin.
    destruct Hin as [_ Hfree]. apply negb_true_iff in Hfree.
    unfold handleDelete in Hfree.
    destruct (is_marked deleted nrt) eqn:Em; simpl in Hfree; [congruence |].
    unfold is_marked in Hfree. rewrite existsb_app in Hfree. simpl in Hfree.
    rewrite Z.eqb_refl in Hfree. rewrite orb_true_r in Hfree. discriminate.
Qed.

End DeleteStepsFacts.
(* ================================================================== *)
(** * From the board to the commit: the hand-over of the NRT step *)
(* ================================================================== *)

Module HandOver.
Import Board BoardCounts Session JsKeys JsKeysFacts Commit CommitSpec.

(** ** Writing a property *)

Section PutFacts.
Context {V : Type}.

Lemma get_app (o o' : Js.obj V) (k : string) :
  Js.get (o ++ o')%list k = match Js.get o k with
                       | Some v => Some v
                       | None => Js.get o' k
                       end.
Proof.
  induction o as [| [k0 v0] o IH]; simpl; [reflexivity |].
  destruct (String.eqb k0 k); [reflexivity | exact IH].
Qed.

Lemma get_insert_index (i : Z) (k : string) (v : V) (o : Js.obj V) (k' : string) :
  Js.get o k = None ->
  Js.get (insert_index i k v o) k' = if String.eqb k k' then Some v else Js.get o k'.
Proof.
  induction o as [| [k0 v0] o IH]; simpl; intros Hnew; [reflexivity |].
  destruct (String.eqb k0 k) eqn:E0; [discriminate |].
  destruct (array_index k0) as [j |]; [destruct (i <? j) |]; simpl; try reflexivity.
  rewrite (IH Hnew).
  destruct (String.eqb k0 k') eqn:E1; [| reflexivity].
  destruct (String.eqb k k') eqn:E2; [| reflexivity].
  apply String.eqb_eq in E1, E2. subst. rewrite String.eqb_refl in E0. discriminate.
Qed.

(** Reading after writing. *)
Lemma get_put (o : Js.obj V) (k : string) (v : V) (k' : string) :
  Js.get (put o k v) k' = if String.eqb k k' then Some v else Js.get o k'.
Proof.
  unfold put. destruct (Js.get o k) as [old |] eqn:E.
  - apply JsFacts.get_set.
  - destruct (array_index k) as [i |].
    + apply get_insert_index. exact E.
    + rewrite get_app. simpl.
      destruct (String.eqb k k') eqn:E1.
      * apply String.eqb_eq in E1. subst k'. rewrite E. reflexivity.
      * destruct (Js.get o k'); reflexivity.
Qed.

Lemma insert_index_perm (i : Z) (k : string) (v : V) (o : Js.obj V) :
  Permutation (insert_index i k v o) ((k, v) :: o).
Proof.
  induction o as [| [k0 v0] o IH]; simpl; [apply Permutation_refl |].
  destruct (array_index k0) as [j |]; [destruct (i <? j) |]; try apply Permutation_refl.
  apply (Permutation_trans (l' := (k0, v0) :: (k, v) :: o)).
  - apply perm_skip. exact IH.
  - apply perm_swap.
Qed.

Lemma in_set (o : Js.obj V) (k : string) (v : V) (e : string * V) :
  In e (Js.set o k v) -> e = (k, v) \/ In e o.
Proof.
  induction o as [| [k0 v0] o IH]; simpl.
  - intros [<- | []]. left. reflexivity.
  - destruct (String.eqb k0 k) eqn:E; simpl.
    + apply String.eqb_eq in E. subst k0. intros [<- | H]; auto.
    + intros [<- | H]; [auto |]. destruct (IH H); auto.
Qed.

(** A write adds at most the property written. *)
Lemma in_put (o : Js.obj V) (k : string) (v : V) (e : string * V) :
  In e (put o k v) -> e = (k, v) \/ In e o.
Proof.
  unfold put. destruct (Js.get o k) as [old |].
  - apply in_set.
  - destruct (array_index k) as [i |].
    + intros H. apply (Permutation_in _ (insert_index_perm i k v o)) in H.
      destruct H as [<- | H]; auto.
    + intros H. apply in_app_or in H. destruct H as [H | [<- | []]]; auto.
Qed.

Lemma keys_put_nodup (o : Js.obj V) (k : string) (v : V) :
  NoDup (Js.keys o) -> NoDup (Js.keys (put o k v)).
Proof.
  intros Hnd. unfold put. destruct (Js.get o k) as [old |] eqn:E.
  - apply JsFacts.keys_set_nodup. exact Hnd.
  - apply JsFacts.get_none_keys in E.
    assert (NoDup (Js.keys ((k, v) :: o))) as Hcons by (constructor; assumption).
    destruct (array_index k) as [i |].
    + apply (Permutation_NoDup (l := Js.keys ((k, v) :: o))); [| exact Hcons].
      apply Permutation_map, Permutation_sym, insert_index_perm.
    + apply (Permutation_NoDup (l := Js.keys ((k, v) :: o))); [| exact Hcons].
      apply Permutation_map. apply Permutation_cons_append.
Qed.

Lemma get_some_in (o : Js.obj V) (k : string) (v : V) :
  Js.get o k = Some v -> In (k, v) o.
Proof.
  induction o as [| [k0 v0] o IH]; simpl; [discriminate |].
  destruct (String.eqb k0 k) eqn:E.
  - apply String.eqb_eq in E. subst k0. intros H. injection H as <-. left. reflexivity.
  - intros H. right. apply IH. exact H.
Qed.

Lemma in_get_some (o : Js.obj V) (k : string) (v : V) :
  NoDup (Js.keys o) -> In (k, v) o -> Js.get o k = Some v.
Proof.
  induction o as [| [k0 v0] o IH]; simpl; [intros _ [] |].
  intros Hnd [H | H].
  - injection H as -> ->. rewrite String.eqb_refl. reflexivity.
  - inversion Hnd as [| ? ? Hnin Hnd']. subst.
    destruct (String.eqb k0 k) eqn:E.
    + apply String.eqb_eq in E. subst k0. exfalso. apply Hnin.
      apply (in_map fst) in H. exact H.
    + apply IH; assumption.
Qed.
End PutFacts.

Lemma fold_left_invariant {A B : Type} (f : A -> B -> A) (P : A -> Prop) (l : list B) (a : A) :
  P a -> (forall a x, In x l -> P a -> P (f a x)) -> P (fold_left f l a).
Proof.
  revert a. induction l as [| x l IH]; simpl; intros a Ha Hstep; [exact Ha |].
  apply IH.
  - apply Hstep; [left; reflexivity | exact Ha].
  - intros a' y Hy. apply Hstep. right. exact Hy.
Qed.

(** ** What [handleNext] hands over *)

(** An invariant of the object under construction holds of the object
    handed over, if every write of a student of a new-assignment bucket
    under the e-mail of that bucket keeps it. *)
Lemma handleNext_invariant (st : state) (P : Js.obj string -> Prop) :
  P [] ->
  (forall acc email s,
      P acc -> In s (bucket (assignments st) email) ->
      P (put acc (toString (Student.row_index s)) email)) ->
  P (handleNext st).
Proof.
  intros Hnil Hput. unfold handleNext.
  apply fold_left_invariant; [exact Hnil |].
  intros acc email _ Hacc.
  apply fold_left_invariant; [exact Hacc |].
  intros acc' s Hs Hacc'. apply Hput; [exact Hacc' | exact Hs].
Qed.

Lemma in_bucket_In (o : Js.obj (list Student.t)) (email : string) (s : Student.t) :
  In s (bucket o email) -> in_bucket o email (IdNum (Student.row_index s)) = true.
Proof.
  unfold bucket, in_bucket. destruct (Js.get o email) as [l |]; [| intros []].
  intros Hin. apply existsb_exists. exists s. split; [exact Hin |].
  simpl. apply Z.eqb_refl.
Qed.

Lemma In_in_bucket (o : Js.obj (list Student.t)) (email : string) (r : Z) :
  in_bucket o email (IdNum r) = true ->
  exists s, In s (bucket o email) /\ Student.row_index s = r.
Proof.
  unfold bucket, in_bucket. destruct (Js.get o email) as [l |]; [| discriminate].
  intros H. apply existsb_exists in H. destruct H as (s & Hin & Hrow).
  exists s. split; [exact Hin |]. simpl in Hrow. apply Z.eqb_eq in Hrow. exact Hrow.
Qed.

Lemma handleNext_new (st : state) : Forall (new_assignment st) (handleNext st).
Proof.
  apply handleNext_invariant; [constructor |].
  intros acc email s Hacc Hs. apply Forall_forall. intros e He.
  apply in_put in He. destruct He as [-> | He].
  - exists (Student.row_index s). split; [reflexivity |]. apply in_bucket_In. exact Hs.
  - rewrite Forall_forall in Hacc. apply Hacc. exact He.
Qed.

Lemma handleNext_nodup (st : state) : NoDup (Js.keys (handleNext st)).
Proof.
  apply (handleNext_invariant st (fun o => NoDup (Js.keys o))); [constructor |].
  intros acc email s Hacc _. apply keys_put_nodup. exact Hacc.
Qed.

(** A property once written stays. *)
Lemma fold_put_keeps {B : Type} (key : B -> string) (email : string) (l : list B)
    (acc : Js.obj string) (k : string) :
  Js.get acc k <> None ->
  Js.get (fold_left (fun acc x => put acc (key x) email) l acc) k <> None.
Proof.
  revert acc. induction l as [| x l IH]; simpl; intros acc Hacc; [exact Hacc |].
  apply IH. rewrite get_put. destruct (String.eqb (key x) k); [discriminate | exact Hacc].
Qed.

Lemma fold_put_writes {B : Type} (key : B -> string) (email : string) (l : list B)
    (acc : Js.obj string) (x : B) :
  In x l ->
  Js.get (fold_left (fun acc x => put acc (key x) email) l acc) (key x) <> None.
Proof.
  revert acc. induction l as [| y l IH]; simpl; intros acc Hin; [contradiction |].
  destruct Hin as [-> | Hin].
  - apply fold_put_keeps. rewrite get_put, String.eqb_refl. discriminate.
  - apply IH. exact Hin.
Qed.

Lemma handleNext_keeps (st : state) (keys : list string) (acc : Js.obj string) (k : string) :
  Js.get acc k <> None ->
  Js.get (fold_left (fun acc email =>
                       fold_left (fun acc s => put acc (toString (Student.row_index s)) email)
                                 (match Js.get (assignments st) email with
                                  | Some l => l
                                  | None => []
                                  end) acc)
                    keys acc) k <> None.
Proof.
  revert acc. induction keys as [| email keys IH]; simpl; intros acc Hacc; [exact Hacc |].
  apply IH.
  apply (fold_put_keeps (fun s => toString (Student.row_index s))). exact Hacc.
Qed.

(** Every student of a new-assignment bucket gets a property. *)
Lemma handleNext_writes (st : state) (email : string) (s : Student.t) :
  In s (bucket (assignments st) email) ->
  Js.get (handleNext st) (toString (Student.row_index s)) <> None.
Proof.
  intros Hs.
  assert (In email (Js.keys (assignments st))) as Hkey.
  { unfold bucket in Hs. destruct (Js.get (assignments st) email) as [l |] eqn:E; [| contradiction].
    apply get_some_in in E. apply (in_map fst) in E. exact E. }
  unfold handleNext. apply in_split in Hkey. destruct Hkey as (pre & post & ->).
  rewrite fold_left_app. simpl.
  apply handleNext_keeps.
  apply (fold_put_writes (fun s => toString (Student.row_index s))).
  exact Hs.
Qed.

(** A student who is in two new-assignment buckets is on the board
    twice. *)
Lemma two_buckets (o : Js.obj (list Student.t)) (e1 e2 : string) (r : Z) :
  e1 <> e2 ->
  in_bucket o e1 (IdNum r) = true -> in_bucket o e2 (IdNum r) = true ->
  (2 <= occ_obj r o)%nat.
Proof.
  intros Hne. unfold in_bucket.
  induction o as [| [k l] o IH]; simpl; [discriminate |].
  destruct (String.eqb k e1) eqn:E1; destruct (String.eqb k e2) eqn:E2.
  - apply String.eqb_eq in E1, E2. subst. contradiction.
  - intros H1 H2. rewrite existsb_is_row in H1.
    assert (in_bucket o e2 (IdNum r) = true) as H2' by exact H2.
    destruct (In_in_bucket o e2 r H2') as (s & Hin & Hrow).
    pose proof (occ_bucket_le r o e2) as Hle.
    assert (1 <= occ r (bucket o e2))%nat as Hone.
    { unfold occ. apply (in_split) in Hin. destruct Hin as (l1 & l2 & ->).
      rewrite filter_app, length_app. simpl. rewrite Hrow, Z.eqb_refl. simpl. lia. }
    destruct (occ r l =? 0)%nat eqn:E0; [discriminate |].
    apply Nat.eqb_neq in E0. lia.
  - intros H1 H2. rewrite existsb_is_row in H2.
    assert (in_bucket o e1 (IdNum r) = true) as H1' by exact H1.
    destruct (In_in_bucket o e1 r H1') as (s & Hin & Hrow).
    pose proof (occ_bucket_le r o e1) as Hle.
    assert (1 <= occ r (bucket o e1))%nat as Hone.
    { unfold occ. apply (in_split) in Hin. destruct Hin as (l1 & l2 & ->).
      rewrite filter_app, length_app. simpl. rewrite Hrow, Z.eqb_refl. simpl. lia. }
    destruct (occ r l =? 0)%nat eqn:E0; [discriminate |].
    apply Nat.eqb_neq in E0. lia.
  - intros H1 H2. specialize (IH H1 H2). lia.
Qed.

(** The property of a student who is in one new-assignment bucket
    only. *)
Lemma handleNext_get (st : state) (r : Z) (email : string) :
  in_bucket (assignments st) email (IdNum r) = true ->
  (forall e, in_bucket (assignments st) e (IdNum r) = true -> e = email) ->
  Js.get (handleNext st) (toString r) = Some email.
Proof.
  intros Hin Honly.
  destruct (In_in_bucket _ _ _ Hin) as (s & Hs & Hrow).
  pose proof (handleNext_writes st email s Hs) as Hwritten. rewrite Hrow in Hwritten.
  destruct (Js.get (handleNext st) (toString r)) as [e |] eqn:Eget; [| contradiction].
  f_equal. apply Honly.
  apply get_some_in in Eget.
  pose proof (handleNext_new st) as Hnew. rewrite Forall_forall in Hnew.
  destruct (Hnew _ Eget) as (r' & Hkey & Hin'). simpl in Hkey, Hin'.
  apply toString_inj in Hkey. subst r'. exact Hin'.
Qed.

(** X13. On a board where every student of the roster is in one place,
    [handleNext] hands over exactly the new assignments: the property of
    a student's row index is the e-mail of a tutor if and only if the
    student is in the new-assignment bucket of that tutor.  A student who
    is unassigned, or only in a current-assignment bucket, gets no
    property. *)
Theorem hand_over_is_the_new_assignments (roster : list Z) (st : state)
    (r : Z) (email : string) :
  well_located roster st -> In r roster ->
  (Js.get (handleNext st) (toString r) = Some email
   <-> in_bucket (assignments st) email (IdNum r) = true).
Proof.
  intros (Hkeys & _ & Hone) Hr. split.
  - intros Hget. apply get_some_in in Hget.
    pose proof (handleNext_new st) as Hnew. rewrite Forall_forall in Hnew.
    destruct (Hnew _ Hget) as (r' & Hkey & Hin). simpl in Hkey, Hin.
    apply toString_inj in Hkey. subst r'. exact Hin.
  - intros Hin. apply handleNext_get; [exact Hin |].
    intros e He. destruct (string_dec e email) as [-> | Hne]; [reflexivity |].
    exfalso.
    pose proof (two_buckets (assignments st) e email r Hne He Hin) as Htwo.
    specialize (Hone r Hr). unfold occurrences in Hone. lia.
Qed.

(** ** The order of the properties *)

Definition in_range (r : Z) : Prop := 0 <= r <= 4294967294.

(** The keys are the row indices [rows], in ascending order. *)
Definition ascending (o : Js.obj string) (rows : list Z) : Prop :=
  Js.keys o = map toString rows /\ StronglySorted Z.lt rows /\ Forall in_range rows.

Lemma insert_index_ascending (i : Z) (v : string) (o : Js.obj string) (rows : list Z) :
  in_range i -> ascending o rows -> ~ In i rows ->
  exists rows', ascending (insert_index i (toString i) v o) rows'
                /\ (forall x, In x rows' -> x = i \/ In x rows).
Proof.
  intros Hi. revert rows. induction o as [| [k0 v0] o IH]; intros rows (Hkeys & Hsorted & Hrange) Hnew.
  - destruct rows; [| discriminate]. exists [i]. split.
    + repeat split; repeat constructor; apply Hi.
    + intros x [<- | []]. left. reflexivity.
  - destruct rows as [| r0 rows0]; [discriminate |].
    simpl in Hkeys. injection Hkeys as Hk0 Hkeys.
    inversion Hsorted as [| ? ? Hsorted0 Hlt]. subst.
    inversion Hrange as [| ? ? Hr0 Hrange0]. subst.
    simpl. rewrite (array_index_toString r0 Hr0).
    destruct (i <? r0) eqn:E.
    + apply Z.ltb_lt in E. exists (i :: r0 :: rows0). split.
      * repeat split.
        -- simpl. f_equal. f_equal. exact Hkeys.
        -- constructor; [exact Hsorted |]. constructor; [exact E |].
           apply Forall_forall. intros x Hx. rewrite Forall_forall in Hlt.
           specialize (Hlt x Hx). lia.
        -- constructor; [exact Hi | exact Hrange].
      * intros x [<- | Hx]; auto.
    + apply Z.ltb_ge in E.
      assert (r0 < i) as Hlt0.
      { destruct (Z.eq_dec r0 i) as [-> | Hne]; [| lia].
        exfalso. apply Hnew. left. reflexivity. }
      destruct (IH rows0) as (rows1 & (Hk1 & Hs1 & Hr1) & Hin1).
      * repeat split; assumption.
      * intros Hin. apply Hnew. right. exact Hin.
      * exists (r0 :: rows1). split.
        -- repeat split.
           ++ simpl. f_equal. exact Hk1.
           ++ constructor; [exact Hs1 |].
              apply Forall_forall. intros x Hx. destruct (Hin1 x Hx) as [-> | Hx0]; [exact Hlt0 |].
              rewrite Forall_forall in Hlt. apply Hlt. exact Hx0.
           ++ constructor; [exact Hr0 | exact Hr1].
        -- intros x [<- | Hx]; [right; left; reflexivity |].
           destruct (Hin1 x Hx) as [-> | Hx0]; [left; reflexivity | right; right; exact Hx0].
Qed.

Lemma put_ascending (i : Z) (v : string) (o : Js.obj string) (rows : list Z) :
  in_range i -> ascending o rows -> exists rows', ascending (put o (toString i) v) rows'.
Proof.
  intros Hi Hasc. unfold put.
  destruct (Js.get o (toString i)) as [old |] eqn:E.
  - exists rows. destruct Hasc as (Hkeys & Hrest). split; [| exact Hrest].
    rewrite JsFacts.keys_set_in; [exact Hkeys |].
    destruct (in_dec string_dec (toString i) (Js.keys o)) as [Hin | Hnin]; [exact Hin |].
    apply JsFacts.get_none_keys in Hnin. rewrite Hnin in E. discriminate.
  - rewrite (array_index_toString i Hi).
    destruct (insert_index_ascending i v o rows Hi Hasc) as (rows' & Hasc' & _).
    + apply JsFacts.get_none_keys in E. destruct Hasc as (Hkeys & _).
      rewrite Hkeys in E. intros Hin. apply E. apply in_map. exact Hin.
    + exists rows'. exact Hasc'.
Qed.

(** X14. The object that [handleNext] hands over enumerates the students
    in ascending order of row index, whatever the order of the tutors and
    of the students in their buckets: the row indices are array indices
    as property keys (they are integers from 0 to 2^32 - 2), and those
    come first and in numeric order in [Object.entries], over which the
    commit loops. *)
Theorem hand_over_in_row_order (st : state) :
  index_rows st ->
  exists rows, Js.keys (handleNext st) = map toString rows /\ StronglySorted Z.lt rows.
Proof.
  intros Hrows.
  assert (exists rows, ascending (handleNext st) rows) as (rows & Hkeys & Hsorted & _).
  { apply (handleNext_invariant st (fun o => exists rows, ascending o rows)).
    - exists []. repeat split; constructor.
    - intros acc email s (rows & Hasc) Hs.
      apply (put_ascending _ _ _ rows); [| exact Hasc].
      unfold bucket in Hs.
      destruct (Js.get (assignments st) email) as [l |] eqn:E; [| contradiction].
      apply get_some_in in E. unfold index_rows in Hrows.
      rewrite Forall_forall in Hrows. specialize (Hrows _ E). simpl in Hrows.
      rewrite Forall_forall in Hrows. apply Hrows. exact Hs. }
  exists rows. split; assumption.
Qed.

(** ** The commit of the board handed over *)

Section Committed.
Variable backend : Type.
Variable serve : backend -> call -> backend * response.

(** X15. Whatever the collaborator answers and whatever else is staged,
    the commit of the object handed over by [handleNext] requests an NRT
    assignment only for a student who is in the new-assignment bucket of
    that tutor on the board, under the student's row index (the key
    written by [handleNext] is read back by [parseInt] as the same
    number): never for a student left unassigned or kept with a current
    tutor. *)
Theorem only_new_assignments_are_committed (d : workflowData) (st : state) (b : backend) :
  Forall (commits_new st)
         (requests backend
            (processWorkflow backend serve (with_nrtAssignments d (handleNext st)) b)).
Proof.
  apply (CommitFacts.keeps_run backend). unfold workflow_body.
  apply CommitFacts.keeps_bind.
  { apply CommitMore.apply_changes_keeps. intros c _ Ha _.
    destruct c; simpl in *; try discriminate; exact I. }
  intros _. apply CommitFacts.keeps_bind.
  { apply CommitMore.assign_all_staged. intros key email _. exact I. }
  intros _. apply CommitFacts.keeps_bind.
  { apply CommitMore.assign_all_staged. intros key email Hin. simpl in Hin.
    pose proof (handleNext_new st) as Hnew. rewrite Forall_forall in Hnew.
    destruct (Hnew _ Hin) as (r & Hkey & Hb). simpl in Hkey, Hb.
    exists r. subst key. split; [apply parseInt_toString | exact Hb]. }
  intros _. destruct (hasChanges _); [| apply CommitFacts.keeps_ret].
  unfold when, export_to_sheets.
  apply CommitFacts.keeps_try_catch; [| intros _; apply CommitFacts.keeps_ret].
  apply CommitFacts.keeps_done, CommitFacts.keeps_await. exact I.
Qed.

Definition for_row (r : Z) (c : call) : bool :=
  match c with
  | AssignNRT (Js.Num r') _ => r' =? r
  | _ => false
  end.

Lemma for_row_is_assignment (r : Z) (trace : list call) :
  filter (for_row r) (filter is_assignment trace) = filter (for_row r) trace.
Proof.
  induction trace as [| c trace IH]; simpl; [reflexivity |].
  destruct (is_assignment c) eqn:Ea; simpl.
  - rewrite IH. reflexivity.
  - rewrite IH. destruct c; simpl in *; try discriminate; reflexivity.
Qed.

Lemma for_row_due_rt (d : workflowData) (r : Z) (entries : Js.obj string) :
  filter (for_row r) (due d AssignRT entries) = [].
Proof.
  unfold due. induction (filter _ entries) as [| e l IH]; simpl; [reflexivity | exact IH].
Qed.

Lemma for_row_due_absent (d : workflowData) (r : Z) (entries : Js.obj string) :
  Forall (fun entry => exists r', fst entry = toString r') entries ->
  ~ In (toString r) (Js.keys entries) ->
  filter (for_row r) (due d AssignNRT entries) = [].
Proof.
  induction entries as [| [k v] entries IH]; intros Hall Hnin; [reflexivity |].
  inversion Hall as [| ? ? (r' & Hk) Hall']. subst. simpl in Hk. subst k.
  assert (filter (for_row r) (due d AssignNRT entries) = []) as Hrest
    by (apply IH; [exact Hall' | simpl in Hnin; tauto]).
  rewrite CommitMore.due_cons, parseInt_toString.
  destruct (was_deleted d (Js.Num r')); [exact Hrest |].
  cbn [filter for_row].
  destruct (r' =? r) eqn:E; [| exact Hrest].
  apply Z.eqb_eq in E. subst r'. exfalso. apply Hnin. left. reflexivity.
Qed.

Lemma for_row_due_present (d : workflowData) (r : Z) (email : string)
    (entries : Js.obj string) :
  Forall (fun entry => exists r', fst entry = toString r') entries ->
  NoDup (Js.keys entries) ->
  In (toString r, email) entries ->
  was_deleted d (Js.Num r) = false ->
  filter (for_row r) (due d AssignNRT entries) = [AssignNRT (Js.Num r) email].
Proof.
  intros Hall Hnd Hin Hdel. induction entries as [| [k v] entries IH]; [contradiction |].
  inversion Hall as [| ? ? (r' & Hk) Hall']. subst. simpl in Hk. subst k.
  simpl in Hnd. inversion Hnd as [| ? ? Hnin Hnd']. subst.
  rewrite CommitMore.due_cons, parseInt_toString.
  destruct Hin as [Hhead | Htail].
  - injection Hhead as Hkey ->. apply toString_inj in Hkey. subst r'.
    rewrite Hdel. cbn [filter for_row]. rewrite Z.eqb_refl. f_equal.
    apply (for_row_due_absent d r entries Hall' Hnin).
  - assert (r' <> r) as Hne.
    { intros ->. apply Hnin. apply (in_map fst) in Htail. exact Htail. }
    specialize (IH Hall' Hnd' Htail).
    destruct (was_deleted d (Js.Num r')); [exact IH |].
    cbn [filter for_row].
    destruct (r' =? r) eqn:E; [| exact IH].
    apply Z.eqb_eq in E. contradiction.
Qed.

(** X16. Against a collaborator that rejects no request but the export,
    and an assignment only with the answer 404 "not found", a student
    who is in the new-assignment bucket of one tutor and of no other, and
    who is not staged for deletion, gets exactly one NRT assignment
    request from the commit of the board handed over, and it names that
    tutor. *)
Theorem new_assignment_is_committed_once (d : workflowData) (st : state) (b : backend)
    (r : Z) (email : string) :
  tolerated serve ->
  in_bucket (assignments st) email (IdNum r) = true ->
  (forall e, in_bucket (assignments st) e (IdNum r) = true -> e = email) ->
  was_deleted d (Js.Num r) = false ->
  nrt_requests_for r
    (requests backend
       (processWorkflow backend serve (with_nrtAssignments d (handleNext st)) b))
  = [AssignNRT (Js.Num r) email].
Proof.
  intros Htol Hin Honly Hdel.
  set (d' := with_nrtAssignments d (handleNext st)).
  destruct (CommitMore.assignments_of_workflow_body backend serve Htol d' b [])
    as (u & b' & t' & E & F).
  unfold processWorkflow, run. rewrite E. simpl.
  change (nrt_requests_for r t') with (filter (for_row r) t').
  rewrite <- for_row_is_assignment, F, filter_app.
  rewrite for_row_due_rt. simpl.
  apply for_row_due_present.
  - apply (Forall_impl _ (P := new_assignment st)); [| apply handleNext_new].
    intros entry (r' & Hk & _). exists r'. exact Hk.
  - apply handleNext_nodup.
  - apply get_some_in. apply handleNext_get; assumption.
  - exact Hdel.
Qed.

End Committed.

End HandOver.
(* ================================================================== *)
(** * The board that [loadData] builds *)
(* ================================================================== *)

Module Loading.
Import Board BoardCounts Session JsKeys HandOver.

Section PutNew.
Context {V : Type}.

Lemma put_new_perm (o : Js.obj V) (k : string) (v : V) :
  Js.get o k = None -> Permutation (put o k v) ((k, v) :: o).
Proof.
  intros E. unfold put. rewrite E.
  destruct (array_index k) as [i |].
  - apply insert_index_perm.
  - apply Permutation_sym, Permutation_cons_append.
Qed.

(** Writing properties under keys that are all different and all new
    adds them all. *)
Lemma fold_put_perm {X : Type} (key : X -> string) (val : X -> V) (l : list X)
    (acc : Js.obj V) :
  NoDup (Js.keys acc ++ map key l)%list ->
  Permutation (fold_left (fun a x => put a (key x) (val x)) l acc)
              (acc ++ map (fun x => (key x, val x)) l)%list.
Proof.
  revert acc. induction l as [| x l IH]; simpl; intros acc Hnd.
  - rewrite app_nil_r. apply Permutation_refl.
  - assert (Js.get acc (key x) = None) as Hnew.
    { apply JsFacts.get_none_keys. intros Hin.
      apply NoDup_remove_2 in Hnd. apply Hnd. apply in_or_app. left. exact Hin. }
    pose proof (put_new_perm acc (key x) (val x) Hnew) as Hperm.
    apply (Permutation_trans (l' := (put acc (key x) (val x)
                                    ++ map (fun x => (key x, val x)) l)%list)).
    + apply IH.
      apply (Permutation_NoDup (l := (Js.keys acc ++ key x :: map key l)%list)); [| exact Hnd].
      apply (Permutation_trans (l' := (key x :: Js.keys acc ++ map key l)%list)).
      * apply Permutation_sym, Permutation_middle.
      * change (key x :: Js.keys acc ++ map key l)%list
          with (Js.keys ((key x, val x) :: acc) ++ map key l)%list.
        apply Permutation_app_tail. apply Permutation_map, Permutation_sym. exact Hperm.
    + apply (Permutation_trans (l' := (((key x, val x) :: acc)
                                      ++ map (fun x => (key x, val x)) l)%list)).
      * apply Permutation_app_tail. exact Hperm.
      * apply Permutation_middle.
Qed.
End PutNew.

Lemma occ_obj_perm (r : Z) (o o' : Js.obj (list Student.t)) :
  Permutation o o' -> occ_obj r o = occ_obj r o'.
Proof.
  intros H. induction H as [| [k l] o o' _ IH | [k l] [k' l'] o | o o' o'' _ IH1 _ IH2]; simpl.
  - reflexivity.
  - rewrite IH. reflexivity.
  - lia.
  - rewrite IH1. exact IH2.
Qed.

(** Among students of different row indices, the places of one of them
    in a selection. *)
Lemma occ_selection (f : persisted -> bool) (students : list persisted) (s : persisted) :
  NoDup (map row_of students) -> In s students ->
  occ (row_of s) (map record (filter f students)) = if f s then 1%nat else 0%nat.
Proof.
  induction students as [| x students IH]; simpl; intros Hnd Hin; [contradiction |].
  inversion Hnd as [| ? ? Hnin Hnd']. subst.
  assert (forall y, In y students -> row_of y = row_of x -> False) as Hfresh.
  { intros y Hy E. apply Hnin. rewrite <- E. apply in_map. exact Hy. }
  assert (occ (row_of x) (map record (filter f students)) = 0%nat) as Hzero.
  { clear - Hfresh. induction students as [| y students IH]; [reflexivity |].
    simpl. assert (row_of y <> row_of x) as Hne
      by (intros E; apply (Hfresh y); [left; reflexivity | exact E]).
    assert (occ (row_of x) (map record (filter f students)) = 0%nat) as Hrest
      by (apply IH; intros z Hz; apply Hfresh; right; exact Hz).
    destruct (f y); [| exact Hrest].
    simpl map. rewrite occ_cons, Hrest.
    fold (row_of y). destruct (row_of y =? row_of x) eqn:E; [| reflexivity].
    apply Z.eqb_eq in E. contradiction. }
  destruct Hin as [-> | Hin].
  - destruct (f s); [| exact Hzero].
    simpl map. rewrite occ_cons, Hzero. fold (row_of s). rewrite Z.eqb_refl. reflexivity.
  - specialize (IH Hnd' Hin).
    destruct (f x); [| exact IH].
    simpl map. rewrite occ_cons, IH. fold (row_of x).
    destruct (row_of x =? row_of s) eqn:E; [| reflexivity].
    apply Z.eqb_eq in E. exfalso. apply (Hfresh s Hin). symmetry. exact E.
Qed.

(** The students recorded with the name of a tutor, for each tutor. *)
Definition current_of (students : list persisted) (n : Nrt.t) : list Student.t :=
  map record (filter (fun s => names (nrt_assignment s) (Nrt.name n)) students).

Lemma occ_obj_current (students : list persisted) (nrts : list Nrt.t) (s : persisted) :
  NoDup (map row_of students) -> In s students ->
  occ_obj (row_of s) (map (fun n => (Nrt.email n, current_of students n)) nrts)
  = List.length (filter (fun n => names (nrt_assignment s) (Nrt.name n)) nrts).
Proof.
  intros Hnd Hin. induction nrts as [| n nrts IH]; [reflexivity |].
  simpl. rewrite IH. unfold current_of at 1.
  rewrite (occ_selection _ students s Hnd Hin).
  destruct (names (nrt_assignment s) (Nrt.name n)); reflexivity.
Qed.

(** Tutors of different names: a student is recorded with one of them
    at most. *)
Lemma one_tutor_named (a : option string) (nrts : list Nrt.t) :
  NoDup (map (fun n => normalized (Nrt.name n)) nrts) ->
  List.length (filter (fun n => names a (Nrt.name n)) nrts)
  = if existsb (fun n => names a (Nrt.name n)) nrts then 1%nat else 0%nat.
Proof.
  induction nrts as [| n nrts IH]; simpl; intros Hnd; [reflexivity |].
  inversion Hnd as [| ? ? Hnin Hnd']. subst. specialize (IH Hnd').
  destruct (names a (Nrt.name n)) eqn:En; simpl; [| exact IH].
  destruct (existsb (fun n0 => names a (Nrt.name n0)) nrts) eqn:Ex.
  - exfalso. apply existsb_exists in Ex. destruct Ex as (m & Hm & Enm).
    apply Hnin. unfold names in En, Enm. destruct a as [a |]; [| discriminate].
    apply andb_prop in En, Enm. destruct En as [_ En]. destruct Enm as [_ Enm].
    apply String.eqb_eq in En, Enm. rewrite <- En, Enm.
    apply (in_map (fun n => normalized (Nrt.name n))). exact Hm.
  - rewrite IH. reflexivity.
Qed.

Lemma blank_names_nobody (a : option string) (nrts : list Nrt.t) :
  is_blank a = true -> existsb (fun n => names a (Nrt.name n)) nrts = false.
Proof.
  intros Hblank. induction nrts as [| n nrts IH]; [reflexivity |].
  simpl. rewrite IH. unfold names, is_blank in *.
  destruct a as [a |]; [| reflexivity]. rewrite Hblank. reflexivity.
Qed.

Lemma fold_put_nodup {V X : Type} (key : X -> string) (val : X -> V) (l : list X) :
  NoDup (Js.keys (fold_left (fun a x => put a (key x) (val x)) l [])).
Proof.
  apply (fold_left_invariant _ (fun o => NoDup (Js.keys o))); [constructor |].
  intros acc x _ Hacc. apply keys_put_nodup. exact Hacc.
Qed.

Lemma fold_put_empty {X : Type} (key : X -> string) (l : list X) (r : Z) :
  occ_obj r (fold_left (fun a x => put a (key x) (@nil Student.t)) l []) = 0%nat.
Proof.
  assert (Forall (fun e => snd e = [])
            (fold_left (fun a x => put a (key x) (@nil Student.t)) l [])) as Hall.
  { apply (fold_left_invariant _ (Forall (fun e : string * list Student.t => snd e = [])));
      [constructor |].
    intros acc x _ Hacc. apply Forall_forall. intros e He.
    apply in_put in He. destruct He as [-> | He]; [reflexivity |].
    rewrite Forall_forall in Hacc. apply Hacc. exact He. }
  induction Hall as [| [k b] o Hb _ IH]; [reflexivity |].
  simpl in *. subst b. exact IH.
Qed.

(** The bucket that [loadData] writes for a tutor is read back, when no
    other tutor has the same e-mail. *)
Lemma fold_put_get {V X : Type} (key : X -> string) (val : X -> V) (l : list X) (x : X) :
  NoDup (map key l) -> In x l ->
  Js.get (fold_left (fun a y => put a (key y) (val y)) l []) (key x) = Some (val x).
Proof.
  intros Hnd Hin. apply in_get_some; [apply fold_put_nodup |].
  apply (Permutation_in _ (Permutation_sym (fold_put_perm key val l [] Hnd))).
  simpl. apply (in_map (fun y => (key y, val y))). exact Hin.
Qed.

(** In how many places a loaded student is. *)
Lemma loaded_counts (students : list persisted) (nrts : list Nrt.t)
    (showOnlyActive : bool) (s : persisted) :
  NoDup (map row_of students) ->
  NoDup (map Nrt.email nrts) ->
  NoDup (map (fun n => normalized (Nrt.name n)) nrts) ->
  In s students ->
  occurrences (loadData students nrts showOnlyActive) (row_of s)
  = if is_placed nrts s then 1%nat else 0%nat.
Proof.
  intros Hrows Hemails Hnames Hs. unfold occurrences, loadData. simpl.
  rewrite (occ_selection _ students s Hrows Hs).
  rewrite fold_put_empty.
  rewrite (occ_obj_perm _ _ _
             (fold_put_perm Nrt.email (current_of students) nrts [] Hemails)).
  simpl app. rewrite (occ_obj_current students nrts s Hrows Hs).
  rewrite (one_tutor_named _ nrts Hnames).
  unfold is_placed.
  destruct (is_blank (nrt_assignment s)) eqn:Eb.
  - rewrite (blank_names_nobody _ nrts Eb). reflexivity.
  - simpl. destruct (existsb _ nrts); reflexivity.
Qed.

Lemma loaded_keys (students : list persisted) (nrts : list Nrt.t) (showOnlyActive : bool) :
  let st := loadData students nrts showOnlyActive in
  NoDup (Js.keys (assignments st)) /\ NoDup (Js.keys (currentAssignments st)).
Proof.
  split; [apply fold_put_nodup | apply (fold_put_nodup Nrt.email (current_of students))].
Qed.

Lemma selected_exists (f : persisted -> bool) (students : list persisted) (s : persisted) :
  In s students -> f s = true ->
  existsb (is_row (IdNum (row_of s))) (map record (filter f students)) = true.
Proof.
  intros Hs Hf. apply existsb_exists. exists (record s). split.
  - apply in_map. apply filter_In. auto.
  - simpl. apply Z.eqb_refl.
Qed.

(** X12. [loadData] builds a board on which every student has one place
    or none.  When the students have different row indices and the NRTs
    have different e-mails and different names (after trimming and
    lower-casing): every student who has no tutor, or whose recorded
    tutor is the name of an NRT, is in exactly one place; a student with
    no tutor is in the unassigned pool; a student whose recorded tutor is
    the name of an NRT is in the current-assignment bucket of that NRT;
    every new-assignment bucket is empty; and a student whose recorded
    tutor is the name of no NRT is nowhere on the board. *)
Theorem loaded_board_places (students : list persisted) (nrts : list Nrt.t)
    (showOnlyActive : bool) :
  NoDup (map row_of students) ->
  NoDup (map Nrt.email nrts) ->
  NoDup (map (fun n => normalized (Nrt.name n)) nrts) ->
  let st := loadData students nrts showOnlyActive in
  well_located (map row_of (filter (is_placed nrts) students)) st
  /\ (forall s, In s students -> is_blank (nrt_assignment s) = true ->
        existsb (is_row (IdNum (row_of s))) (Board.students st) = true)
  /\ (forall s n, In s students -> In n nrts ->
        names (nrt_assignment s) (Nrt.name n) = true ->
        in_bucket (currentAssignments st) (Nrt.email n) (IdNum (row_of s)) = true)
  /\ (forall n, In n nrts -> Js.get (assignments st) (Nrt.email n) = Some [])
  /\ (forall r, occ_obj r (assignments st) = 0%nat)
  /\ (forall s, In s students -> is_placed nrts s = false ->
        occurrences st (row_of s) = 0%nat).
Proof.
  intros Hrows Hemails Hnames st.
  pose proof (fun s => loaded_counts students nrts showOnlyActive s Hrows Hemails Hnames)
    as Hocc. fold st in Hocc.
  split; [| split; [| split; [| split; [| split]]]].
  - destruct (loaded_keys students nrts showOnlyActive) as [Hka Hkc].
    split; [exact Hka | split; [exact Hkc |]].
    intros r Hr. apply in_map_iff in Hr. destruct Hr as (s & <- & Hs).
    apply filter_In in Hs. destruct Hs as [Hs Hplaced].
    rewrite (Hocc s Hs), Hplaced. reflexivity.
  - intros s Hs Hblank. unfold st, loadData. simpl.
    apply selected_exists; assumption.
  - intros s n Hs Hn Hnamed. unfold in_bucket, st, loadData. simpl.
    pose proof (fold_put_get Nrt.email (current_of students) nrts n Hemails Hn) as Hget.
    unfold current_of in Hget. rewrite Hget.
    apply (selected_exists (fun s => names (nrt_assignment s) (Nrt.name n))); assumption.
  - intros n Hn. unfold st, loadData. simpl.
    apply (fold_put_get Nrt.email (fun _ => @nil Student.t) nrts n Hemails Hn).
  - intros r. apply fold_put_empty.
  - intros s Hs Hplaced. rewrite (Hocc s Hs), Hplaced. reflexivity.
Qed.

End Loading.
(* ================================================================== *)
(** * The RT board: where a student is, and how many an RT takes *)
(* ================================================================== *)

Module RtBoardFacts.
Import Board BoardCounts RtBoard.

Lemma unchanged_located (roster : list Z) (st : state) :
  well_located roster st -> well_located roster (unchanged st).
Proof. intros H. exact H. Qed.

(** ** Back to the unassigned pool *)

Lemma rt_dropOnUnassigned_located (roster : list Z) (st : state) (a over_id : id) :
  well_located roster st -> well_located roster (dropOnUnassigned st a over_id).
Proof.
  intros Hwl. pose proof Hwl as (Hka & Hkc & Hocc).
  unfold dropOnUnassigned.
  destruct a as [n | k].
  2: { rewrite !find_bucket_str. exact Hwl. }
  destruct (find_bucket (IdNum n) (assignments st)) as [[[email l] found] |] eqn:Ea.
  - split; [| split]; simpl.
    + apply JsFacts.keys_set_nodup, Hka.
    + exact Hkc.
    + intros r Hr. specialize (Hocc r Hr). unfold occurrences in *. simpl.
      apply (BoardInvariant.move_out_counts r n _ email l _ found _ _ Hka Ea). exact Hocc.
  - destruct (find_bucket (IdNum n) (currentAssignments st)) as [[[email l] found] |] eqn:Ec.
    + split; [| split]; simpl.
      * exact Hka.
      * apply JsFacts.keys_set_nodup, Hkc.
      * intros r Hr. specialize (Hocc r Hr). unfold occurrences in *. simpl.
        pose proof (BoardInvariant.move_out_counts r n _ email l (students st) found
                      (insertIndex st over_id (sortStudentsByStatusAndClassYear (students st)))
                      (occ_obj r (assignments st)) Hkc Ec) as H.
        lia.
    + exact Hwl.
Qed.

(** ** Onto an RT *)

(** The counts after the student of row index [n] is taken out of the
    buckets of the other RTs and added to the new assignments of
    [rtEmail]. *)
Lemma settle_counts (st : state) (n r : Z) (rtEmail : string) (found : Student.t)
    (students1 : list Student.t) (assignments1 current1 : Js.obj (list Student.t)) :
  Student.row_index found = n ->
  NoDup (Js.keys assignments1) -> NoDup (Js.keys current1) ->
  occurrences (settle st (IdNum n) rtEmail found students1 assignments1 current1) r
  = if n =? r
    then (occ n students1 + occ n (bucket assignments1 rtEmail)
          + (if existsb (is_row (IdNum n)) (bucket assignments1 rtEmail) then 0 else 1)
          + occ n (bucket current1 rtEmail))%nat
    else (occ r students1 + occ_obj r assignments1 + occ_obj r current1)%nat.
Proof.
  intros Hrow Hka Hkc. unfold occurrences, settle. simpl.
  rewrite occ_obj_add_new.
  unfold bucket at 1. rewrite bucket_without_elsewhere. fold (bucket assignments1 rtEmail).
  rewrite occ_cons. change (occ r []) with O. rewrite Hrow.
  destruct (Z.eqb_spec n r) as [<- | Hne].
  - rewrite !occ_obj_without_elsewhere_same by assumption.
    destruct (existsb _ _); lia.
  - assert (IdNum n <> IdNum r) as Hid by congruence.
    rewrite !occ_obj_without_elsewhere_other by assumption.
    destruct (existsb _ _); lia.
Qed.

Lemma settle_keys (st : state) (a : id) (rtEmail : string) (found : Student.t)
    (students1 : list Student.t) (assignments1 current1 : Js.obj (list Student.t)) :
  NoDup (Js.keys assignments1) -> NoDup (Js.keys current1) ->
  NoDup (Js.keys (assignments (settle st a rtEmail found students1 assignments1 current1)))
  /\ NoDup (Js.keys (currentAssignments
                       (settle st a rtEmail found students1 assignments1 current1))).
Proof.
  intros Hka Hkc. unfold settle. simpl. split.
  - apply keys_add_new. rewrite keys_without_elsewhere. exact Hka.
  - rewrite keys_without_elsewhere. exact Hkc.
Qed.

(** Taking the student out of the bucket where the search found it. *)
Lemma taken_out (n r : Z) (o : Js.obj (list Student.t)) (email : string)
    (l : list Student.t) (found : Student.t) :
  NoDup (Js.keys o) ->
  find_bucket (IdNum n) o = Some (email, l, found) ->
  Student.row_index found = n
  /\ (occ_obj r (Js.set o email (without (IdNum n) l))
      + (if (n =? r)%Z then occ n l else 0) = occ_obj r o)%nat
  /\ (1 <= occ n l)%nat.
Proof.
  intros Hnd Hfind.
  destruct (find_bucket_some _ _ _ _ _ Hnd Hfind) as [Hget Hfound].
  destruct (find_is_row_some _ _ _ Hfound) as [Hid Hge].
  injection Hid as Hid. rewrite <- Hid in Hge.
  split; [symmetry; exact Hid |].
  pose proof (occ_obj_set r o email (without (IdNum n) l)) as Hset.
  unfold bucket in Hset. rewrite Hget in Hset.
  split; [| exact Hge].
  destruct (Z.eqb_spec n r) as [<- | Hne].
  - rewrite occ_without_same in Hset. lia.
  - rewrite occ_without_other in Hset by congruence. lia.
Qed.

Lemma rt_dropOnTutor_located (roster : list Z) (st : state) (a over_id : id) :
  well_located roster st -> well_located roster (dropOnTutor st a over_id).
Proof.
  intros Hwl. pose proof Hwl as (Hka & Hkc & Hocc).
  unfold dropOnTutor.
  destruct over_id as [m | rtEmail]; [exact Hwl |].
  destruct (find _ (rts st)) as [target |]; [| exact Hwl].
  destruct a as [n | k].
  2: { assert (forall l, find (is_row (IdStr k)) l = None) as Hnone
         by (induction l as [| s l IH]; simpl; auto).
       rewrite Hnone, !find_bucket_str. exact Hwl. }
  destruct (find (is_row (IdNum n)) (students st)) as [found |] eqn:Epool.
  - (* from the unassigned students *)
    destruct (find_is_row_some _ _ _ Epool) as [Hid Hge]. injection Hid as Hid.
    rewrite <- Hid in Hge.
    destruct (settle_keys st (IdNum n) rtEmail found (without (IdNum n) (students st))
                _ _ Hka Hkc) as [Hka' Hkc'].
    split; [exact Hka' | split; [exact Hkc' |]].
    intros r Hr. specialize (Hocc r Hr). unfold occurrences in Hocc.
    rewrite (settle_counts st n r rtEmail found _ _ _ (eq_sym Hid) Hka Hkc).
    destruct (Z.eqb_spec n r) as [<- | Hne].
    + rewrite occ_without_same.
      pose proof (occ_bucket_le n (assignments st) rtEmail) as Hbe.
      pose proof (occ_bucket_le n (currentAssignments st) rtEmail) as Hce.
      rewrite existsb_is_row.
      destruct (Nat.eqb_spec (occ n (bucket (assignments st) rtEmail)) 0); simpl; lia.
    + rewrite occ_without_other by congruence. exact Hocc.
  - pose proof (find_is_row_none _ _ Epool) as Hpool.
    destruct (find_bucket (IdNum n) (assignments st)) as [[[email l] found] |] eqn:Ea.
    + (* from a new-assignment bucket *)
      assert (NoDup (Js.keys (Js.set (assignments st) email (without (IdNum n) l)))) as Hka1
        by (apply JsFacts.keys_set_nodup, Hka).
      destruct (settle_keys st (IdNum n) rtEmail found (students st) _ _ Hka1 Hkc)
        as [Hka' Hkc'].
      split; [exact Hka' | split; [exact Hkc' |]].
      intros r Hr. specialize (Hocc r Hr). unfold occurrences in Hocc.
      destruct (taken_out n r _ _ _ _ Hka Ea) as (Hrow & Hset & Hge).
      rewrite (settle_counts st n r rtEmail found _ _ _ Hrow Hka1 Hkc).
      destruct (Z.eqb_spec n r) as [<- | Hne].
      * pose proof (occ_bucket_le n (Js.set (assignments st) email (without (IdNum n) l))
                      rtEmail) as Hbe.
        pose proof (occ_bucket_le n (currentAssignments st) rtEmail) as Hce.
        rewrite existsb_is_row.
        destruct (Nat.eqb_spec
                    (occ n (bucket (Js.set (assignments st) email (without (IdNum n) l))
                               rtEmail)) 0); simpl; lia.
      * lia.
    + pose proof (find_bucket_none _ _ Ea) as Hnew.
      destruct (find_bucket (IdNum n) (currentAssignments st)) as [[[email l] found] |] eqn:Ec;
        [| exact Hwl].
      (* from a current-assignment bucket *)
      assert (NoDup (Js.keys (Js.set (currentAssignments st) email (without (IdNum n) l))))
        as Hkc1 by (apply JsFacts.keys_set_nodup, Hkc).
      destruct (settle_keys st (IdNum n) rtEmail found (students st) _ _ Hka Hkc1)
        as [Hka' Hkc'].
      split; [exact Hka' | split; [exact Hkc' |]].
      intros r Hr. specialize (Hocc r Hr). unfold occurrences in Hocc.
      destruct (taken_out n r _ _ _ _ Hkc Ec) as (Hrow & Hset & Hge).
      rewrite (settle_counts st n r rtEmail found _ _ _ Hrow Hka Hkc1).
      destruct (Z.eqb_spec n r) as [<- | Hne].
      * pose proof (occ_bucket_le n (assignments st) rtEmail) as Hbe.
        pose proof (occ_bucket_le n (Js.set (currentAssignments st) email
                                       (without (IdNum n) l)) rtEmail) as Hce.
        rewrite existsb_is_row.
        destruct (Nat.eqb_spec (occ n (bucket (assignments st) rtEmail)) 0); simpl; lia.
      * lia.
Qed.

(** X25. On the RT board, every drag keeps every student in one place.
    If the two assignment objects have no key twice and every student of
    the roster is in exactly one of the unassigned pool, one RT's
    new-assignment bucket and one RT's current-assignment bucket, the same
    holds after [handleDragEnd], for every event: dropped on the
    unassigned zone, on a student card, on an RT, on the RT the student
    is already with, or on nothing. *)
Theorem rt_drag_keeps_students_located (roster : list Z) (st : state) (ev : event) :
  well_located roster st -> well_located roster (handleDragEnd st ev).
Proof.
  intros Hwl. unfold handleDragEnd.
  destruct (over ev) as [over_id |]; [| exact Hwl].
  destruct (is_unassigned over_id || existsb (is_row over_id) (students st)).
  - apply rt_dropOnUnassigned_located, Hwl.
  - apply rt_dropOnTutor_located, Hwl.
Qed.

(** X26. An RT takes any number of students.  When an unassigned
    student is dropped on an RT of the list, the student is added to the
    new assignments of that RT, which get one student more whatever
    their number and the number of the RT's current students are, and
    leaves the unassigned pool: the RT board has no check of status or
    capacity, unlike the NRT board. *)
Theorem rt_takes_any_number (st : state) (n : Z) (rtEmail : string) :
  rtEmail <> "unassigned" ->
  find (fun r => String.eqb (email r) rtEmail) (rts st) <> None ->
  existsb (is_row (IdNum n)) (students st) = true ->
  in_bucket (assignments st) rtEmail (IdNum n) = false ->
  let st' := handleDragEnd st (mkEvent (IdNum n) (Some (IdStr rtEmail))) in
  bucket_size (assignments st') rtEmail = bucket_size (assignments st) rtEmail + 1
  /\ bucket_size (currentAssignments st') rtEmail
     = bucket_size (currentAssignments st) rtEmail
  /\ in_bucket (assignments st') rtEmail (IdNum n) = true
  /\ existsb (is_row (IdNum n)) (students st') = false.
Proof.
  intros Hzone Hlisted Hpool Hnew st'. subst st'.
  unfold handleDragEnd. cbn [over active].
  rewrite (BoardMoves.is_unassigned_str rtEmail Hzone), BoardMoves.is_row_str.
  cbn [orb]. cbv iota. unfold dropOnTutor.
  destruct (find _ (rts st)) as [target |]; [| contradiction].
  destruct (find (is_row (IdNum n)) (students st)) as [found |] eqn:Efind.
  2: { exfalso. apply existsb_exists in Hpool. destruct Hpool as (s & Hs & Hrow).
       apply (find_none _ _ Efind) in Hs. congruence. }
  pose proof (find_some _ _ Efind) as [_ Hrow].
  unfold settle. cbn [assignments currentAssignments students dropped].
  rewrite !BoardMore.bucket_size_bucket, !BoardMore.in_bucket_bucket.
  rewrite BoardMore.bucket_add_new, String.eqb_refl.
  rewrite !BoardMore.bucket_without_elsewhere_at, String.eqb_refl.
  rewrite BoardMore.in_bucket_bucket in Hnew. rewrite Hnew.
  repeat split.
  - rewrite length_app. simpl. lia.
  - rewrite existsb_app. cbn [existsb]. rewrite Hrow.
    apply orb_true_iff. right. reflexivity.
  - apply BoardMore.without_clean.
Qed.

End RtBoardFacts.
(* ================================================================== *)
(** * Every point of a session of the NRT assignment step *)
(* ================================================================== *)

Module SessionFacts.
Import Board BoardCounts Session JsKeys.

(** ** A student who is nowhere stays nowhere *)








(** ** What holds at every point of a session *)

(** The students of [present] are in exactly one place, those of [absent]
    are nowhere, and while the panel is open its entries are for
    different students, all of them in the unassigned pool. *)
Definition settled (present absent : list Z) (st : state) : Prop :=
  well_located present st
  /\ (forall r, In r absent -> occurrences st r = O)
  /\ (tentativePanelOpen st = true ->
      NoDup (Matcher.suggested_rows (tentativeAssignments st))
      /\ forall x, In x (tentativeAssignments st) ->
           existsb (is_row (IdNum (Student.row_index (Matcher.student x)))) (students st)
           = true).







End SessionFacts.
(* ================================================================== *)
(** * The status step: which updates are staged *)
(* ================================================================== *)

Module StatusStepFacts.
Import StatusStep JsKeys JsKeysFacts HandOver.

Lemma toString_eqb (n m : Z) : String.eqb (toString n) (toString m) = (n =? m).
Proof.
  destruct (Z.eqb_spec n m) as [-> | Hne].
  - apply String.eqb_refl.
  - apply String.eqb_neq. intros H. apply Hne. apply toString_inj. exact H.
Qed.

Lemma keys_of_rows (rows : list Z) : NoDup rows -> NoDup (map toString rows).
Proof.
  induction rows as [| r rows IH]; simpl; intros Hnd; [constructor |].
  inversion Hnd as [| ? ? Hnin Hnd']. subst.
  constructor; [| apply IH; exact Hnd'].
  intros Hin. apply in_map_iff in Hin. destruct Hin as (r' & Hkey & Hr').
  apply toString_inj in Hkey. subst r'. contradiction.
Qed.

(** A status read after the choices is the one chosen last, or the one
    that was there before. *)
Lemma status_after_choices (st : state) (choices : list (Z * string)) (row : Z) :
  Js.get (nrtStatuses (after_choices st choices)) (toString row)
  = match last_choice choices row with
    | Some status => Some status
    | None => Js.get (nrtStatuses st) (toString row)
    end.
Proof.
  revert st. induction choices as [| [r s] choices IH]; intros st; [reflexivity |].
  change (after_choices st ((r, s) :: choices))
    with (after_choices (handleStatusChange st r s) choices).
  rewrite IH. cbn [last_choice fst snd].
  destruct (last_choice choices row); [reflexivity |].
  unfold handleStatusChange. cbn [nrtStatuses]. rewrite get_put, toString_eqb.
  destruct (r =? row); reflexivity.
Qed.

Lemma nrts_after_choices (st : state) (choices : list (Z * string)) :
  nrts (after_choices st choices) = nrts st.
Proof.
  revert st. induction choices as [| c choices IH]; intros st; [reflexivity |].
  change (after_choices st (c :: choices))
    with (after_choices (handleStatusChange st (fst c) (snd c)) choices).
  rewrite IH. reflexivity.
Qed.

(** The status loaded for an NRT, when no two NRTs have the same row
    index. *)
Lemma status_loaded (data : list Nrt.t) (nrt : Nrt.t) :
  NoDup (map Nrt.row_index data) -> In nrt data ->
  Js.get (nrtStatuses (loadNRTs data)) (toString (Nrt.row_index nrt))
  = Some (Board.or_default (Some (Nrt.status nrt)) "active").
Proof.
  intros Hrows Hin. unfold loadNRTs. simpl.
  assert (NoDup (map (fun n => toString (Nrt.row_index n)) data)) as Hkeys.
  { rewrite <- (map_map Nrt.row_index toString).
    apply keys_of_rows. exact Hrows. }
  pose proof (Loading.fold_put_perm (fun n => toString (Nrt.row_index n))
                (fun n => Board.or_default (Some (Nrt.status n)) "active")
                data [] Hkeys) as Hperm.
  simpl app in Hperm.
  apply in_get_some.
  - apply (Permutation_NoDup (l := map (fun n => toString (Nrt.row_index n)) data));
      [| exact Hkeys].
    rewrite <- (map_map (fun n => (toString (Nrt.row_index n),
                                   Board.or_default (Some (Nrt.status n)) "active")) fst).
    apply Permutation_map, Permutation_sym. exact Hperm.
  - apply (Permutation_in _ (Permutation_sym Hperm)).
    apply (in_map (fun n => (toString (Nrt.row_index n),
                             Board.or_default (Some (Nrt.status n)) "active"))).
    exact Hin.
Qed.

(** X28. The status step stages an update for exactly the NRTs whose
    status shown differs from the loaded one.  When no two loaded NRTs
    have the same row index, after any sequence of choices [handleNext]
    returns, in the order of the NRTs, one entry for every NRT whose
    status shown (the one chosen last, else the loaded one, 'active'
    when that is missing) is neither the loaded status nor 'DELETE', with
    that status.  So an NRT whose status is missing is staged as 'active'
    without any choice, a choice that is taken back stages nothing, and
    'DELETE' is never staged. *)
Theorem staged_status_updates (data : list Nrt.t) (choices : list (Z * string)) :
  NoDup (map Nrt.row_index data) ->
  handleNext (after_choices (loadNRTs data) choices)
  = map (fun nrt => {| row_index := Nrt.row_index nrt;
                       status := Some (shown choices nrt) |})
        (filter (differs choices) data).
Proof.
  intros Hrows.
  assert (forall nrt, In nrt data ->
            Js.get (nrtStatuses (after_choices (loadNRTs data) choices))
                   (toString (Nrt.row_index nrt))
            = Some (shown choices nrt)) as Hshown.
  { intros nrt Hin. rewrite status_after_choices. unfold shown.
    destruct (last_choice choices (Nrt.row_index nrt)); [reflexivity |].
    apply status_loaded; assumption. }
  unfold handleNext. rewrite nrts_after_choices.
  change (nrts (loadNRTs data)) with data.
  rewrite (filter_ext_in _ (differs choices)).
  - apply map_ext_in. intros nrt Hin. apply filter_In in Hin. destruct Hin as [Hin _].
    rewrite (Hshown nrt Hin). reflexivity.
  - intros nrt Hin. rewrite (Hshown nrt Hin). reflexivity.
Qed.

End StatusStepFacts.
(* ================================================================== *)
(** * The words that the scorer compares *)
(* ================================================================== *)

Module ScorerMore.
Import Scorer ScorerSpec.

Lemma all_chars_app (p : ascii -> bool) (s t : string) :
  all_chars p (s ++ t) = all_chars p s && all_chars p t.
Proof.
  induction s as [| c s IH]; simpl; [reflexivity |].
  rewrite IH. apply andb_assoc.
Qed.

(** The pieces of a text hold the characters of the text that are not
    white space. *)
Lemma split_from_chars (p : ascii -> bool) (cur : string) (in_gap : bool) (s : string) :
  all_chars p cur = true ->
  all_chars (fun c => Js.is_space_char c || p c) s = true ->
  Forall (fun w => all_chars p w = true) (Js.split_from cur in_gap s).
Proof.
  revert cur in_gap. induction s as [| c s IH]; intros cur in_gap Hcur Hs.
  - constructor; [exact Hcur | constructor].
  - cbn [all_chars] in Hs. apply andb_prop in Hs. destruct Hs as [Hc Hs].
    cbn [Js.split_from].
    destruct (Js.is_space_char c) eqn:Espace.
    + destruct in_gap.
      * apply IH; [reflexivity | exact Hs].
      * constructor; [exact Hcur |]. apply IH; [reflexivity | exact Hs].
    + apply IH; [| exact Hs].
      rewrite all_chars_app, Hcur. cbn [all_chars]. simpl in Hc. rewrite Hc. reflexivity.
Qed.

(** What is left of a character: white space, or a lower-case letter, a
    digit or the underscore. *)
Lemma cleaned_char (c : ascii) :
  let lower := Js.lower_char c in
  let kept := if Js.is_word_char lower || Js.is_space_char lower then lower else " "%char in
  Js.is_space_char kept || is_plain_char kept = true.
Proof. destruct c as [[] [] [] [] [] [] [] []]; vm_compute; reflexivity. Qed.

Lemma cleaned_text (text : string) :
  all_chars (fun c => Js.is_space_char c || is_plain_char c)
            (Js.replace_punctuation (Js.toLowerCase text)) = true.
Proof.
  induction text as [| c text IH]; [reflexivity |].
  cbn [Js.toLowerCase Js.replace_punctuation all_chars].
  rewrite IH, (cleaned_char c). reflexivity.
Qed.

(** X27. Every word that [extractWords] returns, for every text, has at
    least three characters, is no stop word, and consists of lower-case
    letters, digits and underscores only: no upper-case letter, no
    punctuation, no accented letter and no white space is left in a
    word.  (So the stop word 'interested in', which has a blank, can
    never be met.) *)
Theorem extracted_words_are_keywords (text : string) :
  Forall keyword (extractWords text).
Proof.
  unfold extractWords. destruct (String.eqb text ""); [constructor |].
  apply Forall_forall. intros w Hw. apply filter_In in Hw. destruct Hw as [Hin Hkeep].
  apply andb_prop in Hkeep. destruct Hkeep as [Hlen Hstop].
  split; [| split].
  - apply Nat.ltb_lt in Hlen. lia.
  - apply negb_true_iff. exact Hstop.
  - pose proof (split_from_chars is_plain_char EmptyString false _ eq_refl
                  (cleaned_text text)) as Hall.
    rewrite Forall_forall in Hall. apply Hall. exact Hin.
Qed.

End ScorerMore.
(* ================================================================== *)
(** * The workflows around the commit *)
(* ================================================================== *)

Module WorkflowFacts.
Import Commit CommitSpec CommitFacts Workflows.

Lemma is_change_step4 (c : call) : in_step 4 c = true -> is_change c = false.
Proof. destruct c; simpl; try discriminate; reflexivity. Qed.

Lemma filter_map_all {X : Type} (p : call -> bool) (g : X -> call) (l : list X) :
  (forall x, p (g x) = true) -> filter p (map g l) = map g l.
Proof.
  intros Hg. induction l as [| x l IH]; simpl; [reflexivity |].
  rewrite Hg, IH. reflexivity.
Qed.

Lemma filter_map_none {X : Type} (p : call -> bool) (g : X -> call) (l : list X) :
  (forall x, p (g x) = false) -> filter p (map g l) = [].
Proof.
  intros Hg. induction l as [| x l IH]; simpl; [reflexivity |].
  rewrite Hg, IH. reflexivity.
Qed.

Lemma changes_staged (d : workflowData) : filter is_change (staged_requests d) = changes d.
Proof.
  unfold staged_requests, changes. rewrite !filter_app.
  rewrite filter_map_all by reflexivity.
  rewrite filter_map_none by reflexivity.
  destruct (0 <? List.length (newStudents d))%nat;
    destruct (0 <? List.length (newNRTs d))%nat; reflexivity.
Qed.

Lemma no_change_due (d : workflowData) (assign : Js.num -> string -> call)
    (entries : Js.obj string) :
  assign = AssignRT \/ assign = AssignNRT -> filter is_change (due d assign entries) = [].
Proof.
  intros Hassign. unfold due. apply filter_map_none.
  intros x. destruct Hassign as [-> | ->]; reflexivity.
Qed.

Lemma nothing_staged (d : workflowData) : hasStagedChanges d = false -> changes d = [].
Proof.
  unfold hasStagedChanges, changes. intros H.
  apply Bool.orb_false_iff in H. destruct H as [H HnewNRTs].
  apply Bool.orb_false_iff in H. destruct H as [H _].
  apply Bool.orb_false_iff in H. destruct H as [H _].
  apply Bool.orb_false_iff in H. destruct H as [Hdeleted HnewStudents].
  rewrite HnewStudents, HnewNRTs.
  destruct (deletedStudents d); [reflexivity | discriminate].
Qed.

Section Requests.
Variable backend : Type.
Variable serve : backend -> call -> backend * response.

(** X23. In the guided workflow of [Workflow.js] the staged changes are
    applied twice.  Against a collaborator that rejects no request but
    the export, and an assignment only with the answer 404 "not found",
    the review step goes on to the assignment steps after requesting
    every staged student deletion and both bulk additions, and the
    confirmation step, which is given the same [workflowData], requests
    every one of them again, in the same order, before it assigns:
    nothing takes an applied change out of [workflowData]. *)
Theorem changes_are_applied_twice (d : workflowData) (rt nrt : Js.obj string) (b : backend) :
  tolerated serve ->
  let sitting := review_then_confirm backend serve d rt nrt b in
  finished backend (fst sitting) = true
  /\ filter is_change (requests backend (fst sitting)) = changes d
  /\ exists confirmation,
       snd sitting = Some confirmation
       /\ finished backend confirmation = true
       /\ filter is_change (requests backend confirmation) = changes d.
Proof.
  intros Htol sitting. subst sitting. unfold review_then_confirm.
  assert (finished backend (handleApplyChanges backend serve false d b) = true
          /\ filter is_change (requests backend (handleApplyChanges backend serve false d b))
             = changes d) as (Hfin & Hreq).
  { unfold handleApplyChanges.
    destruct (hasStagedChanges d) eqn:Estaged; simpl negb; cbv iota.
    - assert (CommitMore.runs backend is_change (filter is_change (staged_requests d) ++ [])
                (bind backend (apply_changes backend serve d)
                   (fun _ => when backend false (export_to_sheets backend serve)))) as Hruns.
      { apply CommitMore.runs_bind.
        - apply CommitMore.runs_apply_changes; [exact Htol | exact is_change_step4].
        - intros _. apply CommitMore.runs_ret. }
      destruct (Hruns b []) as (u & b' & t' & E & F).
      unfold run. rewrite E. simpl.
      split; [reflexivity |]. rewrite F, app_nil_r. apply changes_staged.
    - simpl. split; [reflexivity |]. symmetry. apply nothing_staged. exact Estaged. }
  split; [exact Hfin | split; [exact Hreq |]].
  cbn [fst snd]. rewrite Hfin.
  eexists. split; [reflexivity |].
  set (d' := Session.with_nrtAssignments (with_rtAssignments d rt) nrt).
  destruct (CommitMore.runs_workflow_body backend serve Htol is_change is_change_step4 d'
              (backend_after backend (handleApplyChanges backend serve false d b)) [])
    as (u & b' & t' & E & F).
  unfold processWorkflow, run. rewrite E. simpl.
  split; [reflexivity |].
  rewrite F, changes_staged, !no_change_due by auto.
  destruct (hasChanges d'); simpl; rewrite app_nil_r; reflexivity.
Qed.

(** What the workflow that only reassigns NRTs may request. *)
Definition reassigns (st : Board.state) (c : call) : Prop :=
  match c with
  | AssignNRT row email =>
      exists r, row = Js.Num r
                /\ Board.in_bucket (Board.assignments st) email (Board.IdNum r) = true
  | SyncToSheets force => force = false /\ Session.handleNext st <> []
  | _ => False
  end.

(** X24. The workflow that only reassigns NRTs ([ReassignNRTWorkflow]:
    the NRT assignment step, then the confirmation step on a
    [workflowData] that holds [nrtAssignments] alone) requests nothing
    but NRT assignments for students who are in the new-assignment
    bucket of that tutor on the board, and the unforced export, which it
    requests only if some student was given to a tutor; whatever the
    collaborator answers, it deletes, adds and updates nothing. *)
Theorem reassignment_only_assigns (st : Board.state) (b : backend) :
  Forall (reassigns st)
         (requests backend (reassign_nrts backend serve (Session.handleNext st) b)).
Proof.
  unfold reassign_nrts. apply (keeps_run backend). unfold workflow_body.
  apply keeps_bind.
  { unfold apply_changes. simpl.
    repeat (apply keeps_bind; [apply keeps_ret | intros _]). apply keeps_ret. }
  intros _. apply keeps_bind; [apply keeps_ret | intros _].
  apply keeps_bind.
  { apply CommitMore.assign_all_staged. intros key email Hin. simpl in Hin.
    pose proof (HandOver.handleNext_new st) as Hnew. rewrite Forall_forall in Hnew.
    destruct (Hnew _ Hin) as (r & Hkey & Hb). simpl in Hkey, Hb.
    exists r. subst key. split; [apply JsKeysFacts.parseInt_toString | exact Hb]. }
  intros _. unfold hasChanges. simpl.
  destruct (Session.handleNext st) as [| entry rest] eqn:E; [apply keeps_ret |].
  unfold when, export_to_sheets. simpl.
  apply keeps_try_catch; [| intros _; apply keeps_ret].
  apply keeps_done, keeps_await. split; [reflexivity | rewrite E; discriminate].
Qed.

End Requests.

End WorkflowFacts.
(* ================================================================== *)
(** * The session on concrete inputs *)
(* ================================================================== *)

Module SessionCases.
Import Board Scenario Samples Session.

Section Distinct.
Context {A : Type}.
Variable eqb : A -> A -> bool.
Hypothesis eqb_eq : forall x y, eqb x y = true <-> x = y.

Fixpoint distinct (l : list A) : bool :=
  match l with
  | [] => true
  | x :: l' => negb (existsb (eqb x) l') && distinct l'
  end.

Lemma distinct_NoDup (l : list A) : distinct l = true -> NoDup l.
Proof.
  induction l as [| x l IH]; simpl; intros H; [constructor |].
  apply andb_prop in H. destruct H as [Hx Hl].
  constructor; [| apply IH; exact Hl].
  intros Hin. apply negb_true_iff in Hx.
  assert (existsb (eqb x) l = true) as Hex
    by (apply existsb_exists; exists x; split; [exact Hin | apply eqb_eq; reflexivity]).
  congruence.
Qed.
End Distinct.

Lemma distinct_strings (l : list string) : distinct String.eqb l = true -> NoDup l.
Proof. apply distinct_NoDup. apply String.eqb_eq. Qed.

Lemma distinct_rows (l : list Z) : distinct Z.eqb l = true -> NoDup l.
Proof. apply distinct_NoDup. apply Z.eqb_eq. Qed.

Lemma misses_student_2_tolerated : CommitSpec.tolerated misses_student_2.
Proof.
  intros b c b' e H. destruct c; simpl in *; try discriminate.
  - destruct (Js.num_eqb row (Js.Num 2)); [| discriminate].
    injection H as _ <-. reflexivity.
  - destruct (Js.num_eqb row (Js.Num 2)); [| discriminate].
    injection H as _ <-. reflexivity.
Qed.

Lemma shuffled_board_located : well_located [1; 2; 3] shuffled_board.
Proof.
  apply BoardCases.located_by_counting;
    try (apply BoardCases.two_keys_distinct); reflexivity.
Qed.

Lemma crowded_board_located : well_located [1; 2; 3; 4] crowded_board.
Proof.
  apply BoardCases.located_by_counting; try reflexivity;
    apply distinct_strings; reflexivity.
Qed.

Lemma only_bucket_of_2 (e : string) :
  in_bucket (assignments shuffled_board) e (IdNum 2) = true -> e = "b@x.com".
Proof.
  unfold in_bucket.
  change (assignments shuffled_board)
    with [("a@x.com", [student_3; student_1]); ("b@x.com", [student_2])].
  cbn [Js.get].
  destruct (String.eqb "a@x.com" e); [intros H; vm_compute in H; discriminate |].
  destruct (String.eqb "b@x.com" e) eqn:E; [| discriminate].
  intros _. apply String.eqb_eq in E. symmetry. exact E.
Qed.

Lemma no_new_assignment_yet (email : string) :
  bucket_size (assignments crowded_board) email = 0.
Proof.
  unfold bucket_size.
  change (assignments crowded_board) with [("a@x.com", @nil Student.t)].
  cbn [Js.get]. destruct (String.eqb "a@x.com" email); reflexivity.
Qed.

(** X2, an example. With four students and tutor A alone, student 4 gets no suggestion
    and tutor A is full. *)
Lemma left_out_only_when_tutors_are_full_witness :
  let students := [student_1; student_2; student_3; student_4] in
  In student_4 students /\ In tutor_a [tutor_a] /\ Matcher.isAvailable [] tutor_a = true /\
  (In 4 (Matcher.suggested_rows (Matcher.generateOptimalAssignments students [tutor_a] []))
   \/ Matcher.currentCount [] "a@x.com"
      + Matcher.entries_for "a@x.com"
          (Matcher.generateOptimalAssignments students [tutor_a] []) = 3).
Proof.
  assert (In student_4 [student_1; student_2; student_3; student_4]) as Hs
    by (simpl; tauto).
  assert (In tutor_a [tutor_a]) as Hn by (left; reflexivity).
  split; [exact Hs | split; [exact Hn | split; [reflexivity |]]].
  apply (MatcherMore.left_out_only_when_tutors_are_full
           [student_1; student_2; student_3; student_4] [tutor_a] []
           student_4 tutor_a Hs Hn eq_refl).
Defined.

(** X4, an example. On the board where tutor A has three new assignments, dropping
    student 4 on tutor A leaves the tutor with three students. *)
Lemma drag_keeps_capacity_witness :
  NoDup (Js.keys (assignments full_board)) /\
  NoDup (Js.keys (currentAssignments full_board)) /\
  total (state_of (handleDragEnd full_board (drop_on_a 4))) "a@x.com"
  <= Z.max 3 (total full_board "a@x.com").
Proof.
  assert (NoDup (Js.keys (assignments full_board))) as Hka
    by (apply distinct_strings; reflexivity).
  assert (NoDup (Js.keys (currentAssignments full_board))) as Hkc
    by (apply distinct_strings; reflexivity).
  split; [exact Hka | split; [exact Hkc |]].
  apply (BoardMore.drag_keeps_capacity full_board (drop_on_a 4) "a@x.com" Hka Hkc).
Defined.

(** X5, an example. Student 1, unassigned, is dropped on tutor A. *)
Lemma carried_out_drop_lands_witness :
  let st' := state_of (handleDragEnd fresh_board (drop_on_a 1)) in
  handleDragEnd fresh_board (drop_on_a 1) = Done st' None /\
  in_bucket (assignments st') "a@x.com" (IdNum 1) = true /\
  existsb (is_row (IdNum 1)) (students st') = false /\
  forall other, other <> "a@x.com" ->
    in_bucket (assignments st') other (IdNum 1) = false
    /\ in_bucket (currentAssignments st') other (IdNum 1) = false.
Proof.
  intros st'. split; [reflexivity |].
  apply (BoardMore.carried_out_drop_lands fresh_board st' (IdNum 1) "a@x.com").
  - discriminate.
  - discriminate.
  - discriminate.
  - reflexivity.
Defined.

(** X6, an example. Student 1, the second of the two students given to
    tutor A in this session, is dropped on the unassigned zone: the bucket
    of tutor A keeps student 3, and nothing else changes. *)
Lemma drop_on_unassigned_returns_student_witness :
  let result :=
    handleDragEnd shuffled_board (mkEvent (IdNum 1) (Some (IdStr "unassigned"))) in
  let st' := state_of result in
  holders (assignments shuffled_board) (IdNum 1) = ["a@x.com"] /\
  alert_of result = None /\
  existsb (is_row (IdNum 1)) (students st') = true /\
  List.length (students st') = S (List.length (students shuffled_board)) /\
  assignments st' = [("a@x.com", [student_3]); ("b@x.com", [student_2])] /\
  currentAssignments st' = currentAssignments shuffled_board.
Proof.
  intros result st'. split; [reflexivity |].
  destruct (BoardMore.drop_on_unassigned_returns_student shuffled_board 1 "a@x.com")
    as (Halert & Hin & Hlen & Hnew & _ & Hcur).
  - apply distinct_strings. reflexivity.
  - apply distinct_strings. reflexivity.
  - left. reflexivity.
  - split; [exact Halert | split; [exact Hin | split; [exact Hlen |]]].
    split; [exact Hnew | exact Hcur].
Defined.

(** X8, an example. The board as loaded with "Show only active NRTs" on: student 1 is
    dropped on the tutor who is leaving, who is not displayed. *)
Lemma no_status_alert_when_filtered_witness :
  let st := loadData loaded_students loaded_tutors true in
  nrts st = filterNrts (allNrts st) true /\
  Forall (fun n => Nrt.status n = "active") (nrts st) /\
  alert_of (handleDragEnd st (drop_on_leaving 1)) <> Some alert_not_accepting.
Proof.
  intros st. split; [reflexivity |].
  apply (BoardMore.no_status_alert_when_filtered st (drop_on_leaving 1)).
  reflexivity.
Defined.

Lemma class_list_sortable : Forall sortable class_list.
Proof.
  repeat constructor; try (vm_compute; discriminate); simpl; tauto.
Qed.

Lemma class_list_plain : Forall plain_status class_list.
Proof.
  repeat constructor; unfold plain_status; simpl;
    intros H; repeat (destruct H as [H | H]; [discriminate |]); exact H.
Qed.

Lemma mixed_list_plain : Forall plain_status mixed_list.
Proof.
  repeat constructor; unfold plain_status; simpl;
    intros H; repeat (destruct H as [H | H]; [discriminate |]); exact H.
Qed.

(** X9, an example. Four students, two of them with a status that the
    sort does not know and one of these with a class year that is no
    number: these two come second and third, in the order they had. *)
Lemma sorted_by_status_witness :
  Forall plain_status mixed_list /\
  JsSort.consistent compare_students mixed_list = true /\
  map Student.row_index (sortStudentsByStatusAndClassYear mixed_list) = [4; 2; 3; 1] /\
  Permutation (sortStudentsByStatusAndClassYear mixed_list) mixed_list /\
  StronglySorted (fun a b => Js.num_pos (compare_students a b) = false)
                 (sortStudentsByStatusAndClassYear mixed_list) /\
  StronglySorted (fun a b => priority a <= priority b)
                 (sortStudentsByStatusAndClassYear mixed_list).
Proof.
  split; [exact mixed_list_plain |].
  split; [vm_compute; reflexivity |].
  split; [vm_compute; reflexivity |].
  destruct (BoardMore.sorted_by_status mixed_list mixed_list_plain)
    as (Hperm & Hsorted & _ & Hranks); [vm_compute; reflexivity |].
  split; [exact Hperm | split; [exact Hsorted | exact Hranks]].
Defined.

(** X10, an example. Five students of all three kinds, one of them with neither status
    nor class year. *)
Lemma sorted_by_status_and_class_year_witness :
  Forall sortable class_list /\
  StronglySorted before_or_equal (sortStudentsByStatusAndClassYear class_list).
Proof.
  split; [exact class_list_sortable |].
  apply (BoardMore.sorted_by_status_and_class_year class_list class_list_sortable).
Defined.

(** X11, an example. Four unassigned students and tutor A alone: three suggestions are
    made and accepted. *)
Lemma accepting_all_suggestions_witness :
  let suggested := handleSuggestAssignments crowded_board in
  let final := accept_all suggested (tentativeAssignments suggested) in
  well_located [1; 2; 3; 4] crowded_board /\
  well_located [1; 2; 3; 4] final /\
  tentativeAssignments final = [] /\
  bucket_size (assignments final) "a@x.com" = 3.
Proof.
  intros suggested final.
  destruct (BoardMore.accepting_all_suggestions [1; 2; 3; 4] crowded_board
              crowded_board_located no_new_assignment_yet) as (Hloc & Hnone & Hsize).
  split; [exact crowded_board_located |].
  split; [exact Hloc |].
  split; [exact Hnone |].
  destruct (Hsize "a@x.com") as [Hs _].
  etransitivity; [exact Hs | vm_compute; reflexivity].
Defined.

(** X21, an example. The assignments of student 2 are answered 404 "not found": the
    commit goes on to student 3 and to the NRT assignments, and
    finishes. *)
Lemma not_found_is_skipped_witness :
  let r := Commit.processWorkflow unit misses_student_2 three_assignments tt in
  CommitSpec.tolerated misses_student_2 /\
  Commit.finished unit r = true /\
  Commit.shown_error unit r = None /\
  filter CommitSpec.is_assignment (Commit.requests unit r)
  = [Commit.AssignRT (Js.Num 2) "rt@x.com"; Commit.AssignRT (Js.Num 3) "rt@x.com";
     Commit.AssignNRT (Js.Num 2) "a@x.com"].
Proof.
  intros r. split; [exact misses_student_2_tolerated |].
  destruct (CommitMore.not_found_is_skipped unit misses_student_2
              misses_student_2_tolerated three_assignments tt) as (Hfin & Herr & Hreq).
  split; [exact Hfin | split; [exact Herr |]].
  etransitivity; [exact Hreq | reflexivity].
Defined.

(** X22, an example. The deletion of student 1 is rejected with a server error. *)
Lemma failure_is_a_rejected_request_witness :
  let r := Commit.processWorkflow unit rejects_first_delete two_deletions tt in
  Commit.finished unit r = false /\
  exists before c b0 e,
    Commit.requests unit r = (before ++ [c])%list
    /\ rejects_first_delete b0 c = (Commit.backend_after unit r, Commit.Rejected e)
    /\ CommitSpec.fatal c e
    /\ Commit.shown_error unit r = Some (Commit.error_text e "Error processing workflow").
Proof.
  intros r. split; [reflexivity |].
  apply (CommitMore.failure_is_a_rejected_request unit rejects_first_delete
           two_deletions tt).
  reflexivity.
Defined.

(** X13, an example. Student 2 is in the new-assignment bucket of tutor B. *)
Lemma hand_over_is_the_new_assignments_witness :
  well_located [1; 2; 3] shuffled_board /\ In 2 [1; 2; 3] /\
  (Js.get (handleNext shuffled_board) (JsKeys.toString 2) = Some "b@x.com"
   <-> in_bucket (assignments shuffled_board) "b@x.com" (IdNum 2) = true).
Proof.
  assert (In 2 [1; 2; 3]) as Hin by (simpl; tauto).
  split; [exact shuffled_board_located | split; [exact Hin |]].
  apply (HandOver.hand_over_is_the_new_assignments [1; 2; 3] shuffled_board 2 "b@x.com"
           shuffled_board_located Hin).
Defined.

Lemma shuffled_board_rows : index_rows shuffled_board.
Proof. unfold index_rows. simpl. repeat constructor; simpl; lia. Qed.

(** X14, an example. Students 3 and 1 with tutor A and student 2 with tutor B are handed
    over in the order 1, 2, 3. *)
Lemma hand_over_in_row_order_witness :
  index_rows shuffled_board /\
  exists rows, Js.keys (handleNext shuffled_board) = map JsKeys.toString rows
               /\ StronglySorted Z.lt rows.
Proof.
  split; [exact shuffled_board_rows |].
  apply (HandOver.hand_over_in_row_order shuffled_board shuffled_board_rows).
Defined.

(** X16, an example. Student 2 is in the bucket of tutor B alone; the assignment is
    answered 404 "not found" and was requested once. *)
Lemma new_assignment_is_committed_once_witness :
  CommitSpec.tolerated misses_student_2 /\
  in_bucket (assignments shuffled_board) "b@x.com" (IdNum 2) = true /\
  nrt_requests_for 2
    (Commit.requests unit
       (Commit.processWorkflow unit misses_student_2
          (with_nrtAssignments three_assignments (handleNext shuffled_board)) tt))
  = [Commit.AssignNRT (Js.Num 2) "b@x.com"].
Proof.
  split; [exact misses_student_2_tolerated | split; [reflexivity |]].
  apply (HandOver.new_assignment_is_committed_once unit misses_student_2
           three_assignments shuffled_board tt 2 "b@x.com"
           misses_student_2_tolerated eq_refl only_bucket_of_2 eq_refl).
Defined.

Lemma loaded_rows_distinct : NoDup (map row_of loaded_students).
Proof. apply distinct_rows. reflexivity. Qed.

Lemma loaded_emails_distinct : NoDup (map Nrt.email loaded_tutors).
Proof. apply distinct_strings. reflexivity. Qed.

Lemma loaded_names_distinct :
  NoDup (map (fun n => JsKeys.normalized (Nrt.name n)) loaded_tutors).
Proof. apply distinct_strings. reflexivity. Qed.

(** X12, an example. Student 1 has no tutor, student 2 is recorded with "  dr. a " and
    student 3 with a tutor who is not an NRT: student 1 is in the pool,
    student 2 in the current-assignment bucket of tutor A, each in one
    place only, and student 3 is nowhere on the board. *)
Lemma loaded_board_places_witness :
  let st := loadData loaded_students loaded_tutors true in
  NoDup (map row_of loaded_students) /\
  map row_of (filter (is_placed loaded_tutors) loaded_students) = [1; 2] /\
  well_located [1; 2] st /\
  existsb (is_row (IdNum 1)) (students st) = true /\
  in_bucket (currentAssignments st) "a@x.com" (IdNum 2) = true /\
  Js.get (assignments st) "a@x.com" = Some [] /\
  occurrences st 3 = 0%nat.
Proof.
  intros st.
  destruct (Loading.loaded_board_places loaded_students loaded_tutors true
              loaded_rows_distinct loaded_emails_distinct loaded_names_distinct)
    as (Hloc & Hpool & Hcurrent & Hnew & _ & Habsent).
  split; [exact loaded_rows_distinct | split; [reflexivity |]].
  split; [exact Hloc |].
  split; [apply (Hpool unassigned_1); [simpl; tauto | reflexivity] |].
  split; [apply (Hcurrent with_tutor_a_2 tutor_a); [simpl; tauto | simpl; tauto | reflexivity] |].
  split; [apply (Hnew tutor_a); simpl; tauto |].
  apply (Habsent with_unknown_3); [simpl; tauto | reflexivity].
Defined.



Lemma resolves_all_tolerated : CommitSpec.tolerated resolves_all.
Proof. intros b c b' e H. unfold resolves_all in H. discriminate. Qed.

(** X23, an example. The deletion of student 1 and the additions of
    student 2 and of tutor B are requested by the review step and again
    by the confirmation step. *)
Lemma changes_are_applied_twice_witness :
  let sitting := Workflows.review_then_confirm unit resolves_all staged_changes
                   [("3", "rt@x.com")] [] tt in
  let requested := [Commit.StudentsDelete 1; Commit.StudentsBulkAdd [student_2];
                    Commit.NrtsBulkAdd [tutor_b]] in
  CommitSpec.tolerated resolves_all
  /\ filter CommitSpec.is_change (Commit.requests unit (fst sitting)) = requested
  /\ exists confirmation,
       snd sitting = Some confirmation
       /\ filter CommitSpec.is_change (Commit.requests unit confirmation) = requested.
Proof.
  intros sitting requested.
  destruct (WorkflowFacts.changes_are_applied_twice unit resolves_all staged_changes
              [("3", "rt@x.com")] [] tt resolves_all_tolerated)
    as (_ & Hreview & confirmation & Hsome & _ & Hconfirm).
  split; [exact resolves_all_tolerated |].
  split; [exact Hreview |].
  exists confirmation. split; [exact Hsome | exact Hconfirm].
Defined.

Lemma rt_board_located : RtBoard.well_located [1; 2; 3] rt_board.
Proof.
  split; [| split].
  - apply distinct_strings. reflexivity.
  - apply distinct_strings. reflexivity.
  - intros r Hr. simpl in Hr.
    destruct Hr as [<- | [<- | [<- | []]]]; reflexivity.
Qed.

(** X25, an example. Student 3, a current student of RT R, is dropped
    on RT R. *)
Lemma rt_drag_keeps_students_located_witness :
  let ev := mkEvent (IdNum 3) (Some (IdStr "r@x.com")) in
  RtBoard.well_located [1; 2; 3] rt_board
  /\ RtBoard.well_located [1; 2; 3] (RtBoard.handleDragEnd rt_board ev)
  /\ in_bucket (RtBoard.assignments (RtBoard.handleDragEnd rt_board ev))
                "r@x.com" (IdNum 3) = true.
Proof.
  intros ev. split; [exact rt_board_located |].
  split; [| reflexivity].
  apply (RtBoardFacts.rt_drag_keeps_students_located [1; 2; 3] rt_board ev
           rt_board_located).
Defined.

(** X26, an example. RT R has three new students and is given a
    fourth. *)
Lemma rt_takes_any_number_witness :
  let st' := RtBoard.handleDragEnd full_rt_board
               (mkEvent (IdNum 4) (Some (IdStr "r@x.com"))) in
  bucket_size (RtBoard.assignments full_rt_board) "r@x.com" = 3
  /\ bucket_size (RtBoard.assignments st') "r@x.com" = 3 + 1
  /\ in_bucket (RtBoard.assignments st') "r@x.com" (IdNum 4) = true.
Proof.
  intros st'. split; [reflexivity |].
  destruct (RtBoardFacts.rt_takes_any_number full_rt_board 4 "r@x.com")
    as (Hsize & _ & Hin & _).
  - discriminate.
  - discriminate.
  - reflexivity.
  - reflexivity.
  - split; [exact Hsize | exact Hin].
Defined.

Lemma status_rows_distinct : NoDup (map Nrt.row_index status_list).
Proof. apply distinct_rows. reflexivity. Qed.

(** X28, an example. Tutor 1 is changed and changed back, tutor 2 has
    no status, tutor 3 is set to 'active': updates to 'active' are staged
    for tutors 2 and 3. *)
Lemma staged_status_updates_witness :
  NoDup (map Nrt.row_index status_list)
  /\ StatusStep.handleNext
       (StatusStep.after_choices (StatusStep.loadNRTs status_list) status_choices)
     = [ StatusStep.mkStaged 2 (Some "active"); StatusStep.mkStaged 3 (Some "active") ].
Proof.
  split; [exact status_rows_distinct |].
  etransitivity.
  - apply (StatusStepFacts.staged_status_updates status_list status_choices
             status_rows_distinct).
  - reflexivity.
Defined.

Lemma clicks_listed :
  Forall (fun r => existsb (fun s => Student.row_index s =? r)
                           [student_1; student_2; student_3] = true) clicks.
Proof. repeat constructor. Qed.

(** X29, an example. After the clicks on the boxes of students 1, 2, 1
    and 3, students 2 and 3 are staged. *)
Lemma selected_iff_toggled_odd_witness :
  let students := [student_1; student_2; student_3] in
  DeleteSteps.selection clicks = [2; 3]
  /\ NoDup (DeleteSteps.selection clicks)
  /\ DeleteSteps.handleNext students (DeleteSteps.selection clicks)
     = [Some student_2; Some student_3].
Proof.
  intros students.
  destruct (DeleteStepsFacts.selected_iff_toggled_odd students clicks clicks_listed)
    as (Hnd & _ & _).
  split; [reflexivity | split; [exact Hnd | reflexivity]].
Defined.

(** X30, an example. Tutor A is marked twice and restored, tutor B is
    not confirmed, the leaving tutor is marked: the leaving tutor alone is
    staged. *)
Lemma marked_at_most_once_witness :
  DeleteSteps.after [] marks = [tutor_leaving]
  /\ NoDup (DeleteStepsFacts.rows (DeleteSteps.after [] marks)).
Proof.
  split; [reflexivity |].
  destruct (DeleteStepsFacts.marked_at_most_once [] marks (NoDup_nil Z)) as (Hnd & _).
  exact Hnd.
Defined.

End SessionCases.
